(** * Annotation tooling of common-ml: a shallow embedding

    The development follows the Python sources
    - [dl/annotation_processing.py] (geometry codec, [TXTAnnotations],
      [JSON2TXT]),
    - [dl/annotate/analyse.py] ([counter]),
    - [helpers/path_and_files_processing.py] (path helpers).

    Python integers are unbounded and are modelled by [Z]; a Python
    [float] is an IEEE-754 binary64 number and is modelled by the kernel's
    [float]; Python [str] values are modelled by [string], read as the
    UTF-8 bytes of the text; a [dict] is a [gmap]; an operation that may
    raise returns a [result]. *)

From Stdlib Require Import ZArith QArith List Sorted Ascii Floats.
From stdpp Require Import gmap strings list fin_maps pretty.

Local Open Scope Z_scope.

(** ** Exceptions and fallible results *)

(** The Python exceptions that the modelled code can raise. *)
Inductive exn : Type :=
  | ValueError
  | KeyError
  | TypeError
  | OverflowError
  | ZeroDivisionError
  | JSONDecodeError.

Inductive result (A : Type) : Type :=
  | Ok (a : A)
  | Raise (e : exn).
Arguments Ok {A} a.
Arguments Raise {A} e.

Definition rbind {A B} (r : result A) (k : A → result B) : result B :=
  match r with
  | Ok a => k a
  | Raise e => Raise e
  end.

Notation "'do' x <- r ; k" := (rbind r (λ x, k))
  (at level 10, x name, r at level 100, k at level 200).

(** ** The geometry codec *)

(** A positive finite number of the reference implementation of binary64
    in the Standard Library, by mantissa and exponent. *)
Abbreviation pos_float m e := (S754_finite false (Z.to_pos m) e).

Module Geometry.

(** An [int] as a floating-point datum with exponent 0; the mantissa may
    have any number of bits. *)
Definition spec_of_int (n : Z) : spec_float :=
  match n with
  | Z0 => S754_zero false
  | Z.pos p => S754_finite false p 0
  | Z.neg p => S754_finite true p 0
  end.

(** A result of the reference implementation as a Python [float]; Python
    raises [OverflowError] where the result would be an infinity. *)
Definition float_of_spec (r : spec_float) : result float :=
  match r with
  | S754_infinity _ => Raise OverflowError
  | _ => Ok (SF2Prim r)
  end.

(** [float(n)] for an [int], as in [n * f]: [n] rounded to the nearest
    binary64 number. *)
Definition float_of_int (n : Z) : result float :=
  float_of_spec (binary_normalize prec emax n 0 false).

(** [a / b] for two [int]s: the quotient rounded to the nearest binary64
    number. *)
Definition int_truediv (a b : Z) : result float :=
  if decide (b = 0) then Raise ZeroDivisionError
  else float_of_spec (SFdiv prec emax (spec_of_int a) (spec_of_int b)).

(** [bbox2yolo] on [int] arguments, as annotated. *)
Definition bbox2yolo (width height xmin ymin xmax ymax : Z)
    : result (float * float * float * float) :=
  do dw <- int_truediv 1 width;
  do dh <- int_truediv 1 height;
  do cx <- int_truediv (xmin + xmax) 2;
  let x := (cx * dw)%float in
  do cy <- int_truediv (ymin + ymax) 2;
  let y := (cy * dh)%float in
  do bw <- float_of_int (xmax - xmin);
  let w := (bw * dw)%float in
  do bh <- float_of_int (ymax - ymin);
  let h := (bh * dh)%float in
  Ok (x, y, w, h).

(** [0 <= f <= 1] *)
Definition in_unit (f : float) : bool := ((0 <=? f) && (f <=? 1))%float.

(** The number 1 in the reference implementation. *)
Definition spec_one : spec_float := pos_float (2 ^ 52) (- 52).

(** [int(f)] for a [float]: the integer part, the fraction cut off; an
    infinity raises [OverflowError] and a NaN raises [ValueError].  A
    finite non-zero binary64 number is [± m * 2^e] with [m] a positive
    integer. *)
Definition int_of_float (f : float) : result Z :=
  match Prim2SF f with
  | S754_zero _ => Ok 0
  | S754_finite s m e =>
      let magnitude :=
        if (0 <=? e) then Z.shiftl (Z.pos m) e else Z.shiftr (Z.pos m) (- e) in
      Ok (if s then - magnitude else magnitude)
  | S754_infinity _ => Raise OverflowError
  | S754_nan => Raise ValueError
  end.

(** [yolo2bbox]; [w / 2], the difference and the sum are binary64
    operations. *)
Definition yolo2bbox (x y w h : float) : result (Z * Z * Z * Z) :=
  do xmin <- int_of_float (x - w / 2)%float;
  do ymin <- int_of_float (y - h / 2)%float;
  do xmax <- int_of_float (x + w / 2)%float;
  do ymax <- int_of_float (y + h / 2)%float;
  Ok (xmin, ymin, xmax, ymax).

(** A number, as opposed to an infinity or a NaN. *)
Definition is_number (f : float) : bool :=
  match Prim2SF f with
  | S754_zero _ | S754_finite _ _ _ => true
  | S754_infinity _ | S754_nan => false
  end.

(** The exact value of a floating-point number, as a fraction. *)
Definition value (f : float) : Q :=
  match Prim2SF f with
  | S754_finite s m e =>
      let n := if s then Z.neg m else Z.pos m in
      if (0 <=? e) then inject_Z (n * 2 ^ e) else Qmake n (2 ^ Z.to_pos (- e))
  | _ => 0%Q
  end.

(** Truncation toward zero of a fraction. *)
Definition trunc (q : Q) : Z := Z.quot (Qnum q) (Z.pos (Qden q)).

End Geometry.

(** ** Python text primitives *)

Module Py.

Definition newline : ascii := "010"%char.

(** [s.split(sep, 1)]: the text before the first [sep] and, when [sep]
    occurs, the text after it ([None] stands for a one-element list). *)
Fixpoint split_once (sep : ascii) (s : string) : string * option string :=
  match s with
  | EmptyString => (EmptyString, None)
  | String c s' =>
      if decide (c = sep) then (EmptyString, Some s')
      else let '(h, t) := split_once sep s' in (String c h, t)
  end.

(** [f.readlines()] on the text [s]: the lines, each with its newline. *)
Fixpoint readlines (s : string) : list string :=
  match s with
  | EmptyString => []
  | String c s' =>
      if decide (c = newline) then String c EmptyString :: readlines s'
      else match readlines s' with
           | [] => [String c EmptyString]
           | l :: ls => String c l :: ls
           end
  end.

(** [str(n)] for an [int]. *)
Definition str_of_int (n : Z) : string := pretty n.

(** White space as [int()] strips it from an ASCII [str]: the characters
    9 to 13 (tab, newline, vertical tab, form feed, carriage return) and
    the space.  The separators 28 to 31, which [str.isspace] accepts, are
    no white space for [int()] on such a string. *)
Definition is_space (c : ascii) : bool :=
  let n := Ascii.N_of_ascii c in
  ((9 <=? n) && (n <=? 13) || (n =? 32))%N.

Fixpoint lstrip (s : string) : string :=
  match s with
  | EmptyString => EmptyString
  | String c s' => if is_space c then lstrip s' else s
  end.

Definition strip (s : string) : string :=
  String.rev (lstrip (String.rev (lstrip s))).

Definition digit_value (c : ascii) : option Z :=
  Z.of_nat <$> Ascii.is_nat c.

(** Decimal digits, with single underscores allowed between digits. *)
Fixpoint parse_digits (acc : Z) (after_digit : bool) (s : string) : option Z :=
  match s with
  | EmptyString => if after_digit then Some acc else None
  | String c s' =>
      if decide (c = "_"%char)
      then (if after_digit then parse_digits acc false s' else None)
      else match digit_value c with
           | Some d => parse_digits (10 * acc + d) true s'
           | None => None
           end
  end.

(** [int(s)] for an ASCII [str] in base ten: surrounding white space, an
    optional sign, then digits; anything else is a [ValueError].
    Characters outside ASCII (which [int()] first maps to ASCII digits
    and spaces) and the interpreter's limit on the number of digits are
    not modelled. *)
Definition int_of_str (s : string) : result Z :=
  let parsed :=
    match strip s with
    | String "+" d => parse_digits 0 false d
    | String "-" d => Z.opp <$> parse_digits 0 false d
    | d => parse_digits 0 false d
    end in
  match parsed with
  | Some n => Ok n
  | None => Raise ValueError
  end.

Fixpoint string_drop (n : nat) (s : string) : string :=
  match n, s with
  | O, _ => s
  | S n', String _ s' => string_drop n' s'
  | S _, EmptyString => EmptyString
  end.

(** Content of a file opened ["r+"] whose old text was [old], after
    [written] was written from position 0 and the file was closed without
    [truncate()]: the written text, then what the file held beyond the
    written length.  The length is counted in the stored text, which is
    exact for a file whose bytes are its text (line ends written as the
    code itself writes them); in a file with other line ends the old
    bytes beyond the written ones start at another place of the text.
    Of a failed run the theorems therefore state only that the written
    text is followed by a tail of the old text. *)
Definition overwrite (written old : string) : string :=
  written +:+ string_drop (String.length written) old.

End Py.

(** ** Path helpers: [helpers/path_and_files_processing.py] *)

(** [c in s] for a character [c]. *)
Fixpoint occurs (c : ascii) (s : string) : bool :=
  match s with
  | EmptyString => false
  | String d s' => bool_decide (d = c) || occurs c s'
  end.

(** [os.path.split(path)[-1]]: what follows the last slash. *)
Fixpoint path_tail (p : string) : string :=
  match p with
  | EmptyString => EmptyString
  | String c p' =>
      if occurs "/" p' then path_tail p'
      else if decide (c = "/"%char) then p' else p
  end.

Definition get_filename (path : string) : string :=
  (Py.split_once "." (path_tail path)).1.

(** [combine_path]; [if not extension] holds for [None] and for [''] . *)
Definition combine_path (folder filename : string) (extension : option string)
    : string :=
  match extension with
  | None | Some EmptyString => folder +:+ "/" +:+ filename
  | Some ext => folder +:+ "/" +:+ filename +:+ "." +:+ ext
  end.

(** ** The file system *)

(** Regular files by path, with their text.  Text is what a text-mode
    read returns (newlines already translated); directories themselves
    are not entries. *)
Abbreviation filesystem := (gmap string string).

(** The pattern matcher behind [glob.glob]: [glob_match pattern path]
    tells whether an existing path is selected by the pattern.  It is the
    standard library's, and stays a parameter. *)
Class Glob := glob_match : string → string → bool.

Definition glob {G : Glob} (fs : filesystem) (pattern : string) : list string :=
  filter (λ p, glob_match pattern p) (map_to_list fs).*1.

Definition get_files {G : Glob} (fs : filesystem) (folder filename : string)
    : list string :=
  glob fs (combine_path folder filename None).

Definition read_text (fs : filesystem) (path : string) : string :=
  default EmptyString (fs !! path).

(** Commands on the file system that may raise; what was done before an
    exception stays done. *)
Definition io (A : Type) : Type := filesystem → filesystem * result A.

Fixpoint for_each {A} (body : A → io unit) (xs : list A) : io unit :=
  λ fs,
    match xs with
    | [] => (fs, Ok tt)
    | x :: xs' =>
        match body x fs with
        | (fs', Ok _) => for_each body xs' fs'
        | (fs', Raise e) => (fs', Raise e)
        end
    end.

(** [read_and_update]: every matched file is read, each line is given to
    [inner_func] (with [inner_vars] already bound), and what it returns is
    written back unless it is empty; then the file is truncated.  When
    [inner_func] raises, the file is closed with the written text over the
    start of the old one. *)
Fixpoint update_lines (inner_func : string → result string)
    (lines : list string) (written : string) : string * result unit :=
  match lines with
  | [] => (written, Ok tt)
  | line :: lines' =>
      match inner_func line with
      | Raise e => (written, Raise e)
      | Ok EmptyString => update_lines inner_func lines' written
      | Ok out => update_lines inner_func lines' (written +:+ out)
      end
  end.

Definition update_file (inner_func : string → result string) (file : string)
    : io unit :=
  λ fs,
    let old := read_text fs file in
    match update_lines inner_func (Py.readlines old) EmptyString with
    | (written, Ok _) => (<[file := written]> fs, Ok tt)
    | (written, Raise e) => (<[file := Py.overwrite written old]> fs, Raise e)
    end.

Definition read_and_update {G : Glob} (path filename : string)
    (inner_func : string → result string) : io unit :=
  λ fs, for_each (update_file inner_func) (get_files fs path filename) fs.

(** A sample matcher for examples: literal characters, [?] and [*], the
    wildcards not crossing a slash. *)
Fixpoint wildcard_match (pattern : string) : string → bool :=
  match pattern with
  | EmptyString => λ s, bool_decide (s = EmptyString)
  | String "*" pattern' =>
      fix star (s : string) : bool :=
        wildcard_match pattern' s
        || match s with
           | String c s' => negb (bool_decide (c = "/"%char)) && star s'
           | EmptyString => false
           end
  | String "?" pattern' => λ s,
      match s with
      | String c s' => negb (bool_decide (c = "/"%char)) && wildcard_match pattern' s'
      | EmptyString => false
      end
  | String c pattern' => λ s,
      match s with
      | String d s' => bool_decide (c = d) && wildcard_match pattern' s'
      | EmptyString => false
      end
  end.

(** ** The annotation store: [TXTAnnotations] *)

Module TXTAnnotations.

(** One iteration of [for old_class in self.classes_config]; the state is
    the pair of the dictionary [keep] and the counter [shift]. *)
Definition update_step (to_remove : list Z) (st : gmap Z Z * Z)
    (old_class : Z) : gmap Z Z * Z :=
  let '(keep, shift) := st in
  if decide (old_class ∈ to_remove) then (keep, shift + 1)
  else match keep !! old_class with
       | None => (<[old_class := old_class - shift]> keep, shift)
       | Some _ => (keep, shift)
       end.

Definition update_loop (to_remove : list Z) (classes_config : list Z)
    (st : gmap Z Z * Z) : gmap Z Z * Z :=
  foldl (update_step to_remove) st classes_config.

(** [update_classes]: [if not self.classes_config: raise ValueError], then
    the loop from [keep = {}], [shift = 0]; the dictionary is returned. *)
Definition update_classes (classes_config to_remove : list Z)
    : result (gmap Z Z) :=
  match classes_config with
  | [] => Raise ValueError
  | _ :: _ => Ok (update_loop to_remove classes_config (∅, 0)).1
  end.

(** The classes of the config that are not listed for removal. *)
Definition survivors (classes_config to_remove : list Z) : list Z :=
  filter (λ c, c ∉ to_remove) classes_config.

(** [empty_txt]: every matched annotation file is opened ["w"] and
    closed. *)
Definition empty_txt {G : Glob} (txt_path filename : string)
    (fs : filesystem) : filesystem :=
  foldl (λ fs txt, <[txt := EmptyString]> fs) fs (get_files fs txt_path filename).

(** One iteration of the loop of [add_txt]. *)
Definition add_txt_step (txt_path : string) (fs : filesystem) (img : string)
    : filesystem :=
  let txt_file := combine_path txt_path (get_filename img) (Some "txt") in
  if decide (is_Some (fs !! txt_file)) then fs
  else <[txt_file := EmptyString]> fs.

(** [add_txt]: the list of images is read once, then the loop runs. *)
Definition add_txt {G : Glob} (images_path txt_path filename : string)
    (fs : filesystem) : filesystem :=
  foldl (add_txt_step txt_path) fs (get_files fs images_path filename).

(** The body of [for line in new_txt] in [remove_class]: [None] when the
    record is skipped, the text written otherwise. *)
Definition rewrite_record (keep : gmap Z Z) (to_remove : list Z) (line : string)
    : result (option string) :=
  match Py.split_once " " line with
  | (_, None) => Raise ValueError
  | (cur_class, Some line_wo_class) =>
      do cur_class <- Py.int_of_str cur_class;
      if decide (cur_class ∈ to_remove) then Ok None
      else match keep !! cur_class with
           | Some new_class =>
               Ok (Some (Py.str_of_int new_class +:+ " " +:+ line_wo_class))
           | None => Raise KeyError
           end
  end.

(** The loop over the lines: the text written so far, and how the loop
    ended. *)
Fixpoint rewrite_records (keep : gmap Z Z) (to_remove : list Z)
    (lines : list string) (written : string) : string * result unit :=
  match lines with
  | [] => (written, Ok tt)
  | line :: lines' =>
      match rewrite_record keep to_remove line with
      | Raise e => (written, Raise e)
      | Ok None => rewrite_records keep to_remove lines' written
      | Ok (Some out) => rewrite_records keep to_remove lines' (written +:+ out)
      end
  end.

(** The [with open(txt, "r+")] block: on success the file is truncated
    after the written text; when a line raises, the file is closed with
    the written text over the start of the old one. *)
Definition rewrite_file (keep : gmap Z Z) (to_remove : list Z) (txt : string)
    : io unit :=
  λ fs,
    let old := read_text fs txt in
    match rewrite_records keep to_remove (Py.readlines old) EmptyString with
    | (written, Ok _) => (<[txt := written]> fs, Ok tt)
    | (written, Raise e) => (<[txt := Py.overwrite written old]> fs, Raise e)
    end.

Definition remove_class {G : Glob} (classes_config : list Z) (txt_path : string)
    (to_remove : list Z) (filename : string) : io unit :=
  λ fs,
    match update_classes classes_config to_remove with
    | Raise e => (fs, Raise e)
    | Ok keep =>
        for_each (rewrite_file keep to_remove) (get_files fs txt_path filename) fs
    end.

(** The body of [for line in new_txt] in [replace_classes]; the mapping
    is indexed for every record. *)
Definition replace_record (to_replace_with : gmap Z Z) (line : string)
    : result string :=
  match Py.split_once " " line with
  | (_, None) => Raise ValueError
  | (cur_class, Some line_wo_class) =>
      do cur_class <- Py.int_of_str cur_class;
      match to_replace_with !! cur_class with
      | Some new_class =>
          Ok (Py.str_of_int new_class +:+ " " +:+ line_wo_class)
      | None => Raise KeyError
      end
  end.

Fixpoint replace_records (to_replace_with : gmap Z Z)
    (lines : list string) (written : string) : string * result unit :=
  match lines with
  | [] => (written, Ok tt)
  | line :: lines' =>
      match replace_record to_replace_with line with
      | Raise e => (written, Raise e)
      | Ok out => replace_records to_replace_with lines' (written +:+ out)
      end
  end.

Definition replace_file (to_replace_with : gmap Z Z) (txt : string) : io unit :=
  λ fs,
    let old := read_text fs txt in
    match replace_records to_replace_with (Py.readlines old) EmptyString with
    | (written, Ok _) => (<[txt := written]> fs, Ok tt)
    | (written, Raise e) => (<[txt := Py.overwrite written old]> fs, Raise e)
    end.

(** [replace_classes].  The mapping is a dictionary, given by its items
    in insertion order (each key once).  The first component of the result
    is the new value of [self.classes_config], as the sequence a later
    iteration over it yields: the keys of the mapping.  It is assigned
    before any file is touched. *)
Definition replace_classes {G : Glob} (to_replace_with : list (Z * Z))
    (txt_path filename : string) (fs : filesystem)
    : list Z * (filesystem * result unit) :=
  (to_replace_with.*1,
   for_each (replace_file (list_to_map to_replace_with))
     (get_files fs txt_path filename) fs).

End TXTAnnotations.

(** The remap is gap-free from 0 for [N] surviving classes: its image is
    exactly [{0, ..., N-1}]. *)
Definition gap_free (keep : gmap Z Z) (N : nat) : Prop :=
  ∀ v, (∃ c, keep !! c = Some v) ↔ 0 ≤ v < Z.of_nat N.

(** The number of distinct surviving classes. *)
Definition surviving_count (classes_config to_remove : list Z) : nat :=
  size (list_to_set (TXTAnnotations.survivors classes_config to_remove) : gset Z).

(** [a] stands before [b] in the config. *)
Definition appears_before (classes_config : list Z) (a b : Z) : Prop :=
  ∃ i j : nat, (i < j)%nat ∧ classes_config !! i = Some a ∧ classes_config !! j = Some b.

(** Invariant of the [update_classes] loop on the config [0, 1, ...] once
    the classes [0 .. s-1] have been visited. *)
Definition compact_inv (to_remove : list Z) (s : Z) (st : gmap Z Z * Z) : Prop :=
  (∀ c, c ∈ dom st.1 ↔ c ∈ TXTAnnotations.survivors (seqZ 0 s) to_remove)
  ∧ (∀ v, (∃ c, st.1 !! c = Some v) ↔ 0 ≤ v < s - st.2)
  ∧ Z.of_nat (size st.1) = s - st.2.

(** Invariant of the loop on a sorted config: every entry recorded so far
    has a key at most [last] and a value at most [last - shift]. *)
Definition below (last : Z) (st : gmap Z Z * Z) : Prop :=
  ∀ c v, st.1 !! c = Some v → c ≤ last ∧ v ≤ last - st.2.

(** The annotation file that belongs to an image. *)
Definition txt_of (txt_path img : string) : string :=
  combine_path txt_path (get_filename img) (Some "txt").

(** *** Records of an annotation file *)

(** The class id of a record line: the token before the first space, read
    as an integer; [None] when the line has no space or the token is no
    integer. *)
Definition record_class (line : string) : option Z :=
  match Py.split_once " " line with
  | (token, Some _) =>
      match Py.int_of_str token with
      | Ok c => Some c
      | Raise _ => None
      end
  | (_, None) => None
  end.

(** A record is covered when its class is listed for removal or has an
    entry in the remap. *)
Definition covered (keep : gmap Z Z) (to_remove : list Z) (line : string) : Prop :=
  match record_class line with
  | Some c => c ∈ to_remove ∨ is_Some (keep !! c)
  | None => True
  end.

(** What becomes of one record: dropped when its class is removed,
    otherwise the remapped class id, a space, and the rest of the line. *)
Definition remap_record (keep : gmap Z Z) (to_remove : list Z) (line : string)
    : option string :=
  c ← record_class line;
  if decide (c ∈ to_remove) then None
  else
    new_class ← keep !! c;
    Some (Py.str_of_int new_class +:+ " "
          +:+ default EmptyString (Py.split_once " " line).2).

Definition join (lines : list string) : string :=
  foldr String.app EmptyString lines.

(** The text of an annotation file after class removal. *)
Definition remap_text (keep : gmap Z Z) (to_remove : list Z) (text : string)
    : string :=
  join (omap (remap_record keep to_remove) (Py.readlines text)).

(** [P] holds of every line of every listed file. *)
Definition all_records (fs : filesystem) (files : list string)
    (P : string → Prop) : Prop :=
  Forall (λ f, Forall P (Py.readlines (read_text fs f))) files.

(** ** The analyzer: [dl/annotate/analyse.py] *)

Module Analyse.

(** Keys of the tally: the [classes] argument brings [int] keys (or
    [str] keys), the tokens read from the files are [str].  In Python an
    [int] never equals a [str]. *)
Inductive pykey : Type :=
  | PyInt (n : Z)
  | PyStr (s : string).

#[export] Instance pykey_eq_dec : EqDecision pykey.
Proof. solve_decision. Defined.

#[export] Instance pykey_countable : Countable pykey :=
  inj_countable'
    (λ k, match k with PyInt n => inl n | PyStr s => inr s end)
    (λ x, match x with inl n => PyInt n | inr s => PyStr s end)
    (λ k, match k with PyInt _ => eq_refl | PyStr _ => eq_refl end).

(** [cnt = {cl: 0 for cl in classes}] *)
Definition init_tally (classes : list pykey) : gmap pykey Z :=
  foldl (λ cnt cl, <[cl := 0]> cnt) ∅ classes.

(** The body of the [while] loop for the token [clss]. *)
Definition count_token (cnt : gmap pykey Z) (clss : string) : gmap pykey Z :=
  let cnt :=
    match cnt !! PyStr clss with
    | None => <[PyStr clss := -1]> cnt
    | Some _ => cnt
    end in
  <[PyStr clss := default 0 (cnt !! PyStr clss) + 1]> cnt.

(** [while clss := txt.readline().split(' ', 1)[0]]: the loop over the
    lines still to be read; it ends at the end of the file or at the first
    line whose leading token is empty. *)
Fixpoint count_lines (lines : list string) (cnt : gmap pykey Z) : gmap pykey Z :=
  match lines with
  | [] => cnt
  | line :: lines' =>
      match (Py.split_once " " line).1 with
      | EmptyString => cnt
      | clss => count_lines lines' (count_token cnt clss)
      end
  end.

Definition count_file (fs : filesystem) (cnt : gmap pykey Z) (txt_file : string)
    : gmap pykey Z :=
  count_lines (Py.readlines (read_text fs txt_file)) cnt.

(** [a < b] on keys: defined within [int] and within [str] only. *)
Definition py_lt (a b : pykey) : result bool :=
  match a, b with
  | PyInt x, PyInt y => Ok (x <? y)
  | PyStr s, PyStr t => Ok (String.ltb s t)
  | _, _ => Raise TypeError
  end.

(** [sorted(cnt.items())].  The items of a dictionary have pairwise
    different keys, so the order of two items is the order of their keys;
    a comparison of an [int] key with a [str] key raises [TypeError].
    The sort is modelled by insertion. *)
Fixpoint insert_sorted (x : pykey * Z) (l : list (pykey * Z))
    : result (list (pykey * Z)) :=
  match l with
  | [] => Ok [x]
  | y :: l' =>
      do before <- py_lt x.1 y.1;
      if before then Ok (x :: y :: l')
      else do rest <- insert_sorted x l'; Ok (y :: rest)
  end.

Fixpoint sorted (items : list (pykey * Z)) : result (list (pykey * Z)) :=
  match items with
  | [] => Ok []
  | x :: items' => do rest <- sorted items'; insert_sorted x rest
  end.

(** The tally of [counter] before it is sorted. *)
Definition tally {G : Glob} (path filename : string) (classes : list pykey)
    (fs : filesystem) : gmap pykey Z :=
  foldl (count_file fs) (init_tally classes)
    (glob fs (path +:+ "/" +:+ filename +:+ ".txt")).

Definition counter {G : Glob} (path filename : string) (classes : list pykey)
    (fs : filesystem) : result (list (pykey * Z)) :=
  sorted (map_to_list (tally path filename classes fs)).

End Analyse.

(** ** The importer: [JSON2TXT] *)

Module JSON2TXT.

(** What [json2txt] takes from outside this repository and what is not
    modelled further: the JSON parser [json.load] ([None] when the text is
    no JSON document), and [write_objects], the rest of the [with] block
    after parsing (reading [size] and [objects], converting and formatting
    each box), given as the text it writes to the output file and the way
    it ends. *)
Class Json := {
  json_value : Type;
  json_load : string → option json_value;
  write_objects : json_value → string * result unit;
}.

(** The text of a JSON file as [json.load] reads it: the output file has
    already been opened ["w+"], hence emptied, at that point. *)
Definition json_text (txt_path json_file : string) (fs : filesystem) : string :=
  read_text (<[txt_of txt_path json_file := EmptyString]> fs) json_file.

(** The body of [for json_file in glob(...)]. *)
Definition json2txt_file {J : Json} (txt_path json_file : string) : io unit :=
  λ fs,
    let txt_file := combine_path txt_path (get_filename json_file) (Some "txt") in
    let fs := <[txt_file := EmptyString]> fs in
    match json_load (read_text fs json_file) with
    | None => (fs, Raise JSONDecodeError)
    | Some data =>
        let '(text, outcome) := write_objects data in
        (<[txt_file := text]> fs, outcome)
    end.

Definition json2txt {G : Glob} {J : Json} (json_path txt_path filename : string)
    : io unit :=
  λ fs,
    for_each (json2txt_file txt_path) (glob fs (json_path +:+ "/" +:+ filename)) fs.

End JSON2TXT.

(** ** Sample inputs *)

(** The sample matcher as the [glob] matcher. *)
Definition sample_glob : Glob := wildcard_match.

Definition nl : string := String Py.newline EmptyString.

(** One annotation file with a record of each of the classes 0, 1, 2. *)
Definition three_classes : filesystem :=
  {[ "labels/a.txt" :=
       "0 0.1 0.2 0.3 0.4" +:+ nl +:+ "1 0.5 0.5 0.5 0.5" +:+ nl
       +:+ "2 0.9 0.9 0.1 0.1" +:+ nl ]}.

(** One annotation file whose only record has class 3. *)
Definition stray_class : filesystem :=
  {[ "labels/a.txt" := "3 0.5 0.5 0.1 0.1" +:+ nl ]}.

(** A stand-in parser for examples: a document is accepted when it is the
    empty object, and nothing is written for it. *)
Definition sample_json : JSON2TXT.Json := {|
  JSON2TXT.json_value := unit;
  JSON2TXT.json_load := λ text, if decide (text = "{}") then Some tt else None;
  JSON2TXT.write_objects := λ _, (EmptyString, Ok tt);
|}.

(** A JSON file that is no JSON document, beside an annotation file of
    the same name that has a record. *)
Definition broken_json : filesystem :=
  {[ "json/a.json" := "{oops";
     "labels/a.txt" := "0 0.5 0.5 0.1 0.1" +:+ nl ]}.

(** The directory of the counting scenario: [a.txt] with a record of
    class 0 and one of class 1, [b.txt] with a record of class 0. *)
Definition two_files : filesystem :=
  {[ "data/a.txt" := "0 .. " +:+ nl +:+ "1 .." +:+ nl;
     "data/b.txt" := "0 .." +:+ nl ]}.

(** A single file with a single record of class 7. *)
Definition one_record : filesystem :=
  {[ "data/a.txt" := "7 0.5 0.5 0.1 0.1" +:+ nl ]}.

(** ** Shapes of texts and records *)

(** A line that ends with its newline and has no other one. *)
Definition complete (l : string) : Prop :=
  ∃ body, occurs Py.newline body = false ∧ l = body +:+ nl.

(** A non-empty text without newline: the last line of a file that does
    not end with a newline. *)
Definition partial (l : string) : Prop :=
  occurs Py.newline l = false ∧ l ≠ EmptyString.

(** The shape of a list of lines as [readlines] yields it. *)
Fixpoint lines_shaped (ls : list string) : Prop :=
  match ls with
  | [] => True
  | l :: ls' => (complete l ∧ lines_shaped ls') ∨ (partial l ∧ ls' = [])
  end.

(** The class ids of the records of a text, in order. *)
Definition classes_of (text : string) : list Z :=
  omap record_class (Py.readlines text).

#[export] Instance covered_dec (keep : gmap Z Z) (to_remove : list Z)
    (line : string) : Decision (covered keep to_remove line).
Proof. unfold covered. destruct (record_class line); apply _. Defined.

(** *** Tokens that [counter] counts *)

(** The leading tokens of the lines of one file that the [while] loop of
    [counter] visits: it stops at the first line whose token is empty. *)
Fixpoint counted_tokens (lines : list string) : list string :=
  match lines with
  | [] => []
  | line :: lines' =>
      match (Py.split_once " " line).1 with
      | EmptyString => []
      | clss => clss :: counted_tokens lines'
      end
  end.

(** All counted tokens of the matched files, in the order of the run. *)
Definition tokens {G : Glob} (path filename : string) (fs : filesystem)
    : list string :=
  f ← glob fs (path +:+ "/" +:+ filename +:+ ".txt");
  counted_tokens (Py.readlines (read_text fs f)).

(** How often the token [s] was counted. *)
Definition occurrences (s : string) (tokens : list string) : Z :=
  Z.of_nat (length (filter (λ t, t = s) tokens)).

Definition is_int (k : Analyse.pykey) : bool :=
  match k with
  | Analyse.PyInt _ => true
  | Analyse.PyStr _ => false
  end.

(** The order of two items of the result: the first key is smaller, by
    the comparison that [sorted] uses. *)
Definition item_lt (a b : Analyse.pykey * Z) : Prop :=
  Analyse.py_lt a.1 b.1 = Ok true.

(** *** More sample inputs *)

(** A stand-in parser that accepts every non-empty text and writes the
    document itself as the annotation. *)
Definition copy_json : JSON2TXT.Json := {|
  JSON2TXT.json_value := string;
  JSON2TXT.json_load := λ text, if decide (text = EmptyString) then None else Some text;
  JSON2TXT.write_objects := λ data, (data, Ok tt);
|}.

(** Two JSON files whose names agree up to the first dot. *)
Definition shared_name : filesystem :=
  {[ "json/a.json" := "{1}"; "json/a.v2.json" := "{2}" ]}.


(** * Properties *)

(** ** The class remap *)

Section update_classes_facts.
Context (to_remove : list Z).
Implicit Types (keep : gmap Z Z) (shift : Z) (config : list Z).

Local Abbreviation step := (TXTAnnotations.update_step to_remove).
Local Abbreviation loop := (TXTAnnotations.update_loop to_remove).

Lemma update_loop_cons c config st :
  loop (c :: config) st = loop config (step st c).
Proof. reflexivity. Qed.

Lemma update_loop_app config1 config2 st :
  loop (config1 ++ config2) st = loop config2 (loop config1 st).
Proof. apply foldl_app. Qed.

Lemma update_step_removed keep shift c :
  c ∈ to_remove → step (keep, shift) c = (keep, shift + 1).
Proof. intros Hc. unfold TXTAnnotations.update_step. by rewrite decide_True. Qed.

Lemma update_step_fresh keep shift c :
  c ∉ to_remove → keep !! c = None →
  step (keep, shift) c = (<[c := c - shift]> keep, shift).
Proof.
  intros Hc Hk. unfold TXTAnnotations.update_step.
  rewrite decide_False by done. by rewrite Hk.
Qed.

Lemma update_step_seen keep shift c v :
  c ∉ to_remove → keep !! c = Some v → step (keep, shift) c = (keep, shift).
Proof.
  intros Hc Hk. unfold TXTAnnotations.update_step.
  rewrite decide_False by done. by rewrite Hk.
Qed.
End update_classes_facts.

(** *** Gap-freedom on the config [0, 1, ..., n-1] *)

Section gap_free_loop.
Context (to_remove : list Z).

Local Abbreviation step := (TXTAnnotations.update_step to_remove).
Local Abbreviation loop := (TXTAnnotations.update_loop to_remove).
Local Abbreviation alive := (λ l, TXTAnnotations.survivors l to_remove).

Local Abbreviation compact_inv := (compact_inv to_remove).

Lemma survivors_snoc l c :
  alive (l ++ [c]) = alive l ++ (if decide (c ∈ to_remove) then [] else [c]).
Proof.
  unfold TXTAnnotations.survivors. rewrite filter_app. f_equal.
  destruct (decide (c ∈ to_remove)).
  - rewrite filter_cons_False; [done|]. by intros ?.
  - by rewrite filter_cons_True.
Qed.

Lemma elem_of_survivors l c : c ∈ alive l ↔ c ∈ l ∧ c ∉ to_remove.
Proof. unfold TXTAnnotations.survivors. rewrite list_elem_of_filter. tauto. Qed.

Lemma compact_inv_init : compact_inv 0 (∅, 0).
Proof.
  split_and!; simpl.
  - intros c. rewrite dom_empty_L, elem_of_survivors, elem_of_seqZ.
    rewrite elem_of_empty. lia.
  - intros v. split; [intros [c Hc]; by rewrite lookup_empty in Hc | lia].
  - by rewrite map_size_empty.
Qed.

Lemma compact_inv_step s st :
  0 ≤ s → compact_inv s st → compact_inv (s + 1) (step st s).
Proof.
  destruct st as [keep shift]. intros Hs (Hdom & Himg & Hsz).
  cbn [fst snd] in Hdom, Himg, Hsz.
  assert (Hseq : seqZ 0 (s + 1) = seqZ 0 s ++ [s]).
  { rewrite seqZ_app by lia. f_equal. }
  assert (Hfresh : keep !! s = None).
  { apply not_elem_of_dom. rewrite Hdom, elem_of_survivors, elem_of_seqZ. lia. }
  destruct (decide (s ∈ to_remove)) as [Hrm|Hrm].
  - rewrite update_step_removed by done. split_and!; cbn [fst snd].
    + intros c. rewrite Hdom, Hseq, survivors_snoc, decide_True by done.
      by rewrite app_nil_r.
    + intros v. rewrite Himg. lia.
    + lia.
  - rewrite update_step_fresh by done. split_and!; cbn [fst snd].
    + intros c. rewrite dom_insert, Hseq, survivors_snoc, decide_False by done.
      rewrite elem_of_union, elem_of_app, Hdom.
      rewrite elem_of_singleton, list_elem_of_singleton. tauto.
    + intros v. split.
      * intros [c Hc]. destruct (decide (c = s)) as [->|Hne].
        -- rewrite lookup_insert_eq in Hc. injection Hc as <-.
           assert (0 ≤ Z.of_nat (size keep)) by lia. lia.
        -- rewrite lookup_insert_ne in Hc by done.
           assert (0 ≤ v < s - shift) by (apply Himg; eauto). lia.
      * intros Hv. destruct (decide (v = s - shift)) as [->|Hne].
        -- exists s. by rewrite lookup_insert_eq.
        -- destruct (proj2 (Himg v)) as [c Hc]; [lia|].
           exists c. rewrite lookup_insert_ne; [done|congruence].
    + rewrite map_size_insert_None by done. lia.
Qed.

Lemma compact_inv_loop (n : nat) s st :
  0 ≤ s → compact_inv s st →
  compact_inv (s + Z.of_nat n) (loop (seqZ s (Z.of_nat n)) st).
Proof.
  revert s st. induction n as [|n IH]; intros s st Hs Hinv.
  - rewrite seqZ_nil by lia. simpl. by rewrite Z.add_0_r.
  - rewrite seqZ_cons by lia. rewrite update_loop_cons.
    replace (Z.pred (Z.of_nat (S n))) with (Z.of_nat n) by lia.
    replace (s + Z.of_nat (S n)) with (Z.succ s + Z.of_nat n) by lia.
    apply IH; [lia|]. replace (Z.succ s) with (s + 1) by lia.
    by apply compact_inv_step.
Qed.

End gap_free_loop.

Lemma size_survivors_seqZ to_remove (n : Z) (keep : gmap Z Z) :
  (∀ c, c ∈ dom keep ↔ c ∈ TXTAnnotations.survivors (seqZ 0 n) to_remove) →
  surviving_count (seqZ 0 n) to_remove = size keep.
Proof.
  intros Hdom. unfold surviving_count. rewrite <-size_dom. f_equal.
  apply set_eq. intros c. by rewrite elem_of_list_to_set, Hdom.
Qed.

(** C1 (amended). When the Class Config is the sequence [0, 1, ..., n-1]
    with [n > 0], then for every [to_remove] the call [update_classes]
    returns a remap that is defined exactly on the surviving classes and
    whose image is exactly [{0, ..., N-1}], where [N] is the number of
    surviving classes. *)
Theorem update_classes_gap_free (n : Z) (to_remove : list Z) :
  0 < n →
  ∃ keep : gmap Z Z,
    TXTAnnotations.update_classes (seqZ 0 n) to_remove = Ok keep
    ∧ (∀ c, is_Some (keep !! c) ↔ 0 ≤ c < n ∧ c ∉ to_remove)
    ∧ gap_free keep (surviving_count (seqZ 0 n) to_remove).
Proof.
  intros Hn.
  pose proof (compact_inv_loop to_remove (Z.to_nat n) 0 (∅, 0) (Z.le_refl 0)
                (compact_inv_init to_remove)) as Hinv.
  rewrite Z2Nat.id, Z.add_0_l in Hinv by lia.
  destruct Hinv as (Hdom & Himg & Hsz).
  exists (TXTAnnotations.update_loop to_remove (seqZ 0 n) (∅, 0)).1.
  split_and!.
  - unfold TXTAnnotations.update_classes.
    rewrite (seqZ_cons 0 n) by done. by rewrite <-(seqZ_cons 0 n) by done.
  - intros c. rewrite <-elem_of_dom, Hdom, elem_of_survivors, elem_of_seqZ.
    by rewrite Z.add_0_l.
  - intros v. rewrite (size_survivors_seqZ _ _ _ Hdom), Himg. lia.
Qed.

(** The amended C1 at the config [0, 1, 2, 3], removing classes 1 and 2. *)
Lemma update_classes_gap_free_witness :
  0 < 4 ∧
  ∃ keep : gmap Z Z,
    TXTAnnotations.update_classes (seqZ 0 4) [1; 2] = Ok keep
    ∧ (∀ c, is_Some (keep !! c) ↔ 0 ≤ c < 4 ∧ c ∉ [1; 2])
    ∧ gap_free keep (surviving_count (seqZ 0 4) [1; 2]).
Proof. split; [lia | apply (update_classes_gap_free 4 [1; 2]); lia]. Defined.

(** C1 as stated fails: with the Class Config [(5, 7)] and nothing removed
    both classes survive, but the remap is the identity on them, so its
    image [{5, 7}] is not [{0, 1}]. *)
Lemma update_classes_gap_free_counterexample :
  [5; 7] ≠ [] ∧ [] ⊆ [5; 7] ∧
  TXTAnnotations.update_classes [5; 7] [] = Ok {[ 5 := 5; 7 := 7 ]}
  ∧ surviving_count [5; 7] [] = 2%nat
  ∧ ¬ gap_free {[ 5 := 5; 7 := 7 ]} 2.
Proof.
  split_and!; [done | apply list_subseteq_nil | by vm_compute | by vm_compute |].
  intros Hgap. destruct (proj1 (Hgap 5)) as [_ Hlt]; [|lia].
  exists 5. by vm_compute.
Qed.

(** *** Order preservation on a strictly increasing config *)

Section order_loop.
Context (to_remove : list Z).

Local Abbreviation step := (TXTAnnotations.update_step to_remove).
Local Abbreviation loop := (TXTAnnotations.update_loop to_remove).


Lemma below_step last c st :
  last < c → below last st → below c (step st c).
Proof.
  destruct st as [keep shift]. intros Hlt Hb.
  assert (Hfresh : keep !! c = None).
  { destruct (keep !! c) as [v|] eqn:Hc; [|done].
    destruct (Hb c v Hc). lia. }
  destruct (decide (c ∈ to_remove)) as [Hrm|Hrm].
  - rewrite update_step_removed by done. intros c0 v0 H0.
    destruct (Hb c0 v0 H0). cbn [fst snd] in *. lia.
  - rewrite update_step_fresh by done. intros c0 v0 H0. cbn [fst snd] in *.
    destruct (decide (c0 = c)) as [->|Hne].
    + rewrite lookup_insert_eq in H0. injection H0 as <-. lia.
    + rewrite lookup_insert_ne in H0 by done. destruct (Hb c0 v0 H0).
      cbn [fst snd] in *. lia.
Qed.

Lemma step_keeps last c st c0 v0 :
  last < c → below last st →
  st.1 !! c0 = Some v0 → (step st c).1 !! c0 = Some v0.
Proof.
  destruct st as [keep shift]. intros Hlt Hb H0. cbn [fst] in H0.
  destruct (Hb c0 v0 H0) as [Hc0 _].
  destruct (decide (c ∈ to_remove)) as [Hrm|Hrm].
  - by rewrite update_step_removed.
  - destruct (keep !! c) as [v|] eqn:Hc.
    + by rewrite (update_step_seen _ _ _ _ v).
    + rewrite update_step_fresh by done. cbn [fst].
      rewrite lookup_insert_ne; [done|lia].
Qed.

Lemma step_records last c st :
  last < c → below last st → c ∉ to_remove →
  (step st c).1 !! c = Some (c - st.2)
  ∧ ∀ c0 v0, st.1 !! c0 = Some v0 → v0 < c - st.2.
Proof.
  destruct st as [keep shift]. intros Hlt Hb Hrm. cbn [fst snd].
  assert (Hfresh : keep !! c = None).
  { destruct (keep !! c) as [v|] eqn:Hc; [|done].
    destruct (Hb c v Hc). lia. }
  rewrite update_step_fresh by done. cbn [fst]. split.
  - by rewrite lookup_insert_eq.
  - intros c0 v0 H0. destruct (Hb c0 v0 H0). cbn [fst snd] in *. lia.
Qed.

(** The loop over a strictly increasing tail whose entries all exceed
    [last]: earlier entries are kept, every surviving class gets a value
    above all earlier ones, and values grow along the tail. *)
Lemma update_loop_sorted config : ∀ last st,
  StronglySorted Z.lt config → Forall (λ c, last < c) config → below last st →
  (∀ c0 v0, st.1 !! c0 = Some v0 → (loop config st).1 !! c0 = Some v0)
  ∧ (∀ b, b ∈ config → b ∉ to_remove →
       ∃ vb, (loop config st).1 !! b = Some vb
             ∧ ∀ c0 v0, st.1 !! c0 = Some v0 → v0 < vb)
  ∧ (∀ a b, appears_before config a b → a ∉ to_remove → b ∉ to_remove →
       ∃ va vb, (loop config st).1 !! a = Some va
                ∧ (loop config st).1 !! b = Some vb ∧ va < vb).
Proof.
  induction config as [|c config IH]; intros last st Hsorted Hall Hb.
  - split_and!.
    + intros c0 v0 H0. exact H0.
    + intros b Hin. by apply elem_of_nil in Hin.
    + intros a b (i & j & _ & Hi & _). by rewrite lookup_nil in Hi.
  - apply StronglySorted_inv in Hsorted as [Hsorted Hc].
    apply Forall_cons in Hall as [Hlast Hall].
    rewrite update_loop_cons.
    destruct (IH c (step st c) Hsorted Hc (below_step _ _ _ Hlast Hb))
      as (Hkeep & Hnew & Hord).
    split_and!.
    + intros c0 v0 H0. apply Hkeep. by apply (step_keeps last).
    + intros b Hin Hrm. apply elem_of_cons in Hin as [->|Hin].
      * destruct (step_records last c st Hlast Hb Hrm) as [Hc1 Hc2].
        exists (c - st.2). split; [by apply Hkeep|done].
      * destruct (Hnew b Hin Hrm) as (vb & Hvb & Hgt).
        exists vb. split; [done|]. intros c0 v0 H0.
        apply (Hgt c0). by apply (step_keeps last).
    + intros a b (i & j & Hij & Hi & Hj) Ha Hrb.
      destruct j as [|j]; [lia|]. cbn in Hj.
      destruct i as [|i]; cbn in Hi.
      * injection Hi as ->.
        destruct (step_records last a st Hlast Hb Ha) as [Ha1 _].
        destruct (Hnew b (list_elem_of_lookup_2 _ _ _ Hj) Hrb) as (vb & Hvb & Hgt).
        exists (a - st.2), vb. split_and!; [by apply Hkeep|done|by apply (Hgt a)].
      * apply Hord; [|done|done]. exists i, j. split_and!; [lia|done|done].
Qed.

End order_loop.

(** C2 (amended). When the Class Config is non-empty and strictly
    increasing (sorted, without duplicates), then for every [to_remove]
    and all classes [a], [b] that both survive with [a] before [b] in the
    config, [update_classes] returns a remap with [remap[a] < remap[b]]. *)
Theorem update_classes_order_preserving (classes_config to_remove : list Z) (a b : Z) :
  classes_config ≠ [] →
  StronglySorted Z.lt classes_config →
  appears_before classes_config a b →
  a ∉ to_remove → b ∉ to_remove →
  ∃ (keep : gmap Z Z) (va vb : Z),
    TXTAnnotations.update_classes classes_config to_remove = Ok keep
    ∧ keep !! a = Some va ∧ keep !! b = Some vb ∧ va < vb.
Proof.
  intros Hne Hsorted Hab Ha Hb.
  destruct classes_config as [|c0 config]; [done|].
  destruct (update_loop_sorted to_remove (c0 :: config) (c0 - 1) (∅, 0))
    as (_ & _ & Hord); [done| |by intros c v ?|].
  { apply StronglySorted_inv in Hsorted as [_ Hc0].
    apply Forall_cons. split; [lia|].
    eapply Forall_impl; [exact Hc0|]. intros x ?. cbn beta in *. lia. }
  destruct (Hord a b Hab Ha Hb) as (va & vb & Hva & Hvb & Hlt).
  by exists (TXTAnnotations.update_loop to_remove (c0 :: config) (∅, 0)).1, va, vb.
Qed.

(** The amended C2 at the config [0, 1, 2, 3] with class 1 removed, for
    the survivors 0 and 3. *)
Lemma update_classes_order_preserving_witness :
  ∃ (keep : gmap Z Z) (va vb : Z),
    TXTAnnotations.update_classes [0; 1; 2; 3] [1] = Ok keep
    ∧ keep !! 0 = Some va ∧ keep !! 3 = Some vb ∧ va < vb.
Proof.
  apply (update_classes_order_preserving [0; 1; 2; 3] [1] 0 3).
  - done.
  - repeat constructor; lia.
  - exists 0%nat, 3%nat. split_and!; [lia|reflexivity|reflexivity].
  - apply (bool_decide_unpack _). by vm_compute.
  - apply (bool_decide_unpack _). by vm_compute.
Defined.

(** C2 as stated fails: in the Class Config [(5, 3)] with nothing removed,
    class 5 stands before class 3 and both survive, yet the remap sends
    5 to 5 and 3 to 3. *)
Lemma update_classes_order_counterexample :
  [5; 3] ≠ [] ∧ appears_before [5; 3] 5 3 ∧ (5 ∉ @nil Z) ∧ (3 ∉ @nil Z)
  ∧ ∃ keep : gmap Z Z,
      TXTAnnotations.update_classes [5; 3] [] = Ok keep
      ∧ keep !! 5 = Some 5 ∧ keep !! 3 = Some 3 ∧ ¬ (5 < 3).
Proof.
  split_and!; [done| |by intros ?%elem_of_nil|by intros ?%elem_of_nil|].
  - exists 0%nat, 1%nat. split_and!; [lia|reflexivity|reflexivity].
  - exists {[ 5 := 5; 3 := 3 ]}. split_and!; [..|lia]; by vm_compute.
Qed.

(** ** The geometry codec: [yolo2bbox] *)

Section geometry_facts.
Import Geometry.

(** [trunc] cuts the fraction off toward zero. *)
Lemma trunc_toward_zero (q : Q) :
  ((0 <= q)%Q → (inject_Z (trunc q) <= q)%Q ∧ (q < inject_Z (trunc q + 1))%Q)
  ∧ ((q <= 0)%Q → (q <= inject_Z (trunc q))%Q ∧ (inject_Z (trunc q - 1) < q)%Q).
Proof.
  destruct q as [n d]. unfold trunc, Qle, Qlt. cbn.
  assert (Hd : 0 < Z.pos d) by lia. split; intros Hn.
  - assert (0 ≤ n) by lia. rewrite Z.quot_div_nonneg by lia.
    pose proof (Z.mul_div_le n (Z.pos d) Hd).
    pose proof (Z.mul_succ_div_gt n (Z.pos d) Hd).
    set (k := n `div` Z.pos d) in *. clearbody k.
    set (D := Z.pos d) in *. clearbody D. lia.
  - assert (Hneg : 0 ≤ - n) by lia.
    assert (Hquot : n `quot` Z.pos d = - ((- n) `div` Z.pos d)).
    { rewrite <-Z.quot_div_nonneg, Z.quot_opp_l by lia.
      by rewrite Z.opp_involutive. }
    rewrite Hquot.
    pose proof (Z.mul_div_le (- n) (Z.pos d) Hd).
    pose proof (Z.mul_succ_div_gt (- n) (Z.pos d) Hd).
    set (k := (- n) `div` Z.pos d) in *. clearbody k.
    set (D := Z.pos d) in *. clearbody D. lia.
Qed.

(** On a number, [int()] is the truncation toward zero of its exact
    value. *)
Lemma int_of_float_trunc (f : float) :
  is_number f = true → int_of_float f = Ok (trunc (value f)).
Proof.
  unfold is_number, int_of_float, value, trunc.
  destruct (Prim2SF f) as [s|s| |s m e]; try done; intros _.
  destruct (Z.leb_spec 0 e) as [He|He].
  - cbn [Qnum Qden inject_Z]. rewrite Z.quot_1_r, Z.shiftl_mul_pow2 by done.
    destruct s; [|done]. f_equal. lia.
  - cbn [Qnum Qden].
    assert (Hpow : Z.pos (2 ^ Z.to_pos (- e)) = 2 ^ (- e)).
    { rewrite Pos2Z.inj_pow, Z2Pos.id by lia. done. }
    rewrite Hpow, Z.shiftr_div_pow2 by lia.
    assert (0 < 2 ^ (- e)) by (apply Z.pow_pos_nonneg; lia).
    destruct s.
    + change (Z.neg m) with (- Z.pos m).
      rewrite Z.quot_opp_l by lia. by rewrite Z.quot_div_nonneg by lia.
    + by rewrite Z.quot_div_nonneg by lia.
Qed.

End geometry_facts.

(** C7 (amended). Whenever the four intermediate results [x - w/2],
    [y - h/2], [x + w/2], [y + h/2] are numbers (neither an infinity nor
    a NaN), [yolo2bbox x y w h] returns exactly their truncations toward
    zero, in this order; nothing is scaled by an image width or height. *)
Theorem yolo2bbox_truncates (x y w h : float) :
  Geometry.is_number (x - w / 2)%float = true →
  Geometry.is_number (y - h / 2)%float = true →
  Geometry.is_number (x + w / 2)%float = true →
  Geometry.is_number (y + h / 2)%float = true →
  Geometry.yolo2bbox x y w h
  = Ok (Geometry.trunc (Geometry.value (x - w / 2)%float),
        Geometry.trunc (Geometry.value (y - h / 2)%float),
        Geometry.trunc (Geometry.value (x + w / 2)%float),
        Geometry.trunc (Geometry.value (y + h / 2)%float)).
Proof.
  intros Hxmin Hymin Hxmax Hymax. unfold Geometry.yolo2bbox.
  rewrite !int_of_float_trunc by done. reflexivity.
Qed.

(** The amended C7 at the centre [(-2.75, 7.5)] with the size [(1, 3)]. *)
Lemma yolo2bbox_truncates_witness :
  Geometry.yolo2bbox (-2.75) 7.5 1 3
  = Ok (Geometry.trunc (Geometry.value (-2.75 - 1 / 2)%float),
        Geometry.trunc (Geometry.value (7.5 - 3 / 2)%float),
        Geometry.trunc (Geometry.value (-2.75 + 1 / 2)%float),
        Geometry.trunc (Geometry.value (7.5 + 3 / 2)%float)).
Proof. apply (yolo2bbox_truncates (-2.75) 7.5 1 3); by vm_compute. Defined.

(** The same call, evaluated: -3.25 becomes -3 and -2.25 becomes -2. *)
Example yolo2bbox_negative :
  Geometry.yolo2bbox (-2.75) 7.5 1 3 = Ok (-3, 6, -2, 9).
Proof. by vm_compute. Qed.

(** Normalized coordinates are not scaled back: a box around the centre
    of the image collapses to the origin. *)
Example yolo2bbox_normalized :
  Geometry.yolo2bbox 0.5 0.5 0.25 0.25 = Ok (0, 0, 0, 0).
Proof. by vm_compute. Qed.

(** C7 as stated fails: not for every [x], [y], [w], [h] does
    [yolo2bbox] return.  For the largest binary64 number as [x] and its
    negative as [w], both numbers, [x - w/2] overflows to an infinity and
    [int()] raises [OverflowError]; for a NaN as [x] it raises
    [ValueError]. *)
Lemma yolo2bbox_truncates_counterexample :
  Geometry.is_number 0x1.fffffffffffffp+1023 = true
  ∧ Geometry.is_number (- 0x1.fffffffffffffp+1023) = true
  ∧ Geometry.is_number 0 = true
  ∧ Geometry.yolo2bbox 0x1.fffffffffffffp+1023 0 (- 0x1.fffffffffffffp+1023) 0
    = Raise OverflowError
  ∧ Geometry.yolo2bbox nan 0 0 0 = Raise ValueError.
Proof. split_and!; by vm_compute. Qed.

Example yolo2bbox_infinity :
  Geometry.yolo2bbox infinity 0 0 0 = Raise OverflowError.
Proof. by vm_compute. Qed.

(** ** The geometry codec: [bbox2yolo] in binary64 *)

Section binary64_facts.
Import Geometry.

(** *** Bits of a mantissa *)
Lemma digits2_pos_bounds (p : positive) :
  2 ^ (Z.pos (digits2_pos p) - 1) ≤ Z.pos p < 2 ^ Z.pos (digits2_pos p).
Proof.
  induction p as [p IH|p IH|]; cbn [digits2_pos].
  - rewrite Pos2Z.inj_succ.
    replace (Z.succ (Z.pos (digits2_pos p)) - 1) with (Z.succ (Z.pos (digits2_pos p) - 1)) by lia.
    rewrite !Z.pow_succ_r by lia. lia.
  - rewrite Pos2Z.inj_succ.
    replace (Z.succ (Z.pos (digits2_pos p)) - 1) with (Z.succ (Z.pos (digits2_pos p) - 1)) by lia.
    rewrite !Z.pow_succ_r by lia. lia.
  - cbn. lia.
Qed.

Lemma digits2_pos_unique (p : positive) (d : Z) :
  2 ^ (d - 1) ≤ Z.pos p < 2 ^ d → Z.pos (digits2_pos p) = d.
Proof.
  intros [Hlo Hhi]. pose proof (digits2_pos_bounds p) as [Hlo' Hhi'].
  assert (Hd : 0 < d).
  { destruct (Z.le_gt_cases d 0) as [Hle|]; [|done].
    assert (2 ^ d ≤ 2 ^ 0) by (apply Z.pow_le_mono_r; lia).
    change (2 ^ 0) with 1 in *. lia. }
  destruct (Z.lt_trichotomy (Z.pos (digits2_pos p)) d) as [Hlt|[Heq|Hgt]]; [|done|].
  - assert (2 ^ Z.pos (digits2_pos p) ≤ 2 ^ (d - 1)) by (apply Z.pow_le_mono_r; lia). lia.
  - assert (2 ^ d ≤ 2 ^ (Z.pos (digits2_pos p) - 1)) by (apply Z.pow_le_mono_r; lia). lia.
Qed.

(** *** Shifting a mantissa to the right *)
Lemma iter_pos_nat {A} (f : A → A) (p : positive) (x : A) :
  SpecFloat.iter_pos f p x = Nat.iter (Pos.to_nat p) f x.
Proof.
  revert x. induction p as [p IH|p IH|]; intros x; cbn [SpecFloat.iter_pos].
  - rewrite !IH. rewrite Pos2Nat.inj_xI.
    replace (S (2 * Pos.to_nat p))%nat with (Pos.to_nat p + (Pos.to_nat p + 1))%nat by lia.
    rewrite !Nat.iter_add. cbn. done.
  - rewrite !IH. rewrite Pos2Nat.inj_xO.
    replace (2 * Pos.to_nat p)%nat with (Pos.to_nat p + Pos.to_nat p)%nat by lia.
    by rewrite Nat.iter_add.
  - done.
Qed.

Lemma shr_1_nonneg (m : Z) (r s : bool) :
  0 ≤ m →
  shr_1 {| shr_m := m; shr_r := r; shr_s := s |}
  = {| shr_m := m / 2; shr_r := Z.odd m; shr_s := r || s |}.
Proof.
  intros Hm. rewrite <-Z.div2_div.
  destruct m as [|[p|p|]|p]; done || lia.
Qed.

(** [n + 1] shifts of an exact record *)
Lemma shr_iter (n : nat) (m : Z) :
  0 ≤ m →
  Nat.iter (S n) shr_1 {| shr_m := m; shr_r := false; shr_s := false |}
  = {| shr_m := m / 2 ^ (Z.of_nat n + 1);
       shr_r := Z.testbit m (Z.of_nat n);
       shr_s := negb (m mod 2 ^ Z.of_nat n =? 0) |}.
Proof.
  intros Hm. induction n as [|n IH].
  - cbn [Nat.iter nat_rect]. rewrite shr_1_nonneg by done. cbn [Z.of_nat Z.add].
    f_equal. rewrite Z.mod_1_r. done.
  - rewrite Nat.iter_succ, IH.
    assert (Hpow : 0 < 2 ^ (Z.of_nat n + 1)) by (apply Z.pow_pos_nonneg; lia).
    rewrite shr_1_nonneg by (apply Z.div_pos; lia).
    replace (Z.of_nat (S n)) with (Z.of_nat n + 1) by lia.
    f_equal.
    + rewrite Z.div_div by lia. f_equal.
      rewrite (Z.pow_add_r 2 (Z.of_nat n + 1) 1) by lia. done.
    + rewrite Z.testbit_odd, Z.shiftr_div_pow2 by lia. done.
    + rewrite (Z.pow_add_r 2 (Z.of_nat n) 1) by lia. change (2 ^ 1) with 2.
      rewrite Z.rem_mul_r by lia.
      rewrite Z.testbit_odd, Z.shiftr_div_pow2 by lia.
      rewrite Zodd_mod.
      assert (0 ≤ m mod 2 ^ Z.of_nat n) by (apply Z.mod_pos_bound; lia).
      assert (Hb : 0 ≤ (m / 2 ^ Z.of_nat n) mod 2 < 2) by (apply Z.mod_pos_bound; lia).
      assert (0 < 2 ^ Z.of_nat n) by (apply Z.pow_pos_nonneg; lia).
      destruct (Z.eqb_spec ((m / 2 ^ Z.of_nat n) mod 2) 1) as [->|Hne];
        destruct (Z.eqb_spec (m mod 2 ^ Z.of_nat n) 0) as [->|Hne'];
        cbn [orb negb]; symmetry.
      * apply negb_true_iff, Z.eqb_neq. lia.
      * apply negb_true_iff, Z.eqb_neq. lia.
      * apply negb_false_iff, Z.eqb_eq. lia.
      * apply negb_true_iff, Z.eqb_neq. lia.
Qed.

(** *** Rounding to 53 bits *)

Lemma fexp_normal (e : Z) : -1074 ≤ e - 53 → fexp prec emax e = e - 53.
Proof. intros He. unfold fexp, emin, prec, emax. lia. Qed.

Lemma Zdigits2_unique (m d : Z) :
  2 ^ (d - 1) ≤ m < 2 ^ d → 0 < m → Zdigits2 m = d.
Proof.
  intros Hm Hpos. destruct m as [|p|p]; try lia.
  cbn [Zdigits2]. by apply digits2_pos_unique.
Qed.

(** The last step of [binary_round_aux] on a mantissa of 53 bits, or on
    [2^53]. *)
Lemma round_finish (m e : Z) :
  2 ^ 52 ≤ m ≤ 2 ^ 53 → -1074 ≤ e ≤ 970 →
  (let '(mrs, e') := shr_fexp prec emax m e loc_Exact in
   match shr_m mrs with
   | Z0 => S754_zero false
   | Z.pos p =>
       if e' <=? emax - prec then S754_finite false p e' else S754_infinity false
   | Z.neg _ => S754_nan
   end)
  = if m =? 2 ^ 53 then pos_float (2 ^ 52) (e + 1) else pos_float m e.
Proof.
  intros Hm He. unfold shr_fexp.
  destruct (Z.eqb_spec m (2 ^ 53)) as [->|Hne].
  - rewrite (Zdigits2_unique (2 ^ 53) 54) by (cbn; lia).
    rewrite fexp_normal by lia.
    replace (54 + e - 53 - e) with 1 by lia.
    cbn [shr shr_record_of_loc SpecFloat.iter_pos]. rewrite shr_1_nonneg by (cbn; lia).
    cbn [shr_m]. change (2 ^ 53 / 2) with (Z.pos (Z.to_pos (2 ^ 52))).
    cbv iota beta. unfold emax, prec.
    destruct (Z.leb_spec (e + 1) (1024 - 53)); [done|lia].
  - rewrite (Zdigits2_unique m 53) by (change (53 - 1) with 52; lia).
    rewrite fexp_normal by lia.
    replace (53 + e - 53 - e) with 0 by lia.
    cbn [shr shr_record_of_loc shr_m].
    assert (Hpos : 0 < m) by lia.
    destruct m as [|p|p]; try lia.
    unfold emax, prec.
    destruct (Z.leb_spec e (1024 - 53)); [done|lia].
Qed.

Lemma round_nearest_even_bounds (m : Z) (loc : location) :
  m ≤ round_nearest_even m loc ≤ m + 1.
Proof. destruct loc as [|[]]; cbn; try lia. destruct (Z.even m); lia. Qed.

(** [binary_round_aux] on a mantissa of exactly 53 bits: no shift, the
    location decides. *)
Lemma round_aux_53 (m e : Z) (loc : location) :
  2 ^ 52 ≤ m < 2 ^ 53 → -1074 ≤ e ≤ 970 →
  binary_round_aux prec emax false m e loc
  = let m' := round_nearest_even m loc in
    if m' =? 2 ^ 53 then pos_float (2 ^ 52) (e + 1) else pos_float m' e.
Proof.
  intros Hm He. unfold binary_round_aux.
  assert (Hfirst : shr_fexp prec emax m e loc = (shr_record_of_loc m loc, e)).
  { unfold shr_fexp. rewrite (Zdigits2_unique m 53) by (change (53 - 1) with 52; lia).
    rewrite fexp_normal by lia. replace (53 + e - 53 - e) with 0 by lia. done. }
  rewrite Hfirst.
  assert (Hloc : loc_of_shr_record (shr_record_of_loc m loc) = loc)
    by (by destruct loc as [|[]]).
  assert (Hm' : shr_m (shr_record_of_loc m loc) = m) by (by destruct loc as [|[]]).
  rewrite Hloc, Hm'. cbv zeta.
  pose proof (round_nearest_even_bounds m loc).
  apply round_finish; lia.
Qed.

(** [binary_round_aux] on an exact mantissa of [d ≥ 54] bits: the low
    [d - 53] bits are cut off and decide the rounding. *)
Lemma round_aux_shift (M E d : Z) :
  2 ^ (d - 1) ≤ M < 2 ^ d → 54 ≤ d → -1074 ≤ d + E - 53 ≤ 970 →
  binary_round_aux prec emax false M E loc_Exact
  = let n := d - 53 in
    let m1 := M / 2 ^ n in
    let R := M mod 2 ^ n in
    let H := 2 ^ (n - 1) in
    let up := (H <? R) || ((R =? H) && Z.odd m1) in
    let m1' := if up then m1 + 1 else m1 in
    if m1' =? 2 ^ 53 then pos_float (2 ^ 52) (E + n + 1) else pos_float m1' (E + n).
Proof.
  intros HM Hd He. cbv zeta. unfold binary_round_aux.
  assert (HMpos : 0 < M).
  { assert (0 < 2 ^ (d - 1)) by (apply Z.pow_pos_nonneg; lia). lia. }
  set (n := d - 53).
  assert (Hn : 1 ≤ n) by (unfold n; lia).
  assert (Hpown : 0 < 2 ^ n) by (apply Z.pow_pos_nonneg; lia).
  assert (HpowH : 0 < 2 ^ (n - 1)) by (apply Z.pow_pos_nonneg; lia).
  assert (Hsplit : 2 ^ n = 2 ^ (n - 1) * 2).
  { replace n with ((n - 1) + 1) at 1 by lia. by rewrite Z.pow_add_r by lia. }
  (* the first shift *)
  assert (Hfirst : shr_fexp prec emax M E loc_Exact
    = ({| shr_m := M / 2 ^ n;
          shr_r := Z.testbit M (n - 1);
          shr_s := negb (M mod 2 ^ (n - 1) =? 0) |}, E + n)).
  { unfold shr_fexp. rewrite (Zdigits2_unique M d) by done.
    rewrite fexp_normal by lia. replace (d + E - 53 - E) with n by (unfold n; lia).
    destruct n as [|p|p] eqn:Hp; try lia.
    cbn [shr shr_record_of_loc]. rewrite iter_pos_nat.
    destruct (Pos.to_nat p) as [|k] eqn:Hk; [lia|].
    rewrite shr_iter by lia.
    replace (Z.of_nat k + 1) with (Z.pos p) by lia.
    replace (Z.of_nat k) with (Z.pos p - 1) by lia. done. }
  rewrite Hfirst. cbn [shr_m].
  (* the mantissa that is left has 53 bits *)
  assert (Hm1 : 2 ^ 52 ≤ M / 2 ^ n < 2 ^ 53).
  { assert (Hd1 : 2 ^ (d - 1) = 2 ^ 52 * 2 ^ n).
    { rewrite <-Z.pow_add_r by lia. f_equal. unfold n. lia. }
    assert (Hd2 : 2 ^ d = 2 ^ 53 * 2 ^ n).
    { rewrite <-Z.pow_add_r by lia. f_equal. unfold n. lia. }
    split.
    - apply Z.div_le_lower_bound; lia.
    - apply Z.div_lt_upper_bound; lia. }
  (* the location read off the remainder *)
  assert (Hrem : M mod 2 ^ n
    = M mod 2 ^ (n - 1) + 2 ^ (n - 1) * Z.b2z (Z.testbit M (n - 1))).
  { rewrite Hsplit, Z.rem_mul_r by lia. f_equal. f_equal.
    rewrite Z.testbit_spec' by lia. done. }
  assert (Hlow : 0 ≤ M mod 2 ^ (n - 1) < 2 ^ (n - 1)) by (apply Z.mod_pos_bound; lia).
  assert (Hround :
    round_nearest_even (M / 2 ^ n)
      (loc_of_shr_record
         {| shr_m := M / 2 ^ n;
            shr_r := Z.testbit M (n - 1);
            shr_s := negb (M mod 2 ^ (n - 1) =? 0) |})
    = if (2 ^ (n - 1) <? M mod 2 ^ n)
         || ((M mod 2 ^ n =? 2 ^ (n - 1)) && Z.odd (M / 2 ^ n))
      then M / 2 ^ n + 1 else M / 2 ^ n).
  { rewrite Hrem. cbn [loc_of_shr_record].
    destruct (Z.testbit M (n - 1)); cbn [Z.b2z];
      destruct (Z.eqb_spec (M mod 2 ^ (n - 1)) 0) as [Hz|Hnz]; cbn [negb round_nearest_even].
    - rewrite Hz. rewrite Z.add_0_l, Z.mul_1_r, Z.ltb_irrefl, Z.eqb_refl.
      cbn [orb andb]. rewrite <-Z.negb_odd. by destruct (Z.odd (M / 2 ^ n)).
    - rewrite Z.mul_1_r.
      destruct (Z.ltb_spec (2 ^ (n - 1)) (M mod 2 ^ (n - 1) + 2 ^ (n - 1))); [done|lia].
    - rewrite Hz, Z.mul_0_r, Z.add_0_l.
      destruct (Z.ltb_spec (2 ^ (n - 1)) 0); [lia|].
      destruct (Z.eqb_spec 0 (2 ^ (n - 1))); [lia|done].
    - rewrite Z.mul_0_r, Z.add_0_r.
      destruct (Z.ltb_spec (2 ^ (n - 1)) (M mod 2 ^ (n - 1))); [lia|].
      destruct (Z.eqb_spec (M mod 2 ^ (n - 1)) (2 ^ (n - 1))); [lia|done]. }
  rewrite Hround.
  match goal with
  | |- context [if ?b then M / 2 ^ n + 1 else M / 2 ^ n] =>
      set (m1' := if b then M / 2 ^ n + 1 else M / 2 ^ n)
  end.
  assert (Hm1' : 2 ^ 52 ≤ m1' ≤ 2 ^ 53).
  { unfold m1'. destruct (_ || _); lia. }
  replace (E + n + 1) with ((E + n) + 1) by lia.
  apply round_finish; [done|unfold n; lia].
Qed.

(** *** Integers as floating-point numbers *)

Lemma iter_xO (p q : positive) : Z.pos (Pos.iter xO p q) = Z.pos p * 2 ^ Z.pos q.
Proof.
  induction q as [|q IH] using Pos.peano_ind.
  - cbn. lia.
  - rewrite Pos.iter_succ, Pos2Z.inj_xO, IH, Pos2Z.inj_succ, Z.pow_succ_r by lia. lia.
Qed.

Lemma Zdigits2_bounds (m : Z) :
  0 < m → 2 ^ (Zdigits2 m - 1) ≤ m < 2 ^ Zdigits2 m ∧ 0 < Zdigits2 m.
Proof.
  intros Hm. destruct m as [|p|p]; try lia. cbn [Zdigits2].
  split; [apply digits2_pos_bounds|lia].
Qed.

Lemma Zdigits2_le (m b : Z) : 0 < m → m < 2 ^ b → Zdigits2 m ≤ b.
Proof.
  intros Hm Hb. destruct (Zdigits2_bounds m Hm) as [[Hlo _] Hd].
  destruct (Z.le_gt_cases (Zdigits2 m) b) as [|Hgt]; [done|].
  assert (2 ^ b ≤ 2 ^ (Zdigits2 m - 1)); [|lia].
  apply Z.pow_le_mono_r; [lia|lia].
Qed.

(** A mantissa brought to 53 bits. *)
Lemma normalized_bounds (k : Z) :
  0 < k → k < 2 ^ 53 →
  2 ^ 52 ≤ k * 2 ^ (53 - Zdigits2 k) < 2 ^ 53.
Proof.
  intros Hk Hlt. destruct (Zdigits2_bounds k Hk) as [[Hlo Hhi] Hd].
  pose proof (Zdigits2_le k 53 Hk Hlt) as Hd53.
  set (d := Zdigits2 k) in *.
  assert (Hp : 0 < 2 ^ (53 - d)) by (apply Z.pow_pos_nonneg; lia).
  assert (H52 : 2 ^ 52 = 2 ^ (d - 1) * 2 ^ (53 - d)).
  { rewrite <-Z.pow_add_r by lia. f_equal. lia. }
  assert (H53 : 2 ^ 53 = 2 ^ d * 2 ^ (53 - d)).
  { rewrite <-Z.pow_add_r by lia. f_equal. lia. }
  rewrite H52, H53. split.
  - apply Z.mul_le_mono_nonneg_r; lia.
  - apply Z.mul_lt_mono_pos_r; lia.
Qed.

(** [float(k)] for [1 ≤ k < 2^53] is exact. *)
Lemma normalize_int (k : Z) :
  0 < k → k < 2 ^ 53 →
  binary_normalize prec emax k 0 false
  = pos_float (k * 2 ^ (53 - Zdigits2 k)) (Zdigits2 k - 53).
Proof.
  intros Hk Hlt. destruct (Zdigits2_bounds k Hk) as [_ Hd].
  pose proof (Zdigits2_le k 53 Hk Hlt) as Hd53.
  pose proof (normalized_bounds k Hk Hlt) as Hnorm.
  destruct k as [|p|p]; try lia.
  cbn [binary_normalize]. unfold binary_round.
  change (Z.pos (digits2_pos p)) with (Zdigits2 (Z.pos p)).
  set (d := Zdigits2 (Z.pos p)) in *.
  rewrite Z.add_0_r, fexp_normal by lia.
  assert (Halign : shl_align p 0 (d - 53)
    = (Z.to_pos (Z.pos p * 2 ^ (53 - d)), d - 53)).
  { unfold shl_align. rewrite Z.sub_0_r.
    destruct (d - 53) as [|q|q] eqn:Hq; try lia.
    - replace (53 - d) with 0 by lia. by rewrite Z.mul_1_r.
    - f_equal. apply Pos2Z.inj. rewrite iter_xO, Z2Pos.id by lia.
      f_equal. f_equal. lia. }
  rewrite Halign. rewrite Z2Pos.id by lia.
  rewrite round_aux_53 by lia. cbv zeta. cbn [round_nearest_even].
  destruct (Z.eqb_spec (Z.pos p * 2 ^ (53 - d)) (2 ^ 53)); [lia|done].
Qed.

(** *** Division of integers *)

(** [s / 2] for [1 ≤ s < 2^53] is exact. *)
Lemma div_int_two (s : Z) :
  0 < s → s < 2 ^ 53 →
  SFdiv prec emax (spec_of_int s) (spec_of_int 2)
  = pos_float (s * 2 ^ (53 - Zdigits2 s)) (Zdigits2 s - 54).
Proof.
  intros Hs Hlt. destruct (Zdigits2_bounds s Hs) as [_ Hd].
  pose proof (Zdigits2_le s 53 Hs Hlt) as Hd53.
  pose proof (normalized_bounds s Hs Hlt) as Hnorm.
  destruct s as [|p|p]; try lia.
  cbn [spec_of_int SFdiv xorb]. unfold SFdiv_core_binary.
  change (Zdigits2 2) with 2.
  set (d := Zdigits2 (Z.pos p)) in *.
  replace (d + 0 - (2 + 0)) with (d - 2) by lia.
  rewrite fexp_normal by lia.
  replace (Z.min (d - 2 - 53) (0 - 0)) with (d - 55) by lia.
  replace (0 - 0 - (d - 55)) with (55 - d) by lia.
  destruct (55 - d) as [|q|q] eqn:Hq; try lia. rewrite <-Hq.
  rewrite Z.shiftl_mul_pow2 by lia.
  assert (Hpow : 2 ^ (55 - d) = 2 ^ (54 - d) * 2).
  { replace (55 - d) with ((54 - d) + 1) by lia. by rewrite Z.pow_add_r by lia. }
  assert (Hdiv : Z.div_eucl (Z.pos p * 2 ^ (55 - d)) 2
    = (Z.pos p * 2 ^ (54 - d), 0)).
  { rewrite Hpow, Z.mul_assoc.
    pose proof (Z.div_eucl_eq (Z.pos p * 2 ^ (54 - d) * 2) 2 ltac:(lia)) as Heq.
    pose proof (Z.mod_pos_bound (Z.pos p * 2 ^ (54 - d) * 2) 2 ltac:(lia)) as Hmod.
    unfold Z.modulo in Hmod.
    destruct (Z.div_eucl (Z.pos p * 2 ^ (54 - d) * 2) 2) as [q' r']. f_equal; lia. }
  rewrite Hdiv. change (new_location 2 0) with loc_Exact.
  assert (H54 : 2 ^ (54 - d) = 2 ^ (53 - d) * 2).
  { replace (54 - d) with ((53 - d) + 1) by lia. by rewrite Z.pow_add_r by lia. }
  rewrite (round_aux_shift _ _ 54) by (rewrite ?H54; change (54 - 1) with 53; lia).
  cbv zeta. change (54 - 53) with 1. change (2 ^ 1) with 2. change (2 ^ (1 - 1)) with 1.
  rewrite H54, Z.mul_assoc, Z.mod_mul, Z.div_mul by lia.
  cbn [Z.ltb Z.eqb Z.compare orb andb].
  destruct (Z.eqb_spec (Z.pos p * 2 ^ (53 - d)) (2 ^ 53)); [lia|].
  f_equal. lia.
Qed.

(** When the quotient is rounded up, the remainder is at least half the
    divisor. *)
Lemma round_up_remainder (q W r : Z) :
  0 < W → 0 ≤ r < W →
  round_nearest_even q (new_location W r) ≠ q → W ≤ 2 * r.
Proof.
  intros HW Hr. unfold new_location, new_location_even, new_location_odd.
  destruct (Z.even W) eqn:Heven.
  - destruct (Z.eqb_spec r 0); [done|].
    destruct (Z.compare_spec (2 * r) W); cbn [round_nearest_even]; try done; lia.
  - destruct (Z.eqb_spec r 0); [done|].
    destruct (Z.compare_spec (2 * r + 1) W); cbn [round_nearest_even]; try done; lia.
Qed.

(** [1 / W] for [1 ≤ W < 2^53]: a mantissa of 53 bits, and the product
    with [W] exceeds 1 by at most [2^-53]. *)
Lemma div_one_int (W : Z) :
  0 < W → W < 2 ^ 53 →
  ∃ md ed : Z,
    SFdiv prec emax (spec_of_int 1) (spec_of_int W) = pos_float md ed
    ∧ 2 ^ 52 ≤ md < 2 ^ 53
    ∧ -105 ≤ ed ≤ -52
    ∧ W * md * 2 ^ 53 ≤ (2 ^ 53 + 1) * 2 ^ (- ed).
Proof.
  intros HW Hlt. destruct (Zdigits2_bounds W HW) as [[Hlo Hhi] Hd].
  pose proof (Zdigits2_le W 53 HW Hlt) as Hd53.
  destruct W as [|p|p]; try lia.
  cbn [spec_of_int SFdiv xorb]. unfold SFdiv_core_binary.
  change (Zdigits2 1) with 1.
  set (W := Z.pos p) in *. set (d := Zdigits2 W) in *.
  replace (1 + 0 - (d + 0)) with (1 - d) by lia.
  rewrite fexp_normal by lia.
  replace (Z.min (1 - d - 53) (0 - 0)) with (- 52 - d) by lia.
  replace (0 - 0 - (- 52 - d)) with (52 + d) by lia.
  destruct (52 + d) as [|q|q] eqn:Hq; try lia. rewrite <-Hq.
  rewrite Z.shiftl_mul_pow2, Z.mul_1_l by lia.
  set (T := 2 ^ (52 + d)).
  assert (HT52 : T = 2 ^ 52 * 2 ^ d).
  { unfold T. by rewrite Z.pow_add_r by lia. }
  assert (HT53 : T = 2 ^ 53 * 2 ^ (d - 1)).
  { unfold T. rewrite <-Z.pow_add_r by lia. f_equal. lia. }
  assert (Hd2 : 2 ^ d = 2 * 2 ^ (d - 1)).
  { replace d with ((d - 1) + 1) at 1 by lia. rewrite Z.pow_add_r by lia. lia. }
  assert (Hpd : 0 < 2 ^ (d - 1)) by (apply Z.pow_pos_nonneg; lia).
  pose proof (Z.div_eucl_eq T W ltac:(lia)) as Heq.
  pose proof (Z.mod_pos_bound T W ltac:(lia)) as Hmod.
  unfold Z.modulo in Hmod.
  destruct (Z.div_eucl T W) as [q' r'] eqn:Hdiv.
  assert (Hq52 : 2 ^ 52 ≤ q') by nia.
  assert (Hq53 : q' ≤ 2 ^ 53) by nia.
  assert (Hexp : 2 ^ (- (- 52 - d)) = T) by (unfold T; f_equal; lia).
  assert (Hexp1 : 2 * 2 ^ (- (- 52 - d + 1)) = T).
  { unfold T. replace (52 + d) with ((51 + d) + 1) by lia.
    rewrite Z.pow_add_r by lia. replace (- (- 52 - d + 1)) with (51 + d) by lia. lia. }
  destruct (Z.eq_dec q' (2 ^ 53)) as [->|Hne].
  - (* [W] is a power of two *)
    assert (Hr0 : r' = 0) by nia. subst r'.
    assert (Hloc : new_location W 0 = loc_Exact).
    { unfold new_location, new_location_even, new_location_odd. by destruct (Z.even W). }
    rewrite Hloc.
    rewrite (round_aux_shift _ _ 54) by (change (54 - 1) with 53; lia).
    cbv zeta. change (54 - 53) with 1. change (2 ^ 1) with 2. change (2 ^ (1 - 1)) with 1.
    change (2 ^ 53 mod 2) with 0. change (2 ^ 53 / 2) with (2 ^ 52).
    cbn [Z.ltb Z.eqb Z.compare orb andb].
    change (2 ^ 52 =? 2 ^ 53) with false. cbv iota.
    exists (2 ^ 52), (- 52 - d + 1). split_and!; [done|lia|lia|lia|lia|].
    nia.
  - rewrite round_aux_53 by lia. cbv zeta.
    pose proof (round_nearest_even_bounds q' (new_location W r')) as Hround.
    pose proof (round_up_remainder q' W r' ltac:(lia) Hmod) as Hup.
    set (m' := round_nearest_even q' (new_location W r')) in *.
    assert (Hprod : 2 * (W * m') ≤ 2 * T + W).
    { destruct (Z.eq_dec m' q') as [->|Hneq]; [nia|].
      specialize (Hup Hneq). nia. }
    destruct (Z.eqb_spec m' (2 ^ 53)) as [Hm'|Hm'].
    + exists (2 ^ 52), (- 52 - d + 1). split_and!; [done|lia|lia|lia|lia|].
      rewrite Hm' in Hprod. nia.
    + exists m', (- 52 - d). split_and!; [done|lia|lia|lia|lia|].
      rewrite Hexp. nia.
Qed.

(** *** Comparison with 0 and 1 *)

Lemma SFleb_one (m e : Z) :
  0 < m → e < - 52 ∨ (e = - 52 ∧ m ≤ 2 ^ 52) →
  SFleb (pos_float m e) spec_one = true.
Proof.
  intros Hm Hcases. unfold SFleb, spec_one. cbn [SFcompare].
  destruct (Z.compare_spec e (- 52)) as [->|Hlt|Hgt]; [|done|lia].
  assert (Hle : m ≤ 2 ^ 52) by lia.
  rewrite Pos.compare_cont_spec. cbn [Pos.switch_Eq].
  destruct (Pos.compare_spec (Z.to_pos m) (Z.to_pos (2 ^ 52))) as [|Hc|Hc]; try done.
  rewrite <-(Z2Pos.id m), <-(Z2Pos.id (2 ^ 52)) in Hle by lia. lia.
Qed.

Lemma SFleb_zero (m e : Z) : SFleb (S754_zero false) (pos_float m e) = true.
Proof. done. Qed.

(** *** A product whose exact value is at most [1 + 2^-53] *)

Lemma SFmul_le_one (mc ec md ed : Z) :
  2 ^ 52 ≤ mc < 2 ^ 53 → 2 ^ 52 ≤ md < 2 ^ 53 →
  - 200 ≤ ec + ed ≤ 0 →
  mc * md * 2 ^ 53 ≤ (2 ^ 53 + 1) * 2 ^ (- (ec + ed)) →
  ∃ m e : Z,
    SFmul prec emax (pos_float mc ec) (pos_float md ed) = pos_float m e
    ∧ 0 < m ∧ (e < - 52 ∨ (e = - 52 ∧ m ≤ 2 ^ 52)).
Proof.
  intros Hmc Hmd HE Hval. cbn [SFmul xorb].
  rewrite Pos2Z.inj_mul, !Z2Pos.id by lia.
  set (M := mc * md) in *. set (E := ec + ed) in *.
  assert (HM : 2 ^ 104 ≤ M < 2 ^ 106) by (unfold M; nia).
  assert (HMpos : 0 < M) by lia.
  destruct (Zdigits2_bounds M HMpos) as [[Hlo Hhi] Hd].
  set (d := Zdigits2 M) in *.
  assert (Hd105 : 105 ≤ d).
  { destruct (Z.le_gt_cases 105 d) as [|Hgt]; [done|].
    assert (2 ^ d ≤ 2 ^ 104) by (apply Z.pow_le_mono_r; lia). lia. }
  assert (Hd106 : d ≤ 106).
  { destruct (Z.le_gt_cases d 106) as [|Hgt]; [done|].
    assert (2 ^ 106 ≤ 2 ^ (d - 1)) by (apply Z.pow_le_mono_r; lia). lia. }
  rewrite (round_aux_shift M E d) by lia.
  cbv zeta. set (n := d - 53).
  assert (Hn : 52 ≤ n ≤ 53) by (unfold n; lia).
  assert (Hpn : 0 < 2 ^ n) by (apply Z.pow_pos_nonneg; lia).
  assert (HpH : 0 < 2 ^ (n - 1)) by (apply Z.pow_pos_nonneg; lia).
  assert (Hsplit : 2 ^ n = 2 * 2 ^ (n - 1)).
  { replace n with ((n - 1) + 1) at 1 by lia. rewrite Z.pow_add_r by lia. lia. }
  pose proof (Z.div_mod M (2 ^ n) ltac:(lia)) as Hdm.
  pose proof (Z.mod_pos_bound M (2 ^ n) ltac:(lia)) as Hmod.
  set (m1 := M / 2 ^ n) in *. set (R := M mod 2 ^ n) in *.
  assert (Hm1 : 2 ^ 52 ≤ m1 < 2 ^ 53).
  { assert (Hd1 : 2 ^ (d - 1) = 2 ^ 52 * 2 ^ n).
    { rewrite <-Z.pow_add_r by lia. f_equal. unfold n. lia. }
    assert (Hd2 : 2 ^ d = 2 ^ 53 * 2 ^ n).
    { rewrite <-Z.pow_add_r by lia. f_equal. unfold n. lia. }
    unfold m1. split.
    - apply Z.div_le_lower_bound; lia.
    - apply Z.div_lt_upper_bound; lia. }
  (* the exponent of the result *)
  set (e1 := E + n).
  assert (HE2 : 2 ^ (- E) = 2 ^ n * 2 ^ (- e1)).
  { destruct (Z.le_gt_cases 0 (- e1)) as [Hpos|Hneg].
    - rewrite <-Z.pow_add_r by lia. f_equal. unfold e1. lia.
    - exfalso. unfold e1 in Hneg.
      assert (2 ^ (- E) ≤ 2 ^ n) by (apply Z.pow_le_mono_r; lia). nia. }
  assert (He1 : e1 ≤ - 52).
  { destruct (Z.le_gt_cases e1 (- 52)) as [|Hgt]; [done|]. exfalso.
    assert (Hk : 2 ^ (- e1) ≤ 2 ^ 51).
    { destruct (Z.le_gt_cases 0 (- e1)).
      - apply Z.pow_le_mono_r; lia.
      - rewrite Z.pow_neg_r by lia. lia. }
    rewrite HE2 in Hval. nia. }
  set (up := (2 ^ (n - 1) <? R) || ((R =? 2 ^ (n - 1)) && Z.odd m1)).
  destruct (Z.eq_dec e1 (- 52)) as [He52|Hne52].
  - (* the result is 1 *)
    assert (Hk : 2 ^ (- e1) = 2 ^ 52) by (f_equal; lia).
    rewrite HE2, Hk in Hval.
    assert (Hm1eq : m1 = 2 ^ 52) by nia.
    assert (HR : R ≤ 2 ^ (n - 1)) by nia.
    assert (Hup : up = false).
    { unfold up. destruct (Z.ltb_spec (2 ^ (n - 1)) R); [lia|].
      rewrite Hm1eq. change (Z.odd (2 ^ 52)) with false.
      by rewrite andb_false_r. }
    rewrite Hup. cbv iota.
    destruct (Z.eqb_spec m1 (2 ^ 53)); [lia|].
    exists m1, e1. split_and!; [done|lia|]. right. lia.
  - destruct up.
    + destruct (Z.eqb_spec (m1 + 1) (2 ^ 53)).
      * exists (2 ^ 52), (e1 + 1). split_and!; [done|lia|].
        destruct (Z.eq_dec (e1 + 1) (- 52)); [right; lia|left; lia].
      * exists (m1 + 1), e1. split_and!; [done|lia|]. left. lia.
    + destruct (Z.eqb_spec m1 (2 ^ 53)); [lia|].
      exists m1, e1. split_and!; [done|lia|]. left. lia.
Qed.

Lemma valid_normal (m e : Z) :
  2 ^ 52 ≤ m < 2 ^ 53 → -1074 ≤ e ≤ 971 →
  valid_binary (pos_float m e) = true.
Proof.
  intros Hm He. cbn [SpecFloat.valid_binary]. unfold bounded, canonical_mantissa.
  change (Z.pos (digits2_pos (Z.to_pos m))) with (Zdigits2 (Z.pos (Z.to_pos m))).
  rewrite Z2Pos.id by lia.
  rewrite (Zdigits2_unique m 53) by (change (53 - 1) with 52; lia).
  rewrite fexp_normal by lia. unfold emax, prec.
  apply andb_true_iff. split; [apply Z.eqb_eq|apply Z.leb_le]; lia.
Qed.

Lemma Prim2SF_normal (m e : Z) :
  2 ^ 52 ≤ m < 2 ^ 53 → -1074 ≤ e ≤ 971 →
  Prim2SF (SF2Prim (pos_float m e)) = pos_float m e.
Proof. intros Hm He. by apply Prim2SF_SF2Prim, valid_normal. Qed.

(** The product of a number with the reciprocal lies in [0, 1]. *)
Lemma in_unit_mul (c d : float) (mc ec md ed : Z) :
  Prim2SF c = pos_float mc ec → Prim2SF d = pos_float md ed →
  2 ^ 52 ≤ mc < 2 ^ 53 → 2 ^ 52 ≤ md < 2 ^ 53 →
  - 200 ≤ ec + ed ≤ 0 →
  mc * md * 2 ^ 53 ≤ (2 ^ 53 + 1) * 2 ^ (- (ec + ed)) →
  in_unit (c * d) = true.
Proof.
  intros Hc Hd Hmc Hmd HE Hval. unfold in_unit.
  rewrite !leb_spec, mul_spec, Hc, Hd. unfold SF64mul.
  destruct (SFmul_le_one mc ec md ed Hmc Hmd HE Hval) as (m & e & -> & Hm & Hcases).
  change (Prim2SF 0) with (S754_zero false). change (Prim2SF 1) with spec_one.
  by rewrite SFleb_zero, SFleb_one.
Qed.

Lemma in_unit_zero_mul (c d : float) (md ed : Z) :
  Prim2SF c = S754_zero false → Prim2SF d = pos_float md ed →
  in_unit (c * d) = true.
Proof.
  intros Hc Hd. unfold in_unit.
  rewrite !leb_spec, mul_spec, Hc, Hd. done.
Qed.

Lemma pow2_split (a b : Z) : 0 ≤ a → 0 ≤ b → 2 ^ (a + b) = 2 ^ a * 2 ^ b.
Proof. intros. by apply Z.pow_add_r. Qed.

(** [1 / W] for [1 ≤ W ≤ 2^53]. *)
Lemma recip_int (W : Z) :
  0 < W ≤ 2 ^ 53 →
  ∃ md ed : Z,
    SFdiv prec emax (spec_of_int 1) (spec_of_int W) = pos_float md ed
    ∧ 2 ^ 52 ≤ md < 2 ^ 53
    ∧ -105 ≤ ed ≤ -52
    ∧ W * md * 2 ^ 53 ≤ (2 ^ 53 + 1) * 2 ^ (- ed).
Proof.
  intros HW. destruct (Z.eq_dec W (2 ^ 53)) as [->|Hne].
  - exists (2 ^ 52), (- 105). split_and!; by vm_compute.
  - apply div_one_int; lia.
Qed.

(** [s / 2] for [2^53 ≤ s < 2^54]: the tie of an odd [s] goes to the
    even neighbour, and the result does not exceed [(s + 1) / 2]. *)
Lemma div_int_two_54 (s : Z) :
  2 ^ 53 ≤ s < 2 ^ 54 →
  ∃ mc ec : Z,
    SFdiv prec emax (spec_of_int s) (spec_of_int 2) = pos_float mc ec
    ∧ 2 ^ 52 ≤ mc < 2 ^ 53
    ∧ 0 ≤ ec ≤ 1
    ∧ 2 * (mc * 2 ^ ec) ≤ s + s mod 2.
Proof.
  intros Hs. destruct s as [|p|p]; try lia.
  cbn [spec_of_int SFdiv xorb]. unfold SFdiv_core_binary.
  change (Zdigits2 2) with 2.
  rewrite (Zdigits2_unique (Z.pos p) 54) by (change (54 - 1) with 53; lia).
  change (54 + 0 - (2 + 0)) with 52.
  change (Z.min (fexp prec emax 52) (0 - 0)) with (- 1).
  change (0 - 0 - - 1) with 1.
  rewrite Z.shiftl_mul_pow2 by lia. change (2 ^ 1) with 2.
  assert (Hdiv : Z.div_eucl (Z.pos p * 2) 2 = (Z.pos p, 0)).
  { pose proof (Z.div_eucl_eq (Z.pos p * 2) 2 ltac:(lia)) as Heq.
    pose proof (Z.mod_pos_bound (Z.pos p * 2) 2 ltac:(lia)) as Hmod.
    unfold Z.modulo in Hmod.
    destruct (Z.div_eucl (Z.pos p * 2) 2) as [q' r']. f_equal; lia. }
  rewrite Hdiv. change (new_location 2 0) with loc_Exact.
  rewrite (round_aux_shift _ _ 54) by (change (54 - 1) with 53; lia).
  cbv zeta. change (54 - 53) with 1. change (2 ^ 1) with 2. change (2 ^ (1 - 1)) with 1.
  set (s := Z.pos p) in *.
  pose proof (Z.div_mod s 2 ltac:(lia)) as Hdm.
  pose proof (Z.mod_pos_bound s 2 ltac:(lia)) as Hmod.
  set (up := (1 <? s mod 2) || ((s mod 2 =? 1) && Z.odd (s / 2))).
  assert (Hup : up = true → s mod 2 = 1).
  { unfold up. destruct (Z.ltb_spec 1 (s mod 2)); [lia|].
    destruct (Z.eqb_spec (s mod 2) 1); [done|]. by rewrite andb_false_l. }
  destruct up.
  - specialize (Hup eq_refl).
    destruct (Z.eqb_spec (s / 2 + 1) (2 ^ 53)).
    + exists (2 ^ 52), (- 1 + 1 + 1). split_and!; [done|lia|lia|lia|lia|].
      change (2 ^ (-1 + 1 + 1)) with 2. lia.
    + exists (s / 2 + 1), (- 1 + 1). split_and!; [done|lia|lia|lia|lia|].
      change (2 ^ (-1 + 1)) with 1. lia.
  - destruct (Z.eqb_spec (s / 2) (2 ^ 53)); [lia|].
    exists (s / 2), (- 1 + 1). split_and!; [done|lia|lia|lia|lia|].
    change (2 ^ (-1 + 1)) with 1. lia.
Qed.

(** [s / 2] for [1 ≤ s ≤ 2 * W] with [W ≤ 2^53]: a mantissa of 53 bits
    and a value of at most [W]. *)
Lemma half_int (s W : Z) :
  0 < s ≤ 2 * W → W ≤ 2 ^ 53 →
  ∃ mc ec : Z,
    SFdiv prec emax (spec_of_int s) (spec_of_int 2) = pos_float mc ec
    ∧ 2 ^ 52 ≤ mc < 2 ^ 53
    ∧ -53 ≤ ec ≤ 1
    ∧ mc * 2 ^ (ec + 60) ≤ W * 2 ^ 60.
Proof.
  intros Hs HW.
  destruct (Z.lt_ge_cases s (2 ^ 53)) as [Hlt|Hge];
    [|destruct (Z.eq_dec s (2 ^ 54)) as [->|Hne]].
  - rewrite div_int_two by lia.
    pose proof (normalized_bounds s ltac:(lia) Hlt) as Hnorm.
    destruct (Zdigits2_bounds s ltac:(lia)) as [_ Hds].
    pose proof (Zdigits2_le s 53 ltac:(lia) Hlt) as Hds53.
    set (ds := Zdigits2 s) in *.
    exists (s * 2 ^ (53 - ds)), (ds - 54). split_and!; [done|lia|lia|lia|lia|].
    rewrite <-Z.mul_assoc, <-pow2_split by lia.
    replace (53 - ds + (ds - 54 + 60)) with 59 by lia.
    change (2 ^ 60) with (2 * 2 ^ 59). lia.
  - exists (2 ^ 52), 1. split_and!; [by vm_compute|lia|lia|lia|lia|].
    change (2 ^ 52 * 2 ^ (1 + 60)) with (2 ^ 53 * 2 ^ 60). lia.
  - destruct (div_int_two_54 s) as (mc & ec & Hdiv & Hmc & Hec & Hval); [lia|].
    exists mc, ec. split_and!; [done|lia|lia|lia|lia|].
    assert (Heven : s + s mod 2 ≤ 2 * W).
    { pose proof (Z.div_mod s 2 ltac:(lia)). pose proof (Z.mod_pos_bound s 2 ltac:(lia)). lia. }
    rewrite pow2_split by lia. lia.
Qed.

(** [float(k)] for [1 ≤ k ≤ W] with [W ≤ 2^53]. *)
Lemma float_int (k W : Z) :
  0 < k ≤ W → W ≤ 2 ^ 53 →
  ∃ mb eb : Z,
    binary_normalize prec emax k 0 false = pos_float mb eb
    ∧ 2 ^ 52 ≤ mb < 2 ^ 53
    ∧ -53 ≤ eb ≤ 1
    ∧ mb * 2 ^ (eb + 60) ≤ W * 2 ^ 60.
Proof.
  intros Hk HW. destruct (Z.eq_dec k (2 ^ 53)) as [->|Hne].
  - exists (2 ^ 52), 1. split_and!; [by vm_compute|lia|lia|lia|lia|].
    change (2 ^ 52 * 2 ^ (1 + 60)) with (2 ^ 53 * 2 ^ 60). lia.
  - assert (Hlt : k < 2 ^ 53) by lia.
    rewrite normalize_int by lia.
    pose proof (normalized_bounds k ltac:(lia) Hlt) as Hnorm.
    destruct (Zdigits2_bounds k ltac:(lia)) as [_ Hdk].
    pose proof (Zdigits2_le k 53 ltac:(lia) Hlt) as Hdk53.
    set (dk := Zdigits2 k) in *.
    exists (k * 2 ^ (53 - dk)), (dk - 53). split_and!; [done|lia|lia|lia|lia|].
    rewrite <-Z.mul_assoc, <-pow2_split by lia.
    replace (53 - dk + (dk - 53 + 60)) with 60 by lia.
    apply Z.mul_le_mono_nonneg_r; lia.
Qed.

(** A number of value at most [W] times the reciprocal of [W] lies in
    [0, 1]. *)
Lemma in_unit_ratio (c d : float) (mc ec md ed W : Z) :
  Prim2SF c = pos_float mc ec → Prim2SF d = pos_float md ed →
  2 ^ 52 ≤ mc < 2 ^ 53 → 2 ^ 52 ≤ md < 2 ^ 53 →
  -53 ≤ ec ≤ 1 → -105 ≤ ed ≤ -52 →
  mc * 2 ^ (ec + 60) ≤ W * 2 ^ 60 →
  W * md * 2 ^ 53 ≤ (2 ^ 53 + 1) * 2 ^ (- ed) →
  in_unit (c * d) = true.
Proof.
  intros Hc Hd Hmc Hmd Hec Hed Hle Hrecip.
  apply (in_unit_mul c d mc ec md ed); [done|done|done|done|lia|].
  set (P := 2 ^ (ec + 60)) in *.
  assert (HP : 0 < P) by (apply Z.pow_pos_nonneg; lia).
  assert (Hexp : 2 ^ 60 * 2 ^ (- ed) = P * 2 ^ (- (ec + ed))).
  { unfold P. rewrite <-!pow2_split by lia. f_equal. lia. }
  assert (Hpe : 0 < 2 ^ (- ed)) by (apply Z.pow_pos_nonneg; lia).
  apply (Z.mul_le_mono_pos_r _ _ P HP).
  transitivity (2 ^ 60 * (W * md * 2 ^ 53)); [nia|].
  transitivity (2 ^ 60 * ((2 ^ 53 + 1) * 2 ^ (- ed))); [nia|].
  rewrite Z.mul_assoc, (Z.mul_comm (2 ^ 60)), <-Z.mul_assoc, Hexp. lia.
Qed.

(** One axis of [bbox2yolo]: the reciprocal of the extent, the centre and
    the size, and the two products. *)
Lemma axis_in_unit (W lo hi : Z) :
  0 < W ≤ 2 ^ 53 → 0 ≤ lo ≤ hi ≤ W →
  ∃ d c b : float,
    int_truediv 1 W = Ok d
    ∧ int_truediv (lo + hi) 2 = Ok c
    ∧ float_of_int (hi - lo) = Ok b
    ∧ in_unit (c * d) = true
    ∧ in_unit (b * d) = true.
Proof.
  intros HW Hbox.
  (* the reciprocal *)
  destruct (recip_int W HW) as (md & ed & Hdiv & Hmd & Hed & Hrecip).
  assert (Hd : int_truediv 1 W = Ok (SF2Prim (pos_float md ed))).
  { unfold int_truediv. rewrite decide_False by lia. by rewrite Hdiv. }
  assert (Hpd : Prim2SF (SF2Prim (pos_float md ed)) = pos_float md ed)
    by (apply Prim2SF_normal; lia).
  exists (SF2Prim (pos_float md ed)).
  (* the centre *)
  assert (Hc : ∃ c, int_truediv (lo + hi) 2 = Ok c
                    ∧ in_unit (c * SF2Prim (pos_float md ed)) = true).
  { unfold int_truediv. rewrite decide_False by lia.
    destruct (Z.eq_dec (lo + hi) 0) as [->|Hs].
    - eexists. split; [reflexivity|].
      by apply (in_unit_zero_mul _ _ md ed).
    - destruct (half_int (lo + hi) W) as (mc & ec & -> & Hmc & Hec & Hle); [lia|lia|].
      eexists. split; [reflexivity|].
      apply (in_unit_ratio _ _ mc ec md ed W); try done.
      apply Prim2SF_normal; lia. }
  (* the size *)
  assert (Hb : ∃ b, float_of_int (hi - lo) = Ok b
                    ∧ in_unit (b * SF2Prim (pos_float md ed)) = true).
  { unfold float_of_int.
    destruct (Z.eq_dec (hi - lo) 0) as [->|Hk].
    - eexists. split; [reflexivity|].
      by apply (in_unit_zero_mul _ _ md ed).
    - destruct (float_int (hi - lo) W) as (mb & eb & -> & Hmb & Heb & Hle); [lia|lia|].
      eexists. split; [reflexivity|].
      apply (in_unit_ratio _ _ mb eb md ed W); try done.
      apply Prim2SF_normal; lia. }
  destruct Hc as (c & Hc & Hcu). destruct Hb as (b & Hb & Hbu).
  exists c, b. by split_and!.
Qed.

End binary64_facts.

(** C6 (amended). For all integers [0 < width, height ≤ 2^53] and
    [0 ≤ xmin ≤ xmax ≤ width], [0 ≤ ymin ≤ ymax ≤ height], [bbox2yolo]
    returns the binary64 numbers [x = ((xmin+xmax)/2) * dw],
    [y = ((ymin+ymax)/2) * dh], [w = (xmax-xmin) * dw],
    [h = (ymax-ymin) * dh], where [dw = 1/width] and [dh = 1/height] are
    rounded before the products, and each of the four outputs lies in
    [0, 1]. *)
Theorem bbox2yolo_normalized (width height xmin ymin xmax ymax : Z) :
  0 < width ≤ 2 ^ 53 → 0 < height ≤ 2 ^ 53 →
  0 ≤ xmin ≤ xmax ≤ width → 0 ≤ ymin ≤ ymax ≤ height →
  ∃ dw dh cx cy bw bh : float,
    Geometry.int_truediv 1 width = Ok dw
    ∧ Geometry.int_truediv 1 height = Ok dh
    ∧ Geometry.int_truediv (xmin + xmax) 2 = Ok cx
    ∧ Geometry.int_truediv (ymin + ymax) 2 = Ok cy
    ∧ Geometry.float_of_int (xmax - xmin) = Ok bw
    ∧ Geometry.float_of_int (ymax - ymin) = Ok bh
    ∧ Geometry.bbox2yolo width height xmin ymin xmax ymax
      = Ok (cx * dw, cy * dh, bw * dw, bh * dh)%float
    ∧ Geometry.in_unit (cx * dw) = true ∧ Geometry.in_unit (cy * dh) = true
    ∧ Geometry.in_unit (bw * dw) = true ∧ Geometry.in_unit (bh * dh) = true.
Proof.
  intros Hw Hh Hx Hy.
  destruct (axis_in_unit width xmin xmax Hw Hx) as (dw & cx & bw & Hdw & Hcx & Hbw & Hxu & Hwu).
  destruct (axis_in_unit height ymin ymax Hh Hy) as (dh & cy & bh & Hdh & Hcy & Hbh & Hyu & Hhu).
  exists dw, dh, cx, cy, bw, bh. split_and!; try done.
  unfold Geometry.bbox2yolo. by rewrite Hdw, Hdh, Hcx, Hcy, Hbw, Hbh.
Qed.

(** The amended C6 at the scenario [bbox2yolo(100, 100, 10, 10, 50, 50)],
    whose outputs are the binary64 numbers written 0.3, 0.3, 0.4, 0.4. *)
Lemma bbox2yolo_normalized_witness :
  Geometry.bbox2yolo 100 100 10 10 50 50
  = Ok (0x1.3333333333333p-2, 0x1.3333333333333p-2,
        0x1.999999999999ap-2, 0x1.999999999999ap-2)%float
  ∧ ∃ dw dh cx cy bw bh : float,
    Geometry.int_truediv 1 100 = Ok dw
    ∧ Geometry.int_truediv 1 100 = Ok dh
    ∧ Geometry.int_truediv (10 + 50) 2 = Ok cx
    ∧ Geometry.int_truediv (10 + 50) 2 = Ok cy
    ∧ Geometry.float_of_int (50 - 10) = Ok bw
    ∧ Geometry.float_of_int (50 - 10) = Ok bh
    ∧ Geometry.bbox2yolo 100 100 10 10 50 50
      = Ok (cx * dw, cy * dh, bw * dw, bh * dh)%float
    ∧ Geometry.in_unit (cx * dw) = true ∧ Geometry.in_unit (cy * dh) = true
    ∧ Geometry.in_unit (bw * dw) = true ∧ Geometry.in_unit (bh * dh) = true.
Proof.
  split; [by vm_compute|].
  apply (bbox2yolo_normalized 100 100 10 10 50 50); lia.
Defined.

Lemma float_neq (a b : float) : Prim2SF a ≠ Prim2SF b → a ≠ b.
Proof. intros Hne ->. done. Qed.

(** C6 as stated fails.  First, the outputs are products with the rounded
    reciprocal, not quotients: [bbox2yolo(49, 49, 49, 49, 49, 49)] has
    [x = 0.9999999999999999], while [((49+49)/2)/49 = 1.0].  Second, the
    bound fails for integers beyond [2^53], where not every integer is a
    binary64 number: for
    [width = xmin = xmax = 9479975462356503] the output [x] is
    [1.0000000000000002]. *)
Lemma bbox2yolo_counterexample :
  (∃ x y w h c width : float,
     Geometry.bbox2yolo 49 49 49 49 49 49 = Ok (x, y, w, h)
     ∧ Geometry.int_truediv (49 + 49) 2 = Ok c
     ∧ Geometry.float_of_int 49 = Ok width
     ∧ x ≠ (c / width)%float)
  ∧ (∃ x y w h : float,
       Geometry.bbox2yolo 9479975462356503 1 9479975462356503 0 9479975462356503 0
       = Ok (x, y, w, h)
       ∧ Geometry.in_unit x = false).
Proof.
  split.
  - eexists _, _, _, _, _, _. split_and!; [by vm_compute..|].
    apply float_neq. by vm_compute.
  - eexists _, _, _, _. split; by vm_compute.
Qed.

(** The scenario of the specification, evaluated: the outputs are the
    binary64 numbers nearest to 0.3 and 0.4. *)
Example toNormalized_scenario :
  Geometry.bbox2yolo 100 100 10 10 50 50
  = Ok (0x1.3333333333333p-2, 0x1.3333333333333p-2,
        0x1.999999999999ap-2, 0x1.999999999999ap-2)%float.
Proof. by vm_compute. Qed.

(** ** A missing Class Config *)

(** C8. [update_classes] raises the configuration error ([ValueError])
    on an empty (or never set, hence empty) Class Config and returns a
    remap on every non-empty one; [remove_class] on an empty Class Config
    raises the same error and leaves the file system as it was. *)
Theorem update_classes_requires_config {G : Glob} (to_remove : list Z) :
  TXTAnnotations.update_classes [] to_remove = Raise ValueError
  ∧ (∀ c config, ∃ keep : gmap Z Z,
       TXTAnnotations.update_classes (c :: config) to_remove = Ok keep)
  ∧ (∀ txt_path filename (fs : filesystem),
       TXTAnnotations.remove_class [] txt_path to_remove filename fs
       = (fs, Raise ValueError)).
Proof.
  split_and!; [reflexivity| |reflexivity].
  intros c config. eexists. reflexivity.
Qed.

(** ** Text and path helpers *)

Lemma string_app_cons c s1 s2 : String c s1 +:+ s2 = String c (s1 +:+ s2).
Proof. reflexivity. Qed.

Lemma string_app_nil s : EmptyString +:+ s = s.
Proof. reflexivity. Qed.

Lemma occurs_app c s1 s2 : occurs c (s1 +:+ s2) = occurs c s1 || occurs c s2.
Proof.
  induction s1 as [|d s1 IH]; [done|].
  rewrite string_app_cons. cbn. rewrite IH. by rewrite orb_assoc.
Qed.

Lemma split_once_fst_free sep s : occurs sep (Py.split_once sep s).1 = false.
Proof.
  induction s as [|c s IH]; [done|]. cbn.
  destruct (decide (c = sep)) as [->|Hne]; [done|].
  destruct (Py.split_once sep s) as [h t]. cbn in *.
  rewrite IH. by rewrite bool_decide_eq_false_2.
Qed.

Lemma split_once_fst_occurs c sep s :
  occurs c s = false → occurs c (Py.split_once sep s).1 = false.
Proof.
  induction s as [|d s IH]; [done|]. cbn.
  intros [Hd Hs]%orb_false_elim.
  destruct (decide (d = sep)) as [->|Hne]; [done|].
  destruct (Py.split_once sep s) as [h t]. cbn in *.
  by rewrite Hd, IH.
Qed.

Lemma split_once_app sep s1 s2 :
  occurs sep s1 = false →
  Py.split_once sep (s1 +:+ String sep s2) = (s1, Some s2).
Proof.
  induction s1 as [|c s1 IH]; intros Hfree.
  - rewrite string_app_nil. cbn. by rewrite decide_True.
  - cbn in Hfree. apply orb_false_elim in Hfree as [Hc Hs1].
    apply bool_decide_eq_false in Hc.
    rewrite string_app_cons. cbn. rewrite decide_False by done. by rewrite IH.
Qed.

Lemma path_tail_free p : occurs "/" (path_tail p) = false.
Proof.
  induction p as [|c p IH]; [done|]. cbn.
  destruct (occurs "/" p) eqn:Hp; [done|].
  destruct (decide (c = "/"%char)) as [->|Hne]; [done|].
  cbn. by rewrite Hp, bool_decide_eq_false_2.
Qed.

Lemma path_tail_join folder name :
  occurs "/" name = false → path_tail (folder +:+ "/" +:+ name) = name.
Proof.
  intros Hname. change ("/" +:+ name) with (String "/" name).
  induction folder as [|c folder IH].
  - rewrite string_app_nil. cbn. by rewrite Hname.
  - rewrite string_app_cons. cbn. rewrite occurs_app. cbn.
    by rewrite orb_true_r.
Qed.

Lemma get_filename_free path :
  occurs "/" (get_filename path) = false ∧ occurs "." (get_filename path) = false.
Proof.
  unfold get_filename. split.
  - apply split_once_fst_occurs, path_tail_free.
  - apply split_once_fst_free.
Qed.

(** The annotation file of an annotation file is that file itself. *)
Lemma get_filename_combine folder name :
  occurs "/" name = false → occurs "." name = false →
  get_filename (combine_path folder name (Some "txt")) = name.
Proof.
  intros Hslash Hdot. unfold get_filename, combine_path.
  rewrite path_tail_join.
  - change (name +:+ "." +:+ "txt") with (name +:+ String "." "txt").
    by rewrite split_once_app.
  - rewrite occurs_app. by rewrite Hslash.
Qed.

Lemma elem_of_glob {G : Glob} (fs : filesystem) pattern p :
  p ∈ glob fs pattern ↔ is_Some (fs !! p) ∧ glob_match pattern p.
Proof.
  unfold glob. rewrite list_elem_of_filter, list_elem_of_fmap. split.
  - intros [Hm ([q text] & -> & Hin)]. apply elem_of_map_to_list in Hin.
    split; [by exists text|done].
  - intros [[text Hp] Hm]. split; [done|].
    exists (p, text). split; [done|]. by apply elem_of_map_to_list.
Qed.

(** ** Backfilling annotation files: [add_txt] *)

Section add_txt_facts.
Context {G : Glob} (txt_path : string).

Local Abbreviation step := (TXTAnnotations.add_txt_step txt_path).

Lemma add_txt_step_lookup (fs : filesystem) img p :
  step fs img !! p
  = match fs !! p with
    | Some text => Some text
    | None => if decide (p = txt_of txt_path img) then Some EmptyString else None
    end.
Proof.
  unfold TXTAnnotations.add_txt_step. fold (txt_of txt_path img).
  destruct (decide (is_Some (fs !! txt_of txt_path img))) as [[text Hs]|Hn].
  - destruct (fs !! p) eqn:Hp; [done|]. rewrite decide_False; [done|].
    intros ->. congruence.
  - apply eq_None_not_Some in Hn.
    destruct (decide (p = txt_of txt_path img)) as [->|Hne].
    + by rewrite lookup_insert_eq, Hn.
    + rewrite lookup_insert_ne by done. by destruct (fs !! p).
Qed.

Lemma add_txt_loop_lookup imgs : ∀ (fs : filesystem) p,
  foldl step fs imgs !! p
  = match fs !! p with
    | Some text => Some text
    | None => if decide (p ∈ txt_of txt_path <$> imgs) then Some EmptyString else None
    end.
Proof.
  induction imgs as [|img imgs IH]; intros fs p.
  - cbn. destruct (fs !! p); [done|]. rewrite decide_False; [done|].
    by intros ?%elem_of_nil.
  - cbn [foldl]. rewrite IH, add_txt_step_lookup. destruct (fs !! p); [done|].
    rewrite fmap_cons. destruct (decide (p = txt_of txt_path img)) as [->|Hne].
    + rewrite decide_True; [done|]. apply elem_of_cons. by left.
    + destruct (decide (p ∈ txt_of txt_path <$> imgs)) as [Hin|Hnin].
      * rewrite decide_True; [done|]. apply elem_of_cons. by right.
      * rewrite decide_False; [done|]. by intros [?|?]%elem_of_cons.
Qed.

Lemma add_txt_loop_noop imgs (fs : filesystem) :
  (∀ img, img ∈ imgs → is_Some (fs !! txt_of txt_path img)) →
  foldl step fs imgs = fs.
Proof.
  intros Hall. apply map_eq. intros p. rewrite add_txt_loop_lookup.
  destruct (fs !! p) eqn:Hp; [done|].
  rewrite decide_False; [done|].
  intros (img & -> & Hin)%list_elem_of_fmap.
  destruct (Hall img Hin) as [text Ht]. congruence.
Qed.

Lemma txt_of_txt_of img : txt_of txt_path (txt_of txt_path img) = txt_of txt_path img.
Proof.
  destruct (get_filename_free img) as [Hslash Hdot].
  unfold txt_of. by rewrite get_filename_combine.
Qed.

End add_txt_facts.

(** C9. [add_txt] leaves the text of every existing file as it is; a path
    without a file gets an empty file exactly when it is the annotation
    path of a matched image, and stays absent otherwise; and a second run
    with the same arguments changes nothing. *)
Theorem add_txt_backfill {G : Glob} (images_path txt_path filename : string)
    (fs : filesystem) :
  let fs' := TXTAnnotations.add_txt images_path txt_path filename fs in
  (∀ p text, fs !! p = Some text → fs' !! p = Some text)
  ∧ (∀ p, fs !! p = None →
       fs' !! p = if decide (p ∈ txt_of txt_path <$> get_files fs images_path filename)
                  then Some EmptyString else None)
  ∧ TXTAnnotations.add_txt images_path txt_path filename fs' = fs'.
Proof.
  cbn zeta. unfold TXTAnnotations.add_txt.
  set (imgs := get_files fs images_path filename).
  set (fs' := foldl (TXTAnnotations.add_txt_step txt_path) fs imgs).
  assert (Hlook : ∀ p, fs' !! p
    = match fs !! p with
      | Some text => Some text
      | None => if decide (p ∈ txt_of txt_path <$> imgs) then Some EmptyString else None
      end) by apply add_txt_loop_lookup.
  split_and!.
  - intros p text Hp. by rewrite Hlook, Hp.
  - intros p Hp. by rewrite Hlook, Hp.
  - apply add_txt_loop_noop. intros img Himg.
    apply elem_of_glob in Himg as [Hex Hmatch].
    rewrite Hlook in Hex. rewrite Hlook.
    destruct (fs !! img) as [text|] eqn:Hfs.
    + assert (Hin : img ∈ imgs).
      { apply elem_of_glob. split; [by exists text|done]. }
      destruct (fs !! txt_of txt_path img); [by eexists|].
      rewrite decide_True; [by eexists|].
      apply list_elem_of_fmap. by exists img.
    + destruct (decide (img ∈ txt_of txt_path <$> imgs)) as [Hin|Hnin];
        [|by destruct Hex].
      apply list_elem_of_fmap in Hin as (img0 & -> & Hin0).
      rewrite txt_of_txt_of.
      destruct (fs !! txt_of txt_path img0); [by eexists|].
      rewrite decide_True; [by eexists|].
      apply list_elem_of_fmap. by exists img0.
Qed.

(** ** Class removal: [remove_class] *)

Lemma string_app_assoc s1 s2 s3 : (s1 +:+ s2) +:+ s3 = s1 +:+ s2 +:+ s3.
Proof.
  induction s1 as [|c s1 IH]; [done|].
  rewrite !string_app_cons. by rewrite IH.
Qed.

Lemma string_app_nil_r s : s +:+ EmptyString = s.
Proof.
  induction s as [|c s IH]; [done|]. rewrite string_app_cons. by rewrite IH.
Qed.

Section remove_class_facts.
Context (keep : gmap Z Z) (to_remove : list Z).

Local Abbreviation well_formed := (λ line, is_Some (record_class line)).
Local Abbreviation is_covered := (covered keep to_remove).
Local Abbreviation remapped := (remap_record keep to_remove).
Local Abbreviation rewrite_record := (TXTAnnotations.rewrite_record keep to_remove).
Local Abbreviation rewrite_records := (TXTAnnotations.rewrite_records keep to_remove).
Local Abbreviation rewrite_file := (TXTAnnotations.rewrite_file keep to_remove).

(** On a well-formed record the loop body either follows [remapped]
    or raises [KeyError], the latter exactly for uncovered records. *)
Lemma rewrite_record_well_formed line :
  well_formed line →
  (is_covered line ∧ rewrite_record line = Ok (remapped line))
  ∨ (¬ is_covered line ∧ rewrite_record line = Raise KeyError).
Proof.
  intros [c Hc].
  unfold covered, remap_record, TXTAnnotations.rewrite_record.
  rewrite Hc. unfold record_class in Hc.
  destruct (Py.split_once " " line) as [token [rest|]]; [|done].
  destruct (Py.int_of_str token) as [c'|e]; [|done].
  injection Hc as ->. cbn.
  destruct (decide (c ∈ to_remove)) as [Hrm|Hrm]; [left; by split; [left|]|].
  destruct (keep !! c) as [new|] eqn:Hk.
  - left. split; [right; by eexists|done].
  - right. split; [|done]. intros [?|[? ?]]; done.
Qed.

Lemma rewrite_records_well_formed lines : ∀ written,
  Forall well_formed lines →
  (Forall is_covered lines
   ∧ rewrite_records lines written
     = (written +:+ join (omap remapped lines), Ok tt))
  ∨ (¬ Forall is_covered lines
     ∧ ∃ written', rewrite_records lines written = (written', Raise KeyError)).
Proof.
  induction lines as [|line lines IH]; intros written Hwf.
  - left. split; [constructor|]. cbn. by rewrite string_app_nil_r.
  - apply Forall_cons in Hwf as [Hline Hwf]. cbn [TXTAnnotations.rewrite_records].
    destruct (rewrite_record_well_formed line Hline) as [[Hcov ->]|[Hunc ->]].
    + cbn [omap list_omap]. destruct (remapped line) as [out|] eqn:Hout.
      * destruct (IH (written +:+ out) Hwf) as [[Hall ->]|[Hnot Hex]].
        -- left. split; [by constructor|]. cbn. by rewrite string_app_assoc.
        -- right. split; [|done]. by intros [_ ?]%Forall_cons.
      * destruct (IH written Hwf) as [[Hall ->]|[Hnot Hex]].
        -- left. split; [by constructor|done].
        -- right. split; [|done]. by intros [_ ?]%Forall_cons.
    + right. split; [|by eexists]. by intros [? _]%Forall_cons.
Qed.

Lemma rewrite_file_well_formed (fs : filesystem) f :
  Forall well_formed (Py.readlines (read_text fs f)) →
  (Forall is_covered (Py.readlines (read_text fs f))
   ∧ rewrite_file f fs
     = (<[f := remap_text keep to_remove (read_text fs f)]> fs, Ok tt))
  ∨ (¬ Forall is_covered (Py.readlines (read_text fs f))
     ∧ ∃ fs', rewrite_file f fs = (fs', Raise KeyError)).
Proof.
  intros Hwf. unfold TXTAnnotations.rewrite_file.
  destruct (rewrite_records_well_formed _ EmptyString Hwf)
    as [[Hall ->]|[Hnot [written' ->]]].
  - left. by split.
  - right. split; [done|]. by eexists.
Qed.

Lemma read_text_insert_ne (fs : filesystem) f g text :
  f ≠ g → read_text (<[f := text]> fs) g = read_text fs g.
Proof. intros Hne. unfold read_text. by rewrite lookup_insert_ne. Qed.

Lemma all_records_insert (fs : filesystem) f text files P :
  f ∉ files →
  all_records (<[f := text]> fs) files P ↔ all_records fs files P.
Proof.
  intros Hnin. unfold all_records. rewrite !Forall_forall.
  split; intros Hall g Hg.
  - rewrite <-(read_text_insert_ne fs f g text); [by apply Hall|].
    intros ->. done.
  - rewrite read_text_insert_ne; [by apply Hall|]. intros ->. done.
Qed.

(** The loop over the files, when every record is well formed. *)
Lemma for_each_rewrite_file files : ∀ fs : filesystem,
  NoDup files →
  all_records fs files well_formed →
  (all_records fs files is_covered
   ∧ ∃ fs', for_each rewrite_file files fs = (fs', Ok tt)
       ∧ (∀ f, f ∈ files →
            fs' !! f = Some (remap_text keep to_remove (read_text fs f)))
       ∧ (∀ p, p ∉ files → fs' !! p = fs !! p))
  ∨ (¬ all_records fs files is_covered
     ∧ ∃ fs', for_each rewrite_file files fs = (fs', Raise KeyError)).
Proof.
  induction files as [|f files IH]; intros fs Hnd Hwf.
  - left. split; [constructor|]. exists fs. split_and!; [done| |done].
    intros f Hf. by apply elem_of_nil in Hf.
  - apply NoDup_cons in Hnd as [Hf Hnd].
    apply Forall_cons in Hwf as [Hwf_f Hwf].
    cbn [for_each].
    destruct (rewrite_file_well_formed fs f Hwf_f) as [[Hcov ->]|[Hunc [fs1 ->]]].
    + set (fs1 := <[f := remap_text keep to_remove (read_text fs f)]> fs).
      destruct (IH fs1 Hnd) as [[Hall (fs' & -> & Hin & Hout)]|[Hnot [fs' ->]]].
      { by apply all_records_insert. }
      * left. split.
        { apply Forall_cons. split; [done|].
          by apply (all_records_insert fs f
                      (remap_text keep to_remove (read_text fs f)) files). }
        exists fs'. split_and!; [done| |].
        -- intros g [->|Hg]%elem_of_cons.
           ++ rewrite Hout by done. unfold fs1. by rewrite lookup_insert_eq.
           ++ rewrite Hin by done. unfold fs1.
              rewrite read_text_insert_ne; [done|]. by intros ->.
        -- intros p Hp. apply not_elem_of_cons in Hp as [Hpf Hp].
           rewrite Hout by done. unfold fs1. by rewrite lookup_insert_ne.
      * right. split; [|by eexists].
        intros [_ Hall]%Forall_cons. apply Hnot.
        by apply all_records_insert.
    + right. split; [|by eexists]. by intros [? _]%Forall_cons.
Qed.

End remove_class_facts.

Lemma NoDup_glob {G : Glob} (fs : filesystem) pattern : NoDup (glob fs pattern).
Proof. unfold glob. apply NoDup_filter, NoDup_fst_map_to_list. Qed.

(** C5 (amended). Let every record of every matched annotation file be
    well formed (class token, a space, the rest).  If each record's class
    is listed in [to_remove] or has an entry in the computed remap, then
    [remove_class] succeeds: records whose class is in [to_remove] are
    dropped, every other record is rewritten with its remapped class id
    and the rest of its line unchanged, and unmatched files are left as
    they were.  If some record's class is neither in [to_remove] nor in
    the remap, [remove_class] raises a lookup error ([KeyError]). *)
Theorem remove_class_lookup {G : Glob} (classes_config : list Z) (txt_path : string)
    (to_remove : list Z) (filename : string) (fs : filesystem) (keep : gmap Z Z) :
  TXTAnnotations.update_classes classes_config to_remove = Ok keep →
  all_records fs (get_files fs txt_path filename)
    (λ line, is_Some (record_class line)) →
  let files := get_files fs txt_path filename in
  let run := TXTAnnotations.remove_class classes_config txt_path to_remove filename fs in
  (all_records fs files (covered keep to_remove) →
     run.2 = Ok tt
     ∧ (∀ f, f ∈ files →
          run.1 !! f = Some (remap_text keep to_remove (read_text fs f)))
     ∧ (∀ p, p ∉ files → run.1 !! p = fs !! p))
  ∧ (¬ all_records fs files (covered keep to_remove) → run.2 = Raise KeyError).
Proof.
  intros Hkeep Hwf. cbn zeta. unfold TXTAnnotations.remove_class. rewrite Hkeep.
  destruct (for_each_rewrite_file keep to_remove _ fs
              (NoDup_glob fs _) Hwf)
    as [[Hall (fs' & Hrun & Hin & Hout)]|[Hnot [fs' Hrun]]].
  - unfold get_files in *. rewrite Hrun. cbn [fst snd]. split; [done|].
    intros Hnot. by destruct Hnot.
  - unfold get_files in *. rewrite Hrun. cbn [fst snd]. split; [|done].
    intros Hall. by destruct Hnot.
Qed.

(** The amended C5 on a file with one record of each class 0, 1, 2, for
    the Class Config [(0, 1, 2)] and [to_remove = (1)]. *)
Lemma remove_class_lookup_witness :
  let files := get_files (G:=sample_glob) three_classes "labels" "*" in
  let run := TXTAnnotations.remove_class (G:=sample_glob)
               [0; 1; 2] "labels" [1] "*" three_classes in
  (all_records three_classes files (covered {[ 0 := 0; 2 := 1 ]} [1]) →
     run.2 = Ok tt
     ∧ (∀ f, f ∈ files →
          run.1 !! f
          = Some (remap_text {[ 0 := 0; 2 := 1 ]} [1] (read_text three_classes f)))
     ∧ (∀ p, p ∉ files → run.1 !! p = three_classes !! p))
  ∧ (¬ all_records three_classes files (covered {[ 0 := 0; 2 := 1 ]} [1]) →
     run.2 = Raise KeyError).
Proof.
  apply (remove_class_lookup (G:=sample_glob)
           [0; 1; 2] "labels" [1] "*" three_classes {[ 0 := 0; 2 := 1 ]}).
  - by vm_compute.
  - unfold all_records. apply (bool_decide_unpack _). by vm_compute.
Defined.

Example remove_class_three_classes :
  TXTAnnotations.remove_class (G:=sample_glob) [0; 1; 2] "labels" [1] "*" three_classes
  = ({[ "labels/a.txt" :=
          "0 0.1 0.2 0.3 0.4" +:+ nl +:+ "1 0.9 0.9 0.1 0.1" +:+ nl ]}, Ok tt).
Proof. by vm_compute. Qed.

(** C5 as stated fails: with the Class Config [(0, 1, 2)] and
    [to_remove = (1)], a record of class 3 is neither removed nor
    remapped; [remove_class] does not drop it but raises [KeyError], and
    the file keeps the record. *)
Lemma remove_class_lookup_counterexample :
  ∃ keep : gmap Z Z,
    TXTAnnotations.update_classes [0; 1; 2] [1] = Ok keep
    ∧ record_class ("3 0.5 0.5 0.1 0.1" +:+ nl) = Some 3
    ∧ (3 ∉ [1]) ∧ keep !! 3 = None
    ∧ TXTAnnotations.remove_class (G:=sample_glob) [0; 1; 2] "labels" [1] "*" stray_class
      = (stray_class, Raise KeyError).
Proof.
  exists {[ 0 := 0; 2 := 1 ]}. split_and!; try by vm_compute.
  apply (bool_decide_unpack _). by vm_compute.
Qed.

(** ** The importer: [json2txt] *)

Lemma for_each_app_ok {A} (body : A → io unit) xs ys (fs fs1 : filesystem) :
  for_each body xs fs = (fs1, Ok tt) →
  for_each body (xs ++ ys) fs = for_each body ys fs1.
Proof.
  revert fs. induction xs as [|x xs IH]; intros fs Hrun.
  - cbn in Hrun. by injection Hrun as ->.
  - cbn [for_each app] in *. destruct (body x fs) as [fs2 [[]|e]]; [|done].
    by apply IH.
Qed.

Lemma json2txt_file_parse_failure {J : JSON2TXT.Json} txt_path json_file
    (fs : filesystem) :
  JSON2TXT.json_load (JSON2TXT.json_text txt_path json_file fs) = None →
  JSON2TXT.json2txt_file txt_path json_file fs
  = (<[txt_of txt_path json_file := EmptyString]> fs, Raise JSONDecodeError).
Proof.
  intros Hbad. unfold JSON2TXT.json2txt_file, JSON2TXT.json_text, txt_of in *.
  by rewrite Hbad.
Qed.

(** C10. [json2txt] opens (and thereby empties) the output file before
    it parses the JSON file: when the import reaches a JSON file whose
    text is no JSON document (the files before it, in the order of the
    listing, having been imported), the call raises the parse error and
    the output file of that JSON file is left empty, whatever it held
    before. *)
Theorem json2txt_parse_failure {G : Glob} {J : JSON2TXT.Json}
    (json_path txt_path filename : string) (fs fs1 : filesystem)
    (imported : list string) (json_file : string) (pending : list string) :
  glob fs (json_path +:+ "/" +:+ filename) = imported ++ json_file :: pending →
  for_each (JSON2TXT.json2txt_file txt_path) imported fs = (fs1, Ok tt) →
  JSON2TXT.json_load (JSON2TXT.json_text txt_path json_file fs1) = None →
  ∃ fs' : filesystem,
    JSON2TXT.json2txt json_path txt_path filename fs = (fs', Raise JSONDecodeError)
    ∧ fs' !! txt_of txt_path json_file = Some EmptyString.
Proof.
  intros Hlist Hdone Hbad.
  exists (<[txt_of txt_path json_file := EmptyString]> fs1).
  split; [|by rewrite lookup_insert_eq].
  unfold JSON2TXT.json2txt. rewrite Hlist.
  rewrite (for_each_app_ok _ _ _ _ _ Hdone). cbn [for_each].
  by rewrite json2txt_file_parse_failure.
Qed.

(** C10 on a directory whose only JSON file is broken while its
    annotation file holds a record. *)
Lemma json2txt_parse_failure_witness :
  ∃ fs' : filesystem,
    JSON2TXT.json2txt (G:=sample_glob) (J:=sample_json) "json" "labels" "*" broken_json
    = (fs', Raise JSONDecodeError)
    ∧ fs' !! txt_of "labels" "json/a.json" = Some EmptyString.
Proof.
  apply (json2txt_parse_failure (G:=sample_glob) (J:=sample_json)
           "json" "labels" "*" broken_json broken_json [] "json/a.json" []);
    by vm_compute.
Defined.

(** ** The analyzer: [counter] *)

Section counter_facts.
Import Analyse.

(** Every listed class starts with the tally 0. *)
Lemma init_tally_lookup classes cl :
  init_tally classes !! cl = if decide (cl ∈ classes) then Some 0 else None.
Proof.
  unfold init_tally.
  assert (Hgen : ∀ cnt : gmap pykey Z,
    foldl (λ cnt cl, <[cl := 0]> cnt) cnt classes !! cl
    = if decide (cl ∈ classes) then Some 0 else cnt !! cl).
  { induction classes as [|c classes IH]; intros cnt.
    - cbn. rewrite decide_False; [done|]. by intros ?%elem_of_nil.
    - cbn [foldl]. rewrite IH.
      destruct (decide (cl ∈ classes)) as [Hin|Hnin].
      + rewrite decide_True; [done|]. by apply elem_of_cons; right.
      + destruct (decide (cl = c)) as [->|Hne].
        * rewrite lookup_insert_eq, decide_True; [done|]. by apply elem_of_cons; left.
        * rewrite lookup_insert_ne by done. rewrite decide_False; [done|].
          by intros [?|?]%elem_of_cons. }
  by rewrite Hgen, lookup_empty.
Qed.

(** One more occurrence of a token: a token already in the tally gains 1;
    a token not yet in the tally enters it with the tally 0. *)
Lemma count_token_lookup (cnt : gmap pykey Z) clss :
  count_token cnt clss !! PyStr clss
  = Some (match cnt !! PyStr clss with Some n => n + 1 | None => 0 end).
Proof.
  unfold count_token. destruct (cnt !! PyStr clss) as [n|] eqn:Hc.
  - by rewrite lookup_insert_eq, Hc.
  - by rewrite !lookup_insert_eq.
Qed.

(** A token that is not in the tally and then occurs on [n + 1] lines in
    a row ends with the tally [n], one less than its occurrences. *)
Lemma count_token_repeat (n : nat) (cnt : gmap pykey Z) clss :
  cnt !! PyStr clss = None →
  Nat.iter (S n) (λ cnt, count_token cnt clss) cnt !! PyStr clss = Some (Z.of_nat n).
Proof.
  intros Hnone. induction n as [|n IH].
  - cbn. by rewrite count_token_lookup, Hnone.
  - rewrite Nat.iter_succ. cbv beta.
    rewrite count_token_lookup, IH. f_equal. lia.
Qed.

End counter_facts.

(** With the classes given as text, as the tokens of the files are, the
    scenario of C3 yields the expected counts. *)
Example counter_str_classes :
  Analyse.counter (G:=sample_glob) "data" "*"
    [Analyse.PyStr "0"; Analyse.PyStr "1"; Analyse.PyStr "2"] two_files
  = Ok [(Analyse.PyStr "0", 2); (Analyse.PyStr "1", 1); (Analyse.PyStr "2", 0)].
Proof. by vm_compute. Qed.

(** The tally of the scenario of C3 before sorting: the integer classes
    0, 1, 2 keep the tally 0, the tokens ["0"] and ["1"] are separate
    keys. *)
Example tally_two_files :
  Analyse.tally (G:=sample_glob) "data" "*"
    [Analyse.PyInt 0; Analyse.PyInt 1; Analyse.PyInt 2] two_files
  = {[ Analyse.PyInt 0 := 0; Analyse.PyInt 1 := 0; Analyse.PyInt 2 := 0;
       Analyse.PyStr "0" := 1; Analyse.PyStr "1" := 0 ]}.
Proof. by vm_compute. Qed.

(** C3 (the code at the scenario). On the directory with [a.txt] holding
    the lines ["0 .. "] and ["1 .."] and [b.txt] holding ["0 .."], with
    [classes = (0, 1, 2)], [counter] does not return
    [[(0, 2), (1, 1), (2, 0)]]: sorting the tally compares an [int] key
    with a [str] key and raises [TypeError]. *)
Theorem counter_two_files :
  Analyse.counter (G:=sample_glob) "data" "*"
    [Analyse.PyInt 0; Analyse.PyInt 1; Analyse.PyInt 2] two_files
  = Raise TypeError.
Proof. by vm_compute. Qed.

(** C4 (the code at a failing input). A file with one record of the
    unlisted class 7 and no [classes]: the token ["7"] enters the tally
    with -1 and is incremented once, so its tally after its first
    occurrence is 0, not 1. *)
Theorem counter_unlisted_token :
  Analyse.counter (G:=sample_glob) "data" "*" [] one_record
  = Ok [(Analyse.PyStr "7", 0)].
Proof. by vm_compute. Qed.
(** ** Text round trips *)

Lemma join_cons l ls : join (l :: ls) = l +:+ join ls.
Proof. reflexivity. Qed.

Lemma join_app ls1 ls2 : join (ls1 ++ ls2) = join ls1 +:+ join ls2.
Proof.
  induction ls1 as [|l ls1 IH]; [by rewrite string_app_nil|].
  by rewrite <-app_comm_cons, !join_cons, IH, string_app_assoc.
Qed.

(** Joining the lines of a text gives the text back. *)
Lemma join_readlines s : join (Py.readlines s) = s.
Proof.
  induction s as [|c s IH]; [done|].
  cbn [Py.readlines]. destruct (decide (c = Py.newline)) as [->|_].
  - by rewrite join_cons, IH, string_app_cons, string_app_nil.
  - destruct (Py.readlines s) as [|l ls].
    + cbn in IH. subst s. done.
    + rewrite join_cons in *. by rewrite string_app_cons, IH.
Qed.

(** A line that ends with its newline, and has no other. *)
Lemma readlines_complete body rest :
  occurs Py.newline body = false →
  Py.readlines (body +:+ String Py.newline rest)
  = (body +:+ String Py.newline EmptyString) :: Py.readlines rest.
Proof.
  induction body as [|c body IH]; intros Hfree.
  - rewrite !string_app_nil. cbn [Py.readlines]. by rewrite decide_True.
  - cbn [occurs] in Hfree. apply orb_false_iff in Hfree as [Hc Hfree].
    apply bool_decide_eq_false in Hc.
    rewrite !string_app_cons. cbn [Py.readlines].
    rewrite decide_False by done. by rewrite IH.
Qed.

(** A last line without newline. *)
Lemma readlines_partial body :
  occurs Py.newline body = false → body ≠ EmptyString →
  Py.readlines body = [body].
Proof.
  induction body as [|c body IH]; intros Hfree Hne; [done|].
  cbn [occurs] in Hfree. apply orb_false_iff in Hfree as [Hc Hfree].
  apply bool_decide_eq_false in Hc.
  cbn [Py.readlines]. rewrite decide_False by done.
  destruct body as [|d body]; [done|].
  by rewrite IH.
Qed.

Lemma readlines_shaped s : lines_shaped (Py.readlines s).
Proof.
  induction s as [|c s IH]; [done|].
  cbn [Py.readlines]. destruct (decide (c = Py.newline)) as [->|Hc].
  - left. split; [|done]. by exists EmptyString.
  - destruct (Py.readlines s) as [|l ls].
    + right. split; [|done]. split; [|done].
      cbn. by rewrite bool_decide_eq_false_2.
    + destruct IH as [[[body [Hfree ->]] Hls]|[[Hfree Hne] ->]].
      * left. split; [|done]. exists (String c body). split.
        -- cbn. by rewrite bool_decide_eq_false_2.
        -- by rewrite string_app_cons.
      * right. split; [|done]. split; [|done].
        cbn. by rewrite bool_decide_eq_false_2.
Qed.

Lemma readlines_join ls : lines_shaped ls → Py.readlines (join ls) = ls.
Proof.
  induction ls as [|l ls IH]; [done|].
  intros [[[body [Hfree ->]] Hls]|[[Hfree Hne] ->]].
  - rewrite join_cons. unfold nl. rewrite string_app_assoc, string_app_cons, string_app_nil.
    rewrite readlines_complete by done. by rewrite IH.
  - rewrite join_cons. cbn [join foldr]. rewrite string_app_nil_r.
    by apply readlines_partial.
Qed.

(** *** [int(str(n))] *)

Lemma digit_value_pretty d :
  (d < 10)%N → Py.digit_value (pretty_N_char d) = Some (Z.of_N d).
Proof.
  intros Hd.
  assert (d = 0 ∨ d = 1 ∨ d = 2 ∨ d = 3 ∨ d = 4 ∨ d = 5 ∨ d = 6 ∨ d = 7
          ∨ d = 8 ∨ d = 9)%N as Hcases by lia.
  by repeat (destruct Hcases as [->|Hcases]; [reflexivity|]); subst.
Qed.

Lemma pretty_N_char_plain d :
  (d < 10)%N →
  let c := pretty_N_char d in
  c ≠ "_"%char ∧ c ≠ "+"%char ∧ c ≠ "-"%char ∧ c ≠ " "%char ∧ c ≠ Py.newline
  ∧ Py.is_space c = false.
Proof.
  intros Hd.
  assert (d = 0 ∨ d = 1 ∨ d = 2 ∨ d = 3 ∨ d = 4 ∨ d = 5 ∨ d = 6 ∨ d = 7
          ∨ d = 8 ∨ d = 9)%N as Hcases by lia.
  by repeat (destruct Hcases as [->|Hcases]; [by repeat split|]); subst.
Qed.

(** Reading the digits that [pretty_N_go] writes in front of [s]. *)
Lemma parse_digits_pretty x : ∀ s acc after,
  (0 < x)%N →
  ∃ k : Z, 0 ≤ k ∧
    Py.parse_digits acc after (pretty_N_go x s)
    = Py.parse_digits (acc * 10 ^ k + Z.of_N x) true s.
Proof.
  induction (N.lt_wf_0 x) as [x _ IH]; intros s acc after Hx.
  rewrite pretty_N_go_step by done.
  assert (Hd : (x `mod` 10 < 10)%N) by (by apply N.mod_lt).
  destruct (decide (x `div` 10 = 0)%N) as [Hq|Hq].
  - rewrite Hq, pretty_N_go_0. exists 1. split; [done|].
    cbn [Py.parse_digits].
    destruct (pretty_N_char_plain _ Hd) as (Hu & _).
    rewrite decide_False by done.
    rewrite digit_value_pretty by done.
    f_equal. pose proof (N.div_mod x 10 ltac:(done)) as Hdm. rewrite Hq in Hdm.
    rewrite Z.pow_1_r. lia.
  - destruct (IH (x `div` 10)%N) with
      (s := String (pretty_N_char (x `mod` 10)) s) (acc := acc) (after := after)
      as (k & Hk & ->).
    { apply N.div_lt; lia. }
    { by apply N.neq_0_lt_0. }
    exists (k + 1). split; [lia|].
    cbn [Py.parse_digits].
    destruct (pretty_N_char_plain _ Hd) as (Hu & _).
    rewrite decide_False by done.
    rewrite digit_value_pretty by done.
    f_equal. rewrite Z.pow_add_r, Z.pow_1_r by lia.
    pose proof (N.div_mod x 10 ltac:(done)) as Hdm.
    set (q := (x `div` 10)%N) in *. set (r := (x `mod` 10)%N) in *.
    set (t := 10 ^ k). clearbody q r t. lia.
Qed.

(** Every character that [pretty_N_go] writes is a digit. *)
Lemma pretty_N_go_chars (P : ascii → Prop) x : ∀ s,
  (∀ d, (d < 10)%N → P (pretty_N_char d)) →
  (∀ c, occurs c s = true → P c) →
  ∀ c, occurs c (pretty_N_go x s) = true → P c.
Proof.
  induction (N.lt_wf_0 x) as [x _ IH]; intros s Hdigit Hs c.
  destruct (decide (x = 0)%N) as [->|Hx]; [rewrite pretty_N_go_0; auto|].
  rewrite pretty_N_go_step by lia.
  apply IH; [apply N.div_lt; lia|done|].
  intros c'. cbn [occurs]. rewrite orb_true_iff, bool_decide_eq_true.
  intros [<-|Hc]; [|by auto].
  apply Hdigit. by apply N.mod_lt.
Qed.

Lemma pretty_N_go_head x s :
  (0 < x)%N →
  ∃ d rest, (d < 10)%N ∧ pretty_N_go x s = String (pretty_N_char d) rest.
Proof.
  revert s. induction (N.lt_wf_0 x) as [x _ IH]; intros s Hx.
  rewrite pretty_N_go_step by done.
  destruct (decide (x `div` 10 = 0)%N) as [Hq|Hq].
  - rewrite Hq, pretty_N_go_0. exists (x `mod` 10)%N, s.
    split; [by apply N.mod_lt|done].
  - apply IH; [apply N.div_lt; lia|by apply N.neq_0_lt_0].
Qed.

(** The characters of [str(n)]: digits and the minus sign. *)
Lemma str_of_int_chars (P : ascii → Prop) n :
  (∀ d, (d < 10)%N → P (pretty_N_char d)) → P "-"%char →
  ∀ c, occurs c (Py.str_of_int n) = true → P c.
Proof.
  intros Hdigit Hminus.
  assert (Hpos : ∀ p c, occurs c (pretty (N.pos p)) = true → P c).
  { intros p c. unfold pretty, pretty_N. rewrite decide_False by done.
    apply pretty_N_go_chars; [done|]. by intros c'. }
  unfold Py.str_of_int, pretty, pretty_Z. destruct n as [|p|p]; intros c.
  - cbn [occurs]. rewrite orb_false_r, bool_decide_eq_true. intros <-.
    apply (Hdigit 0%N). lia.
  - apply Hpos.
  - change ("-" +:+ pretty p) with (String "-" (pretty (N.pos p))).
    cbn [occurs]. rewrite orb_true_iff, bool_decide_eq_true.
    intros [<-|Hc]; [done|by eapply Hpos].
Qed.

Lemma str_of_int_free c n :
  (∀ d, (d < 10)%N → pretty_N_char d ≠ c) → c ≠ "-"%char →
  occurs c (Py.str_of_int n) = false.
Proof.
  intros Hdigit Hminus. apply not_true_is_false. intros Hc.
  by apply (str_of_int_chars (λ c', c' ≠ c) n) in Hc.
Qed.

Lemma str_of_int_no_space n : occurs " " (Py.str_of_int n) = false.
Proof.
  apply str_of_int_free; [|done]. intros d Hd. by apply pretty_N_char_plain.
Qed.

Lemma str_of_int_no_newline n : occurs Py.newline (Py.str_of_int n) = false.
Proof.
  apply str_of_int_free; [|done]. intros d Hd. by apply pretty_N_char_plain.
Qed.

Lemma lstrip_id s :
  (∀ c, occurs c s = true → Py.is_space c = false) → Py.lstrip s = s.
Proof.
  destruct s as [|c s]; [done|]. intros Hs. cbn [Py.lstrip].
  rewrite (Hs c); [done|]. cbn. by rewrite bool_decide_eq_true_2.
Qed.

Lemma occurs_rev_app c s : ∀ acc,
  occurs c (String.rev_app s acc) = occurs c s || occurs c acc.
Proof.
  induction s as [|d s IH]; intros acc; [done|].
  cbn [String.rev_app]. rewrite IH. cbn [occurs].
  by destruct (bool_decide (d = c)), (occurs c s), (occurs c acc).
Qed.

Lemma rev_app_rev_app s : ∀ acc1 acc2,
  String.rev_app (String.rev_app s acc1) acc2
  = String.rev_app acc1 (s +:+ acc2).
Proof.
  induction s as [|d s IH]; intros acc1 acc2.
  - by rewrite string_app_nil.
  - cbn [String.rev_app]. rewrite IH. cbn [String.rev_app].
    by rewrite string_app_cons.
Qed.

Lemma strip_id s :
  (∀ c, occurs c s = true → Py.is_space c = false) → Py.strip s = s.
Proof.
  intros Hs. unfold Py.strip. rewrite (lstrip_id s) by done.
  rewrite lstrip_id.
  - unfold String.rev. rewrite rev_app_rev_app. cbn [String.rev_app].
    by rewrite string_app_nil_r.
  - intros c. unfold String.rev. rewrite occurs_rev_app. cbn [occurs].
    rewrite orb_false_r. apply Hs.
Qed.

Lemma pretty_pos_no_space p c :
  occurs c (pretty (N.pos p)) = true → Py.is_space c = false.
Proof.
  unfold pretty, pretty_N. rewrite decide_False by done.
  apply (pretty_N_go_chars (λ c, Py.is_space c = false)); [|done].
  intros d Hd. by apply pretty_N_char_plain.
Qed.

Lemma parse_digits_pos p :
  Py.parse_digits 0 false (pretty (N.pos p)) = Some (Z.pos p).
Proof.
  unfold pretty, pretty_N. rewrite decide_False by done.
  destruct (parse_digits_pretty (N.pos p) EmptyString 0 false) as (k & Hk & ->);
    [lia|].
  cbn [Py.parse_digits]. f_equal; lia.
Qed.

(** Without a sign in front, [int] reads the digits. *)
Lemma int_of_str_unsigned s :
  Py.strip s = s →
  (∀ c rest, s = String c rest → c ≠ "+"%char ∧ c ≠ "-"%char) →
  Py.int_of_str s
  = match Py.parse_digits 0 false s with
    | Some n => Ok n
    | None => Raise ValueError
    end.
Proof.
  intros Hstrip Hhead. unfold Py.int_of_str. rewrite Hstrip.
  destruct s as [|[[] [] [] [] [] [] [] []] rest]; try done;
    by destruct (Hhead _ _ eq_refl).
Qed.

(** [int(str(n)) == n]. *)
Lemma int_of_str_of_int n : Py.int_of_str (Py.str_of_int n) = Ok n.
Proof.
  unfold Py.str_of_int. destruct n as [|p|p].
  - reflexivity.
  - unfold pretty at 1, pretty_Z, pretty at 1, pretty_positive.
    rewrite int_of_str_unsigned.
    + by rewrite parse_digits_pos.
    + apply strip_id, pretty_pos_no_space.
    + intros c rest. unfold pretty, pretty_N. rewrite decide_False by done.
      destruct (pretty_N_go_head (N.pos p) EmptyString) as (d & rest' & Hd & ->);
        [lia|].
      intros [= <- _]. by destruct (pretty_N_char_plain d Hd) as (_ & ? & ? & _).
  - unfold Py.int_of_str, pretty at 1, pretty_Z, pretty at 1, pretty_positive.
    change ("-" +:+ pretty (N.pos p)) with (String "-" (pretty (N.pos p))).
    rewrite strip_id.
    2:{ intros c. cbn [occurs]. rewrite orb_true_iff, bool_decide_eq_true.
        intros [<-|Hc]; [done|by eapply pretty_pos_no_space]. }
    by rewrite parse_digits_pos.
Qed.

(** ** The remap in closed form *)

Section update_classes_closed.
Context (to_remove : list Z).

Local Abbreviation step := (TXTAnnotations.update_step to_remove).
Local Abbreviation loop := (TXTAnnotations.update_loop to_remove).
Local Abbreviation removed := (λ l : list Z, filter (λ x, x ∈ to_remove) l).

(** An entry of the dictionary is never overwritten. *)
Lemma update_loop_keeps config : ∀ keep shift c v,
  keep !! c = Some v → (loop config (keep, shift)).1 !! c = Some v.
Proof.
  induction config as [|x config IH]; intros keep shift c v Hc; [done|].
  rewrite update_loop_cons. unfold TXTAnnotations.update_step.
  destruct (decide (x ∈ to_remove)); [by apply IH|].
  destruct (keep !! x) eqn:Hx; [by apply IH|].
  apply IH. rewrite lookup_insert_ne; [done|]. intros ->. congruence.
Qed.

(** Over entries other than [c], the entry of [c] stays as it is and the
    counter grows by the number of removed entries. *)
Lemma update_loop_skip pre : ∀ keep shift c,
  c ∉ pre →
  (loop pre (keep, shift)).1 !! c = keep !! c
  ∧ (loop pre (keep, shift)).2 = shift + Z.of_nat (length (removed pre)).
Proof.
  induction pre as [|x pre IH]; intros keep shift c Hc.
  - cbn. split; [done|lia].
  - apply not_elem_of_cons in Hc as [Hcx Hc].
    rewrite update_loop_cons. unfold TXTAnnotations.update_step.
    destruct (decide (x ∈ to_remove)) as [Hx|Hx].
    + rewrite filter_cons_True by done.
      destruct (IH keep (shift + 1) c Hc) as [-> ->]. split; [done|].
      cbn [length]. lia.
    + rewrite filter_cons_False by done.
      destruct (keep !! x) eqn:Hkx; [by apply IH|].
      destruct (IH (<[x := x - shift]> keep) shift c Hc) as [-> ->].
      split; [|done]. by rewrite lookup_insert_ne.
Qed.

Lemma update_loop_dom config : ∀ keep shift c,
  is_Some ((loop config (keep, shift)).1 !! c)
  ↔ is_Some (keep !! c) ∨ (c ∈ config ∧ c ∉ to_remove).
Proof.
  induction config as [|x config IH]; intros keep shift c.
  - cbn. rewrite elem_of_nil. tauto.
  - rewrite update_loop_cons. unfold TXTAnnotations.update_step.
    rewrite elem_of_cons.
    destruct (decide (x ∈ to_remove)) as [Hx|Hx].
    + rewrite IH. split; [tauto|].
      intros [?|[[->|?] ?]]; tauto.
    + destruct (keep !! x) eqn:Hkx.
      * rewrite IH. split; [tauto|].
        intros [?|[[->|?] ?]]; [tauto| |tauto]. left. by rewrite Hkx.
      * rewrite IH. destruct (decide (c = x)) as [->|Hcx].
        -- rewrite lookup_insert_eq. split; [|by left; eexists].
           intros _. right. tauto.
        -- rewrite lookup_insert_ne by done. split; [tauto|].
           intros [?|[[?|?] ?]]; tauto.
Qed.

End update_classes_closed.

(** X1. On every non-empty Class Config [update_classes] returns a
    dictionary whose keys are exactly the config entries that are not
    listed for removal, and the new id of such a class is its own value
    minus the number of config entries listed for removal that stand
    before its first occurrence. *)
Theorem update_classes_closed_form (classes_config to_remove : list Z) :
  classes_config ≠ [] →
  ∃ keep : gmap Z Z,
    TXTAnnotations.update_classes classes_config to_remove = Ok keep
    ∧ (∀ c, is_Some (keep !! c) ↔ c ∈ classes_config ∧ c ∉ to_remove)
    ∧ (∀ pre c post,
         classes_config = pre ++ c :: post → c ∉ pre → c ∉ to_remove →
         keep !! c
         = Some (c - Z.of_nat (length (filter (λ x, x ∈ to_remove) pre)))).
Proof.
  intros Hne. destruct classes_config as [|c0 config]; [done|].
  eexists. split; [reflexivity|]. split.
  - intros c. rewrite update_loop_dom, lookup_empty.
    split; [intros [[? [=]]|?]; tauto|tauto].
  - intros pre c post -> Hpre Hc.
    rewrite update_loop_app, update_loop_cons.
    destruct (TXTAnnotations.update_loop to_remove pre (∅, 0)) as [keep shift] eqn:Hloop.
    destruct (update_loop_skip to_remove pre ∅ 0 c Hpre) as [Hkeep Hshift].
    rewrite Hloop in Hkeep, Hshift. cbn [fst snd] in Hkeep, Hshift.
    rewrite lookup_empty in Hkeep.
    rewrite update_step_fresh by done.
    erewrite update_loop_keeps; [|apply lookup_insert_eq].
    by rewrite Hshift, Z.add_0_l.
Qed.

Lemma update_classes_closed_form_witness :
  ∃ keep : gmap Z Z,
    TXTAnnotations.update_classes [4; 9; 6; 9; 7] [9; 4] = Ok keep
    ∧ (∀ c, is_Some (keep !! c) ↔ c ∈ [4; 9; 6; 9; 7] ∧ c ∉ [9; 4])
    ∧ (∀ pre c post,
         [4; 9; 6; 9; 7] = pre ++ c :: post → c ∉ pre → c ∉ [9; 4] →
         keep !! c
         = Some (c - Z.of_nat (length (filter (λ x, x ∈ [9; 4]) pre)))).
Proof. by apply (update_classes_closed_form [4; 9; 6; 9; 7] [9; 4]). Defined.
(** ** Records after a rewrite *)

Lemma split_once_inv sep s h t :
  Py.split_once sep s = (h, Some t) → s = h +:+ String sep t.
Proof.
  revert h. induction s as [|c s IH]; intros h; [done|].
  cbn [Py.split_once]. destruct (decide (c = sep)) as [->|_].
  - intros [= <- <-]. by rewrite string_app_nil.
  - destruct (Py.split_once sep s) as [h' t'] eqn:Hsplit.
    intros [= <- ->]. by rewrite string_app_cons, <-(IH h').
Qed.

Lemma record_class_inv line c :
  record_class line = Some c →
  ∃ token rest,
    Py.split_once " " line = (token, Some rest)
    ∧ line = token +:+ String " " rest ∧ Py.int_of_str token = Ok c.
Proof.
  unfold record_class.
  destruct (Py.split_once " " line) as [token [rest|]] eqn:Hsplit; [|done].
  destruct (Py.int_of_str token) as [c'|] eqn:Hint; [|done].
  intros [= ->]. exists token, rest. split_and!; [done| |done].
  by apply split_once_inv.
Qed.

(** A record that starts with [str(c)] and a space has the class [c]. *)
Lemma record_class_str c rest :
  record_class (Py.str_of_int c +:+ String " " rest) = Some c.
Proof.
  unfold record_class.
  rewrite split_once_app by apply str_of_int_no_space.
  by rewrite int_of_str_of_int.
Qed.

Lemma complete_cons c s :
  complete (String c s)
  ↔ (c = Py.newline ∧ s = EmptyString) ∨ (c ≠ Py.newline ∧ complete s).
Proof.
  split.
  - intros [[|d body] [Hfree Heq]].
    + rewrite string_app_nil in Heq. injection Heq as -> ->. by left.
    + rewrite string_app_cons in Heq. injection Heq as -> ->.
      cbn [occurs] in Hfree. apply orb_false_iff in Hfree as [Hd Hfree].
      apply bool_decide_eq_false in Hd. right. split; [done|by exists body].
  - intros [[-> ->]|[Hc [body [Hfree ->]]]].
    + by exists EmptyString.
    + exists (String c body). split; [|by rewrite string_app_cons].
      cbn [occurs]. by rewrite bool_decide_eq_false_2.
Qed.

Lemma complete_app pre s :
  occurs Py.newline pre = false → complete s → complete (pre +:+ s).
Proof.
  intros Hpre [body [Hfree ->]]. exists (pre +:+ body).
  split; [|by rewrite string_app_assoc].
  by rewrite occurs_app, Hpre, Hfree.
Qed.

Lemma complete_drop pre c s :
  c ≠ Py.newline → complete (pre +:+ String c s) → complete s.
Proof.
  intros Hc. induction pre as [|d pre IH].
  - rewrite string_app_nil, complete_cons. intros [[? _]|[_ ?]]; done.
  - rewrite string_app_cons, complete_cons. intros [[_ Hnil]|[_ Hs]]; [|auto].
    by destruct pre.
Qed.

(** Replacing the class token of a line by [str(n)] keeps the shape of
    the line. *)
Lemma retoken_shape n token rest :
  let line := token +:+ String " " rest in
  let out := Py.str_of_int n +:+ " " +:+ rest in
  (complete line → complete out) ∧ (partial line → partial out).
Proof.
  cbn zeta. change (" " +:+ rest) with (String " " rest). split.
  - intros Hline. apply complete_app; [apply str_of_int_no_newline|].
    apply complete_cons. right. split; [done|].
    by apply (complete_drop token " ").
  - intros [Hfree _]. split.
    + rewrite occurs_app in *. apply orb_false_iff in Hfree as [_ Hfree].
      by rewrite str_of_int_no_newline.
    + by destruct (Py.str_of_int n).
Qed.

Section rewritten_records.
Context (keep : gmap Z Z) (to_remove : list Z).

Local Abbreviation well_formed := (λ line, is_Some (record_class line)).
Local Abbreviation remapped := (remap_record keep to_remove).

Lemma remap_record_Some line out :
  remapped line = Some out →
  ∃ c new_class,
    record_class line = Some c ∧ (c ∉ to_remove) ∧ keep !! c = Some new_class
    ∧ record_class out = Some new_class
    ∧ (complete line → complete out) ∧ (partial line → partial out).
Proof.
  unfold remap_record.
  destruct (record_class line) as [c|] eqn:Hclass; [|done]. cbn.
  destruct (decide (c ∈ to_remove)) as [|Hc]; [done|].
  destruct (keep !! c) as [new_class|] eqn:Hkeep; [|done]. cbn.
  intros [= <-].
  apply record_class_inv in Hclass as (token & rest & Hsplit & -> & Hint).
  rewrite Hsplit. cbn [snd default].
  exists c, new_class. split_and!; [|done|done| |apply retoken_shape..].
  - done.
  - change (" " +:+ rest) with (String " " rest). apply record_class_str.
Qed.

Lemma remap_record_None line c :
  record_class line = Some c →
  remapped line = None ↔ c ∈ to_remove ∨ keep !! c = None.
Proof.
  intros Hclass. unfold remap_record. rewrite Hclass. cbn.
  destruct (decide (c ∈ to_remove)); [tauto|].
  destruct (keep !! c); cbn.
  - split; [done|]. intros [?|?]; done.
  - split; [by right|done].
Qed.

(** The lines written for a list of well-formed lines. *)
Lemma remapped_lines lines :
  lines_shaped lines → Forall well_formed lines →
  let outs := omap remapped lines in
  lines_shaped outs
  ∧ Forall well_formed outs
  ∧ omap record_class outs
    = omap (λ c, keep !! c)
        (filter (λ c, c ∉ to_remove) (omap record_class lines)).
Proof.
  cbn zeta. induction lines as [|line lines IH]; intros Hshape Hwf; [done|].
  apply Forall_cons in Hwf as [[c Hclass] Hwf].
  assert (Htail : lines_shaped lines).
  { destruct Hshape as [[_ ?]|[_ ->]]; done. }
  destruct (IH Htail Hwf) as (IHshape & IHwf & IHclasses).
  cbn [omap list_omap]. rewrite Hclass.
  destruct (remapped line) as [out|] eqn:Hout.
  - apply remap_record_Some in Hout
      as (c' & new_class & Hc' & Hc & Hkeep & Hclass' & Hcomplete & Hpartial).
    assert (c' = c) as -> by congruence.
    rewrite filter_cons_True by done. cbn [omap list_omap].
    rewrite Hkeep, Hclass', IHclasses. split_and!; [|by constructor|done].
    destruct Hshape as [[? _]|[? ->]]; [left|right]; auto.
  - apply (remap_record_None _ c) in Hout; [|done].
    split_and!; [done..|].
    destruct (decide (c ∈ to_remove)) as [Hc|Hc].
    + by rewrite filter_cons_False by (by intros ?).
    + destruct Hout as [?|Hkeep]; [done|].
      rewrite filter_cons_True by done. cbn [omap list_omap]. by rewrite Hkeep.
Qed.

(** Reading the rewritten text again gives the rewritten lines. *)
Lemma readlines_remap_text text :
  Forall well_formed (Py.readlines text) →
  Py.readlines (remap_text keep to_remove text)
  = omap remapped (Py.readlines text).
Proof.
  intros Hwf. unfold remap_text. apply readlines_join.
  by apply remapped_lines; [apply readlines_shaped|].
Qed.

Lemma classes_of_remap_text text :
  Forall well_formed (Py.readlines text) →
  classes_of (remap_text keep to_remove text)
  = omap (λ c, keep !! c) (filter (λ c, c ∉ to_remove) (classes_of text))
  ∧ Forall well_formed (Py.readlines (remap_text keep to_remove text)).
Proof.
  intros Hwf. unfold classes_of. rewrite readlines_remap_text by done.
  destruct (remapped_lines (Py.readlines text)) as (_ & ? & ?);
    [apply readlines_shaped|done|done].
Qed.

End rewritten_records.
(** ** [remove_class] on the files *)

(** A successful run of [remove_class], file by file. *)
Lemma remove_class_run {G : Glob} (classes_config : list Z) (txt_path : string)
    (to_remove : list Z) (filename : string) (fs : filesystem) (keep : gmap Z Z) :
  TXTAnnotations.update_classes classes_config to_remove = Ok keep →
  all_records fs (get_files fs txt_path filename)
    (λ line, is_Some (record_class line)) →
  all_records fs (get_files fs txt_path filename) (covered keep to_remove) →
  ∃ fs' : filesystem,
    TXTAnnotations.remove_class classes_config txt_path to_remove filename fs
    = (fs', Ok tt)
    ∧ (∀ f, f ∈ get_files fs txt_path filename →
         fs' !! f = Some (remap_text keep to_remove (read_text fs f)))
    ∧ (∀ p, p ∉ get_files fs txt_path filename → fs' !! p = fs !! p).
Proof.
  intros Hkeep Hwf Hcov. unfold TXTAnnotations.remove_class. rewrite Hkeep.
  destruct (for_each_rewrite_file keep to_remove _ fs (NoDup_glob fs _) Hwf)
    as [[_ (fs' & Hrun & Hin & Hout)]|[Hnot _]]; [|done].
  by exists fs'.
Qed.

(** X2. When every record of the matched files is well formed and its
    class is listed for removal or has an entry in the remap,
    [remove_class] succeeds and each matched file, read again, holds the
    remapped class ids of the records whose class was not removed, in
    their old order; all its records are well formed again. *)
Theorem remove_class_records {G : Glob} (classes_config : list Z)
    (txt_path : string) (to_remove : list Z) (filename : string)
    (fs : filesystem) (keep : gmap Z Z) :
  TXTAnnotations.update_classes classes_config to_remove = Ok keep →
  all_records fs (get_files fs txt_path filename)
    (λ line, is_Some (record_class line)) →
  all_records fs (get_files fs txt_path filename) (covered keep to_remove) →
  let run :=
    TXTAnnotations.remove_class classes_config txt_path to_remove filename fs in
  run.2 = Ok tt
  ∧ ∀ f, f ∈ get_files fs txt_path filename →
      classes_of (read_text run.1 f)
      = omap (λ c, keep !! c)
          (filter (λ c, c ∉ to_remove) (classes_of (read_text fs f)))
      ∧ Forall (λ line, is_Some (record_class line))
          (Py.readlines (read_text run.1 f)).
Proof.
  intros Hkeep Hwf Hcov. cbn zeta.
  destruct (remove_class_run _ _ _ _ _ _ Hkeep Hwf Hcov) as (fs' & -> & Hin & _).
  split; [done|]. intros f Hf. cbn [fst]. unfold read_text at 1 3.
  rewrite (Hin f Hf). cbn [default].
  apply classes_of_remap_text.
  unfold all_records in Hwf. rewrite Forall_forall in Hwf. by apply Hwf.
Qed.

Lemma remove_class_records_witness :
  let run :=
    TXTAnnotations.remove_class (G:=sample_glob) [0; 1; 2] "labels" [1] "*"
      three_classes in
  run.2 = Ok tt
  ∧ ∀ f, f ∈ get_files (G:=sample_glob) three_classes "labels" "*" →
      classes_of (read_text run.1 f)
      = omap (λ c, ({[ 0 := 0; 2 := 1 ]} : gmap Z Z) !! c)
          (filter (λ c, c ∉ [1]) (classes_of (read_text three_classes f)))
      ∧ Forall (λ line, is_Some (record_class line))
          (Py.readlines (read_text run.1 f)).
Proof.
  apply (remove_class_records (G:=sample_glob)
           [0; 1; 2] "labels" [1] "*" three_classes {[ 0 := 0; 2 := 1 ]}).
  - by vm_compute.
  - unfold all_records. apply (bool_decide_unpack _). by vm_compute.
  - unfold all_records. apply (bool_decide_unpack _). by vm_compute.
Defined.
(** The remap of the config [0, ..., n-1], as [remove_class] uses it. *)
Lemma update_classes_compact (n : Z) (to_remove : list Z) :
  0 < n →
  ∃ keep : gmap Z Z,
    TXTAnnotations.update_classes (seqZ 0 n) to_remove = Ok keep
    ∧ (∀ c, is_Some (keep !! c) ↔ 0 ≤ c < n ∧ c ∉ to_remove)
    ∧ (∀ c v, keep !! c = Some v →
         0 ≤ v < Z.of_nat (surviving_count (seqZ 0 n) to_remove)).
Proof.
  intros Hn.
  pose proof (compact_inv_loop to_remove (Z.to_nat n) 0 (∅, 0) (Z.le_refl 0)
                (compact_inv_init to_remove)) as Hinv.
  rewrite Z2Nat.id, Z.add_0_l in Hinv by lia.
  destruct Hinv as (Hdom & Himg & Hsz).
  exists (TXTAnnotations.update_loop to_remove (seqZ 0 n) (∅, 0)).1.
  split_and!.
  - unfold TXTAnnotations.update_classes.
    rewrite (seqZ_cons 0 n) by done. by rewrite <-(seqZ_cons 0 n) by done.
  - intros c. rewrite <-elem_of_dom, Hdom, elem_of_survivors, elem_of_seqZ.
    by rewrite Z.add_0_l.
  - intros c v Hc. rewrite (size_survivors_seqZ _ _ _ Hdom), Hsz.
    apply Himg. by exists c.
Qed.

(** X3. With the Class Config [0, ..., n-1] and annotation files whose
    records all have a class in that range, [remove_class] succeeds for
    every [to_remove], and afterwards every record of every matched file
    has a class in [0, ..., N-1], where [N] is the number of surviving
    classes: the files use exactly the compacted numbering. *)
Theorem remove_class_compacts {G : Glob} (n : Z) (txt_path : string)
    (to_remove : list Z) (filename : string) (fs : filesystem) :
  0 < n →
  all_records fs (get_files fs txt_path filename)
    (λ line, ∃ c, record_class line = Some c ∧ 0 ≤ c < n) →
  let run :=
    TXTAnnotations.remove_class (seqZ 0 n) txt_path to_remove filename fs in
  let N := Z.of_nat (surviving_count (seqZ 0 n) to_remove) in
  run.2 = Ok tt
  ∧ ∀ f, f ∈ get_files fs txt_path filename →
      Forall (λ line, ∃ c, record_class line = Some c ∧ 0 ≤ c < N)
        (Py.readlines (read_text run.1 f)).
Proof.
  intros Hn Hrange. cbn zeta.
  destruct (update_classes_compact n to_remove Hn) as (keep & Hkeep & Hdom & Himg).
  assert (Hwf : all_records fs (get_files fs txt_path filename)
                  (λ line, is_Some (record_class line))).
  { eapply Forall_impl; [exact Hrange|]. intros f Hf. cbn beta in Hf.
    eapply Forall_impl; [exact Hf|]. intros line (c & -> & _). by eexists. }
  assert (Hcov : all_records fs (get_files fs txt_path filename)
                   (covered keep to_remove)).
  { eapply Forall_impl; [exact Hrange|]. intros f Hf. cbn beta in Hf.
    eapply Forall_impl; [exact Hf|]. intros line (c & Hc & Hlt).
    unfold covered. rewrite Hc.
    destruct (decide (c ∈ to_remove)); [by left|right]. by apply Hdom. }
  destruct (remove_class_run _ _ _ _ _ _ Hkeep Hwf Hcov) as (fs' & -> & Hin & _).
  split; [done|]. intros f Hf. cbn [fst]. unfold read_text at 1.
  rewrite (Hin f Hf). cbn [default].
  assert (Hwf_f : Forall (λ line, is_Some (record_class line))
                    (Py.readlines (read_text fs f))).
  { unfold all_records in Hwf. rewrite Forall_forall in Hwf. by apply Hwf. }
  destruct (classes_of_remap_text keep to_remove _ Hwf_f) as [Hclasses Hwf'].
  apply Forall_forall. intros line Hline.
  rewrite Forall_forall in Hwf'. destruct (Hwf' line Hline) as [c Hc].
  exists c. split; [done|].
  assert (Hin_classes : c ∈ classes_of (remap_text keep to_remove (read_text fs f))).
  { unfold classes_of. apply list_elem_of_omap. by exists line. }
  rewrite Hclasses in Hin_classes.
  apply list_elem_of_omap in Hin_classes as (c0 & _ & Hc0).
  by apply (Himg c0).
Qed.

Lemma remove_class_compacts_witness :
  let run :=
    TXTAnnotations.remove_class (G:=sample_glob) (seqZ 0 3) "labels" [1] "*"
      three_classes in
  let N := Z.of_nat (surviving_count (seqZ 0 3) [1]) in
  run.2 = Ok tt
  ∧ ∀ f, f ∈ get_files (G:=sample_glob) three_classes "labels" "*" →
      Forall (λ line, ∃ c, record_class line = Some c ∧ 0 ≤ c < N)
        (Py.readlines (read_text run.1 f)).
Proof.
  apply (remove_class_compacts (G:=sample_glob) 3 "labels" [1] "*" three_classes).
  - lia.
  - unfold all_records.
    apply (Forall_impl (λ f, Forall (λ line,
             bool_decide (default false
               ((λ c, bool_decide (0 ≤ c < 3)) <$> record_class line)))
             (Py.readlines (read_text three_classes f)))).
    + apply (bool_decide_unpack _). by vm_compute.
    + intros f Hf. eapply Forall_impl; [exact Hf|]. intros line Hline.
      apply bool_decide_unpack in Hline.
      destruct (record_class line) as [c|]; [|done].
      exists c. split; [done|]. by apply bool_decide_unpack in Hline.
Defined.

(** X4. Removing nothing changes nothing: when every record of the
    matched files starts with the decimal text of a class of the config
    and a space, [remove_class] with an empty [to_remove] succeeds and
    leaves the whole file system as it was. *)
Theorem remove_class_nothing {G : Glob} (classes_config : list Z)
    (txt_path filename : string) (fs : filesystem) :
  all_records fs (get_files fs txt_path filename)
    (λ line, ∃ c rest, c ∈ classes_config
                       ∧ line = Py.str_of_int c +:+ " " +:+ rest) →
  classes_config ≠ [] →
  TXTAnnotations.remove_class classes_config txt_path [] filename fs
  = (fs, Ok tt).
Proof.
  intros Hcanon Hne.
  destruct classes_config as [|c0 config]; [done|].
  set (classes_config := c0 :: config) in *.
  set (keep := (TXTAnnotations.update_loop [] classes_config (∅, 0)).1).
  assert (Hkeep : TXTAnnotations.update_classes classes_config [] = Ok keep) by done.
  assert (Hid : ∀ c, c ∈ classes_config → keep !! c = Some c).
  { intros c Hc. apply list_elem_of_split_l in Hc as (pre & post & Hsplit & Hpre).
    unfold keep. rewrite Hsplit, update_loop_app, update_loop_cons.
    destruct (TXTAnnotations.update_loop [] pre (∅, 0)) as [keep0 shift] eqn:Hloop.
    destruct (update_loop_skip [] pre ∅ 0 c Hpre) as [Hkeep0 Hshift].
    rewrite Hloop in Hkeep0, Hshift. cbn [fst snd] in Hkeep0, Hshift.
    rewrite lookup_empty in Hkeep0.
    rewrite update_step_fresh by (done || apply not_elem_of_nil).
    erewrite update_loop_keeps; [|apply lookup_insert_eq].
    f_equal. rewrite Hshift.
    replace (filter (λ x, x ∈ []) pre) with (@nil Z); [cbn; lia|].
    symmetry. clear. induction pre as [|x pre IH]; [done|].
    rewrite filter_cons_False; [done|apply not_elem_of_nil]. }
  assert (Hline : ∀ line,
    (∃ c rest, c ∈ classes_config ∧ line = Py.str_of_int c +:+ " " +:+ rest) →
    is_Some (record_class line) ∧ covered keep [] line
    ∧ remap_record keep [] line = Some line).
  { intros line (c & rest & Hc & ->).
    change (" " +:+ rest) with (String " " rest).
    unfold covered, remap_record. rewrite record_class_str. cbn.
    rewrite decide_False by apply not_elem_of_nil.
    rewrite (Hid c Hc). cbn.
    rewrite split_once_app by apply str_of_int_no_space.
    split_and!; [by eexists|right; by eexists|done]. }
  assert (Hwf : all_records fs (get_files fs txt_path filename)
                  (λ line, is_Some (record_class line))).
  { eapply Forall_impl; [exact Hcanon|]. intros f Hf. cbn beta in Hf.
    eapply Forall_impl; [exact Hf|]. intros line Hl. by apply Hline. }
  assert (Hcov : all_records fs (get_files fs txt_path filename) (covered keep [])).
  { eapply Forall_impl; [exact Hcanon|]. intros f Hf. cbn beta in Hf.
    eapply Forall_impl; [exact Hf|]. intros line Hl. by apply Hline. }
  destruct (remove_class_run _ _ _ _ _ _ Hkeep Hwf Hcov) as (fs' & -> & Hin & Hout).
  f_equal. apply map_eq. intros p.
  destruct (decide (p ∈ get_files fs txt_path filename)) as [Hp|Hp]; [|by apply Hout].
  rewrite (Hin p Hp).
  assert (Hsame : remap_text keep [] (read_text fs p) = read_text fs p).
  { unfold remap_text. rewrite <-(join_readlines (read_text fs p)) at 2. f_equal.
    unfold all_records in Hcanon. rewrite Forall_forall in Hcanon.
    specialize (Hcanon p Hp). cbn beta in Hcanon.
    induction Hcanon as [|line lines Hl _ IH]; [done|].
    cbn [omap list_omap]. destruct (Hline line Hl) as (_ & _ & ->). by rewrite IH. }
  rewrite Hsame. unfold read_text.
  apply elem_of_glob in Hp as [[text Htext] _]. by rewrite Htext.
Qed.

Lemma remove_class_nothing_witness :
  TXTAnnotations.remove_class (G:=sample_glob) [0; 1; 2] "labels" [] "*"
    three_classes
  = (three_classes, Ok tt).
Proof.
  apply (remove_class_nothing (G:=sample_glob) [0; 1; 2] "labels" "*" three_classes);
    [|done].
  unfold all_records.
  assert (Hfiles : get_files (G:=sample_glob) three_classes "labels" "*"
                   = ["labels/a.txt"]) by (by vm_compute).
  rewrite Hfiles. apply Forall_cons. split; [|apply Forall_nil_2].
  assert (Hlines : Py.readlines (read_text three_classes "labels/a.txt")
                   = ["0 0.1 0.2 0.3 0.4" +:+ nl; "1 0.5 0.5 0.5 0.5" +:+ nl;
                      "2 0.9 0.9 0.1 0.1" +:+ nl]) by (by vm_compute).
  rewrite Hlines. repeat (apply Forall_cons; split); [..|apply Forall_nil_2].
  - exists 0, ("0.1 0.2 0.3 0.4" +:+ nl). split; [|done].
    apply (bool_decide_unpack _). by vm_compute.
  - exists 1, ("0.5 0.5 0.5 0.5" +:+ nl). split; [|done].
    apply (bool_decide_unpack _). by vm_compute.
  - exists 2, ("0.9 0.9 0.1 0.1" +:+ nl). split; [|done].
    apply (bool_decide_unpack _). by vm_compute.
Defined.
(** ** [replace_classes] *)

(** The loop of [replace_classes] is the loop of [remove_class] for the
    given mapping and nothing to remove. *)
Lemma replace_records_rewrite (mapping : gmap Z Z) lines : ∀ written,
  TXTAnnotations.replace_records mapping lines written
  = TXTAnnotations.rewrite_records mapping [] lines written.
Proof.
  induction lines as [|line lines IH]; intros written; [done|].
  cbn [TXTAnnotations.replace_records TXTAnnotations.rewrite_records].
  assert (Hrecord : TXTAnnotations.rewrite_record mapping [] line
                    = match TXTAnnotations.replace_record mapping line with
                      | Ok out => Ok (Some out)
                      | Raise e => Raise e
                      end).
  { unfold TXTAnnotations.rewrite_record, TXTAnnotations.replace_record.
    destruct (Py.split_once " " line) as [token [rest|]]; [|done].
    destruct (Py.int_of_str token) as [c|]; [|done]. cbn.
    rewrite decide_False by apply not_elem_of_nil.
    by destruct (mapping !! c). }
  rewrite Hrecord.
  destruct (TXTAnnotations.replace_record mapping line); [apply IH|done].
Qed.

Lemma replace_file_rewrite (mapping : gmap Z Z) txt (fs : filesystem) :
  TXTAnnotations.replace_file mapping txt fs
  = TXTAnnotations.rewrite_file mapping [] txt fs.
Proof.
  unfold TXTAnnotations.replace_file, TXTAnnotations.rewrite_file.
  by rewrite replace_records_rewrite.
Qed.

Lemma for_each_ext {A} (body1 body2 : A → io unit) xs : ∀ fs : filesystem,
  (∀ x fs, body1 x fs = body2 x fs) →
  for_each body1 xs fs = for_each body2 xs fs.
Proof.
  induction xs as [|x xs IH]; intros fs Hext; [done|].
  cbn [for_each]. rewrite Hext.
  destruct (body2 x fs) as [fs' [[]|e]]; [by apply IH|done].
Qed.

Lemma filter_not_in_nil (l : list Z) : filter (λ c, c ∉ []) l = l.
Proof.
  induction l as [|x l IH]; [done|].
  rewrite filter_cons_True by apply not_elem_of_nil. by rewrite IH.
Qed.

Lemma omap_total {A B} (f : A → option B) (l : list A) :
  Forall (λ x, is_Some (f x)) l → Some <$> omap f l = f <$> l.
Proof.
  induction 1 as [|x l [y Hy] _ IH]; [done|].
  cbn [omap list_omap fmap list_fmap]. rewrite Hy. cbn. by rewrite <-IH.
Qed.

(** The classes of covered, well-formed records have an entry. *)
Lemma covered_classes (keep : gmap Z Z) lines :
  Forall (covered keep []) lines →
  Forall (λ c, is_Some (keep !! c)) (omap record_class lines).
Proof.
  induction 1 as [|line lines Hcov _ IH]; [constructor|].
  cbn [omap list_omap]. unfold covered in Hcov.
  destruct (record_class line) as [c|]; [|done].
  constructor; [|done]. destruct Hcov as [Hc|Hc]; [|done].
  by apply elem_of_nil in Hc.
Qed.

(** X5. [replace_classes] sets the Class Config to the keys of the
    mapping, whatever happens to the files.  For well-formed records: when
    the class of every record of the matched files is a key of the
    mapping, the call succeeds, every matched file, read again, holds
    record by record the mapped class ids (no record is dropped), and
    unmatched files are untouched; when the class of some record is no key
    of the mapping, the call raises [KeyError]. *)
Theorem replace_classes_lookup {G : Glob} (to_replace_with : list (Z * Z))
    (txt_path filename : string) (fs : filesystem) :
  all_records fs (get_files fs txt_path filename)
    (λ line, is_Some (record_class line)) →
  let files := get_files fs txt_path filename in
  let mapping : gmap Z Z := list_to_map to_replace_with in
  let run := TXTAnnotations.replace_classes to_replace_with txt_path filename fs in
  run.1 = to_replace_with.*1
  ∧ (all_records fs files (covered mapping []) →
       run.2.2 = Ok tt
       ∧ (∀ f, f ∈ files →
            Some <$> classes_of (read_text run.2.1 f)
            = (λ c, mapping !! c) <$> classes_of (read_text fs f))
       ∧ (∀ p, p ∉ files → run.2.1 !! p = fs !! p))
  ∧ (¬ all_records fs files (covered mapping []) → run.2.2 = Raise KeyError).
Proof.
  intros Hwf. cbn zeta. unfold TXTAnnotations.replace_classes. cbn [fst snd].
  split; [done|].
  rewrite (for_each_ext _ (TXTAnnotations.rewrite_file (list_to_map to_replace_with) []))
    by (intros; apply replace_file_rewrite).
  destruct (for_each_rewrite_file (list_to_map to_replace_with) [] _ fs
              (NoDup_glob fs _) Hwf)
    as [[Hall (fs' & Hrun & Hin & Hout)]|[Hnot [fs' Hrun]]].
  - unfold get_files in *. rewrite Hrun. cbn [fst snd]. split; [|done].
    intros _. split_and!; [done| |done].
    intros f Hf.
    replace (read_text fs' f)
      with (remap_text (list_to_map to_replace_with) [] (read_text fs f))
      by (unfold read_text at 2; by rewrite (Hin f Hf)).
    assert (Hwf_f : Forall (λ line, is_Some (record_class line))
                      (Py.readlines (read_text fs f))).
    { unfold all_records in Hwf. rewrite Forall_forall in Hwf. by apply Hwf. }
    destruct (classes_of_remap_text (list_to_map to_replace_with) [] _ Hwf_f)
      as [-> _].
    rewrite filter_not_in_nil. apply omap_total, covered_classes.
    unfold all_records in Hall. rewrite Forall_forall in Hall. by apply Hall.
  - unfold get_files in *. rewrite Hrun. cbn [fst snd]. split; [|done].
    intros Hall. by destruct Hnot.
Qed.

Lemma replace_classes_lookup_witness :
  let files := get_files (G:=sample_glob) three_classes "labels" "*" in
  let mapping : gmap Z Z := list_to_map [(0, 2); (1, 1); (2, 0)] in
  let run := TXTAnnotations.replace_classes (G:=sample_glob)
               [(0, 2); (1, 1); (2, 0)] "labels" "*" three_classes in
  run.1 = [(0, 2); (1, 1); (2, 0)].*1
  ∧ (all_records three_classes files (covered mapping []) →
       run.2.2 = Ok tt
       ∧ (∀ f, f ∈ files →
            Some <$> classes_of (read_text run.2.1 f)
            = (λ c, mapping !! c) <$> classes_of (read_text three_classes f))
       ∧ (∀ p, p ∉ files → run.2.1 !! p = three_classes !! p))
  ∧ (¬ all_records three_classes files (covered mapping []) →
     run.2.2 = Raise KeyError).
Proof.
  apply (replace_classes_lookup (G:=sample_glob)
           [(0, 2); (1, 1); (2, 0)] "labels" "*" three_classes).
  unfold all_records. apply (bool_decide_unpack _). by vm_compute.
Defined.
(** *** Two replacements in a row *)

Section replace_twice.
Context (first second composed : gmap Z Z).
Hypothesis composed_spec : ∀ c, composed !! c = first !! c ≫= λ v, second !! v.

Local Abbreviation well_formed := (λ line, is_Some (record_class line)).

Lemma remap_record_compose line :
  well_formed line →
  remap_record first [] line ≫= remap_record second []
  = remap_record composed [] line.
Proof.
  intros [c Hclass].
  destruct (record_class_inv line c Hclass) as (token & rest & Hsplit & -> & Hint).
  unfold remap_record at 2 3. rewrite Hclass, Hsplit. cbn.
  rewrite !decide_False by apply not_elem_of_nil. rewrite composed_spec.
  destruct (first !! c) as [v|]; cbn; [|done].
  change (" " +:+ rest) with (String " " rest).
  unfold remap_record. rewrite record_class_str. cbn.
  rewrite decide_False by apply not_elem_of_nil.
  by rewrite split_once_app by apply str_of_int_no_space.
Qed.

Lemma covered_compose line :
  well_formed line → covered first [] line →
  ∃ out, remap_record first [] line = Some out
         ∧ (covered second [] out ↔ covered composed [] line).
Proof.
  intros [c Hclass] Hcov. unfold covered in Hcov. rewrite Hclass in Hcov.
  destruct Hcov as [Hc|[v Hv]]; [by apply elem_of_nil in Hc|].
  destruct (record_class_inv line c Hclass) as (token & rest & Hsplit & -> & Hint).
  exists (Py.str_of_int v +:+ String " " rest). split.
  - unfold remap_record. rewrite Hclass, Hsplit. cbn.
    rewrite decide_False by apply not_elem_of_nil. by rewrite Hv.
  - unfold covered. rewrite record_class_str, Hclass, composed_spec, Hv. cbn.
    rewrite !elem_of_nil. tauto.
Qed.

Lemma omap_remap_compose lines :
  Forall well_formed lines →
  omap (remap_record second []) (omap (remap_record first []) lines)
  = omap (remap_record composed []) lines.
Proof.
  induction 1 as [|line lines Hwf _ IH]; [done|].
  cbn [omap list_omap]. rewrite <-(remap_record_compose line Hwf).
  destruct (remap_record first [] line) as [out|]; cbn; [|done].
  by rewrite IH.
Qed.

Lemma covered_omap_compose lines :
  Forall well_formed lines → Forall (covered first []) lines →
  Forall (covered second []) (omap (remap_record first []) lines)
  ↔ Forall (covered composed []) lines.
Proof.
  induction 1 as [|line lines Hwf _ IH]; intros Hcov; [done|].
  apply Forall_cons in Hcov as [Hcov_line Hcov].
  destruct (covered_compose line Hwf Hcov_line) as (out & Hout & Hiff).
  cbn [omap list_omap]. rewrite Hout, !Forall_cons, Hiff, (IH Hcov). done.
Qed.

Lemma remap_text_compose text :
  Forall well_formed (Py.readlines text) →
  remap_text second [] (remap_text first [] text) = remap_text composed [] text.
Proof.
  intros Hwf. unfold remap_text at 1 3.
  rewrite readlines_remap_text by done. by rewrite omap_remap_compose.
Qed.

End replace_twice.

(** The run of [replace_classes] on the files, file by file. *)
Lemma replace_classes_run {G : Glob} (to_replace_with : list (Z * Z))
    (txt_path filename : string) (fs : filesystem) :
  (TXTAnnotations.replace_classes to_replace_with txt_path filename fs).2
  = for_each (TXTAnnotations.rewrite_file (list_to_map to_replace_with) [])
      (get_files fs txt_path filename) fs.
Proof.
  unfold TXTAnnotations.replace_classes. cbn [snd].
  apply for_each_ext. intros. apply replace_file_rewrite.
Qed.

(** X6. Two replacements in a row act as one: when [replace_classes]
    with a first mapping has run on well-formed files whose classes are
    all keys of it, a following [replace_classes] with a second mapping
    ends as a single [replace_classes] from the start with the composed
    mapping does (success or [KeyError]), and on success both leave the
    same file system. *)
Theorem replace_classes_compose {G : Glob} (first second composed : list (Z * Z))
    (txt_path filename : string) (fs : filesystem) :
  let mapping1 : gmap Z Z := list_to_map first in
  let mapping2 : gmap Z Z := list_to_map second in
  let mapping : gmap Z Z := list_to_map composed in
  (∀ c, mapping !! c = mapping1 !! c ≫= λ v, mapping2 !! v) →
  all_records fs (get_files fs txt_path filename)
    (λ line, is_Some (record_class line)) →
  all_records fs (get_files fs txt_path filename) (covered mapping1 []) →
  let run1 := TXTAnnotations.replace_classes first txt_path filename fs in
  let run2 := TXTAnnotations.replace_classes second txt_path filename run1.2.1 in
  let run := TXTAnnotations.replace_classes composed txt_path filename fs in
  run1.2.2 = Ok tt
  ∧ run2.2.2 = run.2.2
  ∧ (run.2.2 = Ok tt → run2.2.1 = run.2.1).
Proof.
  intros mapping1 mapping2 mapping Hcomposed Hwf Hcov. cbn zeta.
  rewrite !replace_classes_run. fold mapping1 mapping2 mapping.
  set (files := get_files fs txt_path filename) in *.
  destruct (for_each_rewrite_file mapping1 [] files fs (NoDup_glob fs _) Hwf)
    as [[_ (fs1 & Hrun1 & Hin1 & Hout1)]|[Hnot _]]; [|done].
  rewrite Hrun1. cbn [fst snd]. split; [done|].
  set (files1 := get_files fs1 txt_path filename).
  assert (Hfiles : ∀ p, p ∈ files1 ↔ p ∈ files).
  { intros p. unfold files1, files, get_files. rewrite !elem_of_glob.
    destruct (decide (p ∈ files)) as [Hp|Hp].
    - rewrite (Hin1 p Hp). apply elem_of_glob in Hp as [Hsome _].
      split; intros [_ ?]; split; by eauto.
    - by rewrite (Hout1 p Hp). }
  assert (Hlines : ∀ f, f ∈ files →
            Forall (λ line, is_Some (record_class line))
              (Py.readlines (read_text fs f))
            ∧ Forall (covered mapping1 []) (Py.readlines (read_text fs f))
            ∧ read_text fs1 f = remap_text mapping1 [] (read_text fs f)).
  { intros f Hf. unfold all_records in Hwf, Hcov.
    rewrite Forall_forall in Hwf, Hcov. split_and!; [by apply Hwf|by apply Hcov|].
    unfold read_text at 1. by rewrite (Hin1 f Hf). }
  assert (Hwf1 : all_records fs1 files1 (λ line, is_Some (record_class line))).
  { apply Forall_forall. intros f Hf%Hfiles.
    destruct (Hlines f Hf) as (Hwf_f & _ & ->).
    by apply classes_of_remap_text. }
  assert (Hcov_iff : all_records fs1 files1 (covered mapping2 [])
                     ↔ all_records fs files (covered mapping [])).
  { unfold all_records. rewrite !Forall_forall. split.
    - intros Hall f Hf. destruct (Hlines f Hf) as (Hwf_f & Hcov_f & Htext).
      apply (covered_omap_compose mapping1 mapping2 mapping Hcomposed); [done..|].
      rewrite <-readlines_remap_text, <-Htext by done.
      apply Hall. by apply Hfiles.
    - intros Hall f Hf%Hfiles. destruct (Hlines f Hf) as (Hwf_f & Hcov_f & ->).
      rewrite readlines_remap_text by done.
      apply (covered_omap_compose mapping1 mapping2 mapping Hcomposed); [done..|].
      by apply Hall. }
  destruct (for_each_rewrite_file mapping2 [] files1 fs1 (NoDup_glob fs1 _) Hwf1)
    as [[Hall2 (fs2 & Hrun2 & Hin2 & Hout2)]|[Hnot2 (fs2 & Hrun2)]];
  destruct (for_each_rewrite_file mapping [] files fs (NoDup_glob fs _) Hwf)
    as [[Hall (fs3 & Hrun & Hin & Hout)]|[Hnot (fs3 & Hrun)]];
  fold files1 in Hrun2; fold files in Hrun; rewrite Hrun2, Hrun; cbn [fst snd].
  - split; [done|]. intros _. apply map_eq. intros p.
    destruct (decide (p ∈ files)) as [Hp|Hp].
    + rewrite Hin2, Hin by (done || by apply Hfiles).
      destruct (Hlines p Hp) as (Hwf_p & _ & ->).
      by rewrite (remap_text_compose mapping1 mapping2 mapping Hcomposed).
    + rewrite Hout2, Hout, Hout1; [done..|]. by rewrite Hfiles.
  - destruct Hnot. by apply Hcov_iff.
  - destruct Hnot2. by apply Hcov_iff.
  - split; [done|]. intros [=].
Qed.

Lemma replace_classes_compose_witness :
  let run1 := TXTAnnotations.replace_classes (G:=sample_glob)
                [(0, 1); (1, 2); (2, 0)] "labels" "*" three_classes in
  let run2 := TXTAnnotations.replace_classes (G:=sample_glob)
                [(0, 5); (1, 6); (2, 7)] "labels" "*" run1.2.1 in
  let run := TXTAnnotations.replace_classes (G:=sample_glob)
               [(0, 6); (1, 7); (2, 5)] "labels" "*" three_classes in
  run1.2.2 = Ok tt
  ∧ run2.2.2 = run.2.2
  ∧ (run.2.2 = Ok tt → run2.2.1 = run.2.1).
Proof.
  apply (replace_classes_compose (G:=sample_glob)
           [(0, 1); (1, 2); (2, 0)] [(0, 5); (1, 6); (2, 7)]
           [(0, 6); (1, 7); (2, 5)] "labels" "*" three_classes).
  - intros c.
    destruct (decide (c = 0)) as [->|?]; [done|].
    destruct (decide (c = 1)) as [->|?]; [done|].
    destruct (decide (c = 2)) as [->|?]; [done|].
    cbn [list_to_map foldr curry fst snd].
    by rewrite !lookup_insert_ne, lookup_empty by done.
  - unfold all_records. apply (bool_decide_unpack _). by vm_compute.
  - unfold all_records. apply (bool_decide_unpack _). by vm_compute.
Defined.
(** ** The generic line rewriter: [read_and_update] *)

(** A loop whose body replaces the text of its file by a function of the
    old text. *)
Lemma for_each_pure (h : string → string) (body : string → io unit) files :
  (∀ f (fs : filesystem), body f fs = (<[f := h (read_text fs f)]> fs, Ok tt)) →
  NoDup files →
  ∀ fs : filesystem, ∃ fs' : filesystem,
    for_each body files fs = (fs', Ok tt)
    ∧ (∀ f, f ∈ files → fs' !! f = Some (h (read_text fs f)))
    ∧ (∀ p, p ∉ files → fs' !! p = fs !! p).
Proof.
  intros Hbody. induction files as [|f files IH]; intros Hnd fs.
  - exists fs. split_and!; [done| |done]. intros f Hf. by apply elem_of_nil in Hf.
  - apply NoDup_cons in Hnd as [Hf Hnd]. cbn [for_each]. rewrite Hbody.
    destruct (IH Hnd (<[f := h (read_text fs f)]> fs)) as (fs' & -> & Hin & Hout).
    exists fs'. split_and!; [done| |].
    + intros g [->|Hg]%elem_of_cons.
      * rewrite Hout by done. by rewrite lookup_insert_eq.
      * rewrite Hin by done. rewrite read_text_insert_ne; [done|]. by intros ->.
    + intros p [Hpf Hp]%not_elem_of_cons.
      rewrite Hout by done. by rewrite lookup_insert_ne.
Qed.

Lemma update_lines_total (inner_func : string → result string)
    (g : string → string) lines : ∀ written,
  (∀ line, inner_func line = Ok (g line)) →
  update_lines inner_func lines written = (written +:+ join (g <$> lines), Ok tt).
Proof.
  induction lines as [|line lines IH]; intros written Hg.
  - cbn. by rewrite string_app_nil_r.
  - cbn [update_lines fmap list_fmap]. rewrite Hg, join_cons.
    destruct (g line) as [|c out].
    + rewrite string_app_nil. by apply IH.
    + rewrite IH by done. by rewrite string_app_assoc.
Qed.

(** The run of [read_and_update] for a function that never raises. *)
Lemma read_and_update_run {G : Glob} (path filename : string)
    (inner_func : string → result string) (g : string → string)
    (fs : filesystem) :
  (∀ line, inner_func line = Ok (g line)) →
  ∃ fs' : filesystem,
    read_and_update path filename inner_func fs = (fs', Ok tt)
    ∧ (∀ f, f ∈ get_files fs path filename →
         fs' !! f = Some (join (g <$> Py.readlines (read_text fs f))))
    ∧ (∀ p, p ∉ get_files fs path filename → fs' !! p = fs !! p).
Proof.
  intros Hg. unfold read_and_update.
  apply (for_each_pure (λ text, join (g <$> Py.readlines text))
           (update_file inner_func) (get_files fs path filename));
    [|apply NoDup_glob].
  intros f fs0. unfold update_file.
  by rewrite (update_lines_total inner_func g), string_app_nil.
Qed.

(** X7. When [inner_func] returns a text for every line, [read_and_update]
    succeeds, every matched file becomes the concatenation of the texts
    returned for its lines, in order, and every other file is left as it
    was. *)
Theorem read_and_update_total {G : Glob} (path filename : string)
    (inner_func : string → result string) (g : string → string)
    (fs : filesystem) :
  (∀ line, inner_func line = Ok (g line)) →
  let run := read_and_update path filename inner_func fs in
  run.2 = Ok tt
  ∧ (∀ f, f ∈ get_files fs path filename →
       run.1 !! f = Some (join (g <$> Py.readlines (read_text fs f))))
  ∧ (∀ p, p ∉ get_files fs path filename → run.1 !! p = fs !! p).
Proof.
  intros Hg. cbn zeta.
  by destruct (read_and_update_run path filename inner_func g fs Hg)
    as (fs' & -> & Hin & Hout).
Qed.

Lemma read_and_update_total_witness :
  let run := read_and_update (G:=sample_glob) "labels" "*"
               (λ line, Ok ("# " +:+ line)) three_classes in
  run.2 = Ok tt
  ∧ (∀ f, f ∈ get_files (G:=sample_glob) three_classes "labels" "*" →
       run.1 !! f
       = Some (join ((λ line, "# " +:+ line)
                     <$> Py.readlines (read_text three_classes f))))
  ∧ (∀ p, p ∉ get_files (G:=sample_glob) three_classes "labels" "*" →
       run.1 !! p = three_classes !! p).
Proof.
  by apply (read_and_update_total (G:=sample_glob) "labels" "*"
              (λ line, Ok ("# " +:+ line)) (λ line, "# " +:+ line) three_classes).
Defined.

(** X8. [read_and_update] with the function that returns each line as it
    is succeeds and leaves the whole file system unchanged: reading the
    lines and writing them back loses nothing. *)
Theorem read_and_update_identity {G : Glob} (path filename : string)
    (fs : filesystem) :
  read_and_update path filename Ok fs = (fs, Ok tt).
Proof.
  destruct (read_and_update_run path filename Ok (λ line, line) fs
              (λ _, eq_refl)) as (fs' & -> & Hin & Hout).
  f_equal. apply map_eq. intros p.
  destruct (decide (p ∈ get_files fs path filename)) as [Hp|Hp]; [|by apply Hout].
  rewrite (Hin p Hp), list_fmap_id, join_readlines.
  apply elem_of_glob in Hp as [[text Htext] _]. unfold read_text. by rewrite Htext.
Qed.

(** X9. The file loop of [remove_class] is [read_and_update] with the
    function that rewrites one record (the empty text for a removed
    record): both leave the same file system and end the same way. *)
Theorem remove_class_as_update {G : Glob} (classes_config : list Z)
    (txt_path : string) (to_remove : list Z) (filename : string)
    (fs : filesystem) (keep : gmap Z Z) :
  TXTAnnotations.update_classes classes_config to_remove = Ok keep →
  TXTAnnotations.remove_class classes_config txt_path to_remove filename fs
  = read_and_update txt_path filename
      (λ line, do out <- TXTAnnotations.rewrite_record keep to_remove line;
               Ok (default EmptyString out)) fs.
Proof.
  intros Hkeep. unfold TXTAnnotations.remove_class, read_and_update.
  rewrite Hkeep. apply for_each_ext. intros txt fs0.
  unfold TXTAnnotations.rewrite_file, update_file.
  assert (Hlines : ∀ lines written,
    TXTAnnotations.rewrite_records keep to_remove lines written
    = update_lines
        (λ line, do out <- TXTAnnotations.rewrite_record keep to_remove line;
                 Ok (default EmptyString out)) lines written).
  { induction lines as [|line lines IH]; intros written; [done|].
    cbn [TXTAnnotations.rewrite_records update_lines].
    destruct (TXTAnnotations.rewrite_record keep to_remove line)
      as [[[|c out]|]|e]; cbn; [|done..].
    by rewrite string_app_nil_r. }
  by rewrite Hlines.
Qed.

Lemma remove_class_as_update_witness :
  TXTAnnotations.remove_class (G:=sample_glob) [0; 1; 2] "labels" [1] "*"
    three_classes
  = read_and_update (G:=sample_glob) "labels" "*"
      (λ line, do out <- TXTAnnotations.rewrite_record {[ 0 := 0; 2 := 1 ]} [1] line;
               Ok (default EmptyString out)) three_classes.
Proof.
  apply (remove_class_as_update (G:=sample_glob) [0; 1; 2] "labels" [1] "*"
           three_classes {[ 0 := 0; 2 := 1 ]}).
  by vm_compute.
Defined.
(** ** Paths *)

Lemma split_once_absent sep s :
  occurs sep s = false → Py.split_once sep s = (s, None).
Proof.
  induction s as [|c s IH]; [done|]. cbn [occurs Py.split_once].
  intros [Hc Hs]%orb_false_iff. apply bool_decide_eq_false in Hc.
  rewrite decide_False by done. by rewrite IH.
Qed.

(** X10. [get_filename] undoes [combine_path]: for a file name without
    slash and dot and an extension without slash (or no extension at
    all), the file name of the combined path is the given name; and the
    names that [get_filename] returns are such names, so
    [get_filename (combine_path folder (get_filename path) extension)]
    is [get_filename path]. *)
Theorem get_filename_combine_path (folder name path : string)
    (extension : option string) :
  (∀ ext, extension = Some ext → occurs "/" ext = false) →
  (occurs "/" name = false → occurs "." name = false →
     get_filename (combine_path folder name extension) = name)
  ∧ get_filename (combine_path folder (get_filename path) extension)
    = get_filename path.
Proof.
  intros Hext.
  assert (Hname : ∀ name, occurs "/" name = false → occurs "." name = false →
            get_filename (combine_path folder name extension) = name).
  { clear name. intros name Hslash Hdot. unfold get_filename, combine_path.
    destruct extension as [[|c ext]|].
    - rewrite path_tail_join by done. by rewrite split_once_absent.
    - rewrite path_tail_join.
      + change (name +:+ "." +:+ String c ext)
          with (name +:+ String "." (String c ext)).
        by rewrite split_once_app.
      + change ("." +:+ String c ext) with (String "." (String c ext)).
        rewrite occurs_app, Hslash.
        change (occurs "/" (String "." (String c ext)))
          with (bool_decide ("."%char = "/"%char) || occurs "/" (String c ext)).
        by rewrite (Hext (String c ext) eq_refl).
    - rewrite path_tail_join by done. by rewrite split_once_absent. }
  split; [apply Hname|]. apply Hname; apply get_filename_free.
Qed.

Lemma get_filename_combine_path_witness :
  (occurs "/" "img_001" = false → occurs "." "img_001" = false →
     get_filename (combine_path "labels" "img_001" (Some "tar.gz")) = "img_001")
  ∧ get_filename (combine_path "labels" (get_filename "images/cat.v2.png")
                    (Some "tar.gz"))
    = get_filename "images/cat.v2.png".
Proof.
  apply (get_filename_combine_path "labels" "img_001" "images/cat.v2.png"
           (Some "tar.gz")).
  by intros ext [= <-].
Defined.

(** ** [empty_txt] *)

Lemma empty_loop_lookup files : ∀ (fs : filesystem) p,
  foldl (λ fs txt, <[txt := EmptyString]> fs) fs files !! p
  = if decide (p ∈ files) then Some EmptyString else fs !! p.
Proof.
  induction files as [|f files IH]; intros fs p; [done|].
  cbn [foldl]. rewrite IH.
  destruct (decide (p ∈ files)) as [Hp|Hp].
  - rewrite decide_True; [done|]. by apply elem_of_cons; right.
  - destruct (decide (p = f)) as [->|Hpf].
    + rewrite lookup_insert_eq. rewrite decide_True; [done|]. apply elem_of_cons; by left.
    + rewrite lookup_insert_ne by done. rewrite decide_False; [done|].
      by intros [?|?]%elem_of_cons.
Qed.

(** X11. [empty_txt] makes every matched annotation file empty and leaves
    the text of every other file as it is; it creates no file (the set of
    existing paths stays the same), a second run changes nothing, and it
    does what [read_and_update] does with a function that returns the
    empty text for every line. *)
Theorem empty_txt_clears {G : Glob} (txt_path filename : string)
    (fs : filesystem) :
  let fs' := TXTAnnotations.empty_txt txt_path filename fs in
  (∀ p, fs' !! p = if decide (p ∈ get_files fs txt_path filename)
                   then Some EmptyString else fs !! p)
  ∧ dom fs' = dom fs
  ∧ TXTAnnotations.empty_txt txt_path filename fs' = fs'
  ∧ read_and_update txt_path filename (λ _, Ok EmptyString) fs = (fs', Ok tt).
Proof.
  cbn zeta.
  assert (Hlookup : ∀ (fs : filesystem) p,
    TXTAnnotations.empty_txt txt_path filename fs !! p
    = if decide (p ∈ get_files fs txt_path filename)
      then Some EmptyString else fs !! p).
  { intros fs0 p. apply empty_loop_lookup. }
  assert (Hsome : ∀ p, is_Some (TXTAnnotations.empty_txt txt_path filename fs !! p)
                       ↔ is_Some (fs !! p)).
  { intros p. rewrite Hlookup.
    destruct (decide (p ∈ get_files fs txt_path filename)) as [Hp|Hp]; [|done].
    apply elem_of_glob in Hp as [Hp _]. split; [done|by eexists]. }
  split_and!.
  - apply Hlookup.
  - apply set_eq. intros p. by rewrite !elem_of_dom.
  - apply map_eq. intros p. rewrite Hlookup.
    destruct (decide (p ∈ get_files _ txt_path filename)) as [Hp|Hp]; [|done].
    rewrite Hlookup. rewrite decide_True; [done|].
    unfold get_files in *. apply elem_of_glob in Hp as [Hp Hmatch].
    apply elem_of_glob. split; [by apply Hsome|done].
  - destruct (read_and_update_run txt_path filename (λ _, Ok EmptyString)
                (λ _, EmptyString) fs (λ _, eq_refl)) as (fs' & -> & Hin & Hout).
    f_equal. apply map_eq. intros p. rewrite Hlookup.
    destruct (decide (p ∈ get_files fs txt_path filename)) as [Hp|Hp];
      [|by apply Hout].
    rewrite (Hin p Hp). f_equal.
    induction (Py.readlines (read_text fs p)) as [|line lines IH]; [done|].
    cbn [fmap list_fmap]. by rewrite join_cons, string_app_nil.
Qed.
(** ** The analyzer: the tally in general *)

Import Analyse.

Section tally_facts.

Lemma count_token_int (cnt : gmap pykey Z) clss n :
  count_token cnt clss !! PyInt n = cnt !! PyInt n.
Proof.
  unfold count_token. rewrite lookup_insert_ne by done.
  destruct (cnt !! PyStr clss); [done|]. by rewrite lookup_insert_ne.
Qed.

Lemma count_token_other (cnt : gmap pykey Z) clss s :
  s ≠ clss → count_token cnt clss !! PyStr s = cnt !! PyStr s.
Proof.
  intros Hne. unfold count_token.
  rewrite lookup_insert_ne by congruence.
  destruct (cnt !! PyStr clss); [done|]. rewrite lookup_insert_ne; [done|congruence].
Qed.

(** The loop over the lines counts the tokens of [counted_tokens]. *)
Lemma count_lines_tokens lines : ∀ cnt,
  count_lines lines cnt = foldl count_token cnt (counted_tokens lines).
Proof.
  induction lines as [|line lines IH]; intros cnt; [done|].
  cbn [count_lines counted_tokens].
  destruct (Py.split_once " " line).1 as [|c clss]; [done|].
  cbn [foldl]. apply IH.
Qed.

Lemma tally_tokens {G : Glob} path filename classes (fs : filesystem) :
  tally path filename classes fs
  = foldl count_token (init_tally classes) (tokens path filename fs).
Proof.
  unfold tally, tokens.
  generalize (init_tally classes).
  induction (glob fs (path +:+ "/" +:+ filename +:+ ".txt")) as [|f files IH];
    intros cnt; [done|].
  cbn [foldl]. rewrite IH. unfold count_file. rewrite count_lines_tokens.
  change (mbind ?g (f :: files)) with (g f ++ mbind g files).
  by rewrite foldl_app.
Qed.

Lemma count_tokens_int toks : ∀ (cnt : gmap pykey Z) n,
  foldl count_token cnt toks !! PyInt n = cnt !! PyInt n.
Proof.
  induction toks as [|t toks IH]; intros cnt n; [done|].
  cbn [foldl]. by rewrite IH, count_token_int.
Qed.

Lemma occurrences_cons s t toks :
  occurrences s (t :: toks)
  = (if decide (t = s) then 1 else 0) + occurrences s toks.
Proof.
  unfold occurrences. destruct (decide (t = s)) as [Hts|Hts].
  - rewrite filter_cons_True by done. cbn [length]. lia.
  - rewrite filter_cons_False by done. lia.
Qed.

Lemma occurrences_pos s toks : s ∈ toks ↔ 0 < occurrences s toks.
Proof.
  induction toks as [|t toks IH].
  - rewrite elem_of_nil. unfold occurrences. cbn. lia.
  - rewrite elem_of_cons, occurrences_cons, IH.
    assert (0 ≤ occurrences s toks) by (unfold occurrences; lia).
    destruct (decide (t = s)) as [->|Hne]; [split; [lia|by left]|].
    split; [intros [->|?]; [done|lia]|]. intros ?. right. lia.
Qed.

(** The tally of a token after the loop, from its tally before. *)
Lemma count_tokens_str toks : ∀ (cnt : gmap pykey Z) s,
  foldl count_token cnt toks !! PyStr s
  = match cnt !! PyStr s with
    | Some v => Some (v + occurrences s toks)
    | None => if decide (s ∈ toks) then Some (occurrences s toks - 1) else None
    end.
Proof.
  induction toks as [|t toks IH]; intros cnt s.
  - cbn [foldl]. unfold occurrences. cbn.
    destruct (cnt !! PyStr s) as [v|]; [f_equal; lia|].
    by rewrite decide_False by apply not_elem_of_nil.
  - cbn [foldl]. rewrite IH, occurrences_cons.
    destruct (decide (t = s)) as [->|Hts].
    + rewrite count_token_lookup.
      destruct (cnt !! PyStr s) as [v|].
      * f_equal; lia.
      * rewrite decide_True by (apply elem_of_cons; by left). f_equal; lia.
    + rewrite count_token_other by done.
      destruct (cnt !! PyStr s) as [v|]; [f_equal; lia|].
      destruct (decide (s ∈ toks)) as [Hs|Hs].
      * rewrite decide_True by (apply elem_of_cons; by right). f_equal; lia.
      * rewrite decide_False; [done|]. intros [?|?]%elem_of_cons; done.
Qed.

End tally_facts.

(** X12. The tally of [counter] in general.  A class given as an [int]
    keeps the tally 0 whatever the files hold, and no other [int] key
    appears.  A class given as a [str] ends with the number of times it
    was counted; a token that is not among the classes ends with that
    number minus one (its tally starts at -1); a text that is neither a
    class nor a counted token has no entry. *)
Theorem counter_tally {G : Glob} (path filename : string)
    (classes : list Analyse.pykey) (fs : filesystem) :
  let cnt := Analyse.tally path filename classes fs in
  let toks := tokens path filename fs in
  (∀ n, cnt !! Analyse.PyInt n
        = if decide (Analyse.PyInt n ∈ classes) then Some 0 else None)
  ∧ (∀ s, cnt !! Analyse.PyStr s
          = if decide (Analyse.PyStr s ∈ classes) then Some (occurrences s toks)
            else if decide (s ∈ toks) then Some (occurrences s toks - 1)
            else None).
Proof.
  cbn zeta. rewrite tally_tokens. split.
  - intros n. by rewrite count_tokens_int, init_tally_lookup.
  - intros s. rewrite count_tokens_str, init_tally_lookup.
    destruct (decide (Analyse.PyStr s ∈ classes)); [|done].
    by rewrite Z.add_0_l.
Qed.
(** ** The analyzer: sorting the tally *)

Section sorting_facts.
Import Analyse.

Lemma string_ltb_trans s t u :
  String.ltb s t = true → String.ltb t u = true → String.ltb s u = true.
Proof.
  unfold String.ltb. intros Hst Htu.
  destruct (String.compare s t) eqn:Hcst; [done| |done].
  destruct (String.compare t u) eqn:Hctu; [done| |done].
  assert (Hle : String.le s u).
  { trans t; unfold String.le, String.leb; [by rewrite Hcst|by rewrite Hctu]. }
  unfold String.le, String.leb in Hle.
  destruct (String.compare s u) eqn:Hcsu; [|done..].
  apply String.compare_eq_iff in Hcsu as ->.
  rewrite String.compare_antisym, Hctu in Hcst. done.
Qed.

Lemma string_ltb_total s t :
  s ≠ t → String.ltb s t = false → String.ltb t s = true.
Proof.
  unfold String.ltb. intros Hne Hst.
  rewrite String.compare_antisym.
  destruct (String.compare s t) eqn:Hcst; [|done..].
  by apply String.compare_eq_iff in Hcst.
Qed.

Lemma py_lt_same a b : is_int a = is_int b → ∃ r, py_lt a b = Ok r.
Proof. destruct a, b; cbn; intros; by eauto. Qed.

Lemma py_lt_mixed a b : is_int a ≠ is_int b → py_lt a b = Raise TypeError.
Proof. by destruct a, b. Qed.

Lemma py_lt_trans a b c :
  py_lt a b = Ok true → py_lt b c = Ok true → py_lt a c = Ok true.
Proof.
  destruct a as [x|s], b as [y|t], c as [z|u]; cbn; try done.
  - intros [= Hxy%Z.ltb_lt] [= Hyz%Z.ltb_lt]. f_equal. apply Z.ltb_lt. lia.
  - intros [= Hst] [= Htu]. f_equal. by apply (string_ltb_trans s t u).
Qed.

Lemma py_lt_total a b :
  is_int a = is_int b → a ≠ b → py_lt a b = Ok false → py_lt b a = Ok true.
Proof.
  destruct a as [x|s], b as [y|t]; cbn; try done.
  - intros _ Hne [= Hxy%Z.ltb_ge]. f_equal. apply Z.ltb_lt.
    assert (x ≠ y) by congruence. lia.
  - intros _ Hne [= Hst]. f_equal. apply string_ltb_total; [congruence|done].
Qed.

(** Inserting an item into a sorted list of items of its kind. *)
Lemma insert_sorted_same (x : pykey * Z) l :
  Forall (λ y, is_int y.1 = is_int x.1) l →
  ∃ l', insert_sorted x l = Ok l' ∧ l' ≡ₚ x :: l
        ∧ (x.1 ∉ l.*1 → StronglySorted item_lt l → StronglySorted item_lt l').
Proof.
  induction 1 as [|y l Hy Hl IH].
  - exists [x]. split_and!; [done..|]. intros _ _. repeat constructor.
  - cbn [insert_sorted].
    destruct (py_lt_same x.1 y.1) as [[|] Hlt]; [done|..]; rewrite Hlt; cbn.
    + exists (x :: y :: l). split_and!; [done..|].
      intros _ Hsorted. constructor; [done|].
      constructor; [done|]. apply StronglySorted_inv in Hsorted as [_ Hall].
      eapply Forall_impl; [exact Hall|]. intros z Hz.
      by apply (py_lt_trans _ y.1).
    + destruct IH as (l' & -> & Hperm & Hsorted). cbn.
      exists (y :: l'). split_and!; [done| |].
      * rewrite Hperm. apply Permutation_swap.
      * intros Hfresh Hyl. rewrite ?fmap_cons, not_elem_of_cons in Hfresh.
        destruct Hfresh as [Hne Hfresh].
        apply StronglySorted_inv in Hyl as [Hl_sorted Hall].
        constructor; [by apply Hsorted|].
        rewrite Hperm. constructor; [|done].
        by apply py_lt_total.
Qed.

(** Inserting an item into a non-empty list of items of the other kind. *)
Lemma insert_sorted_mixed (x y : pykey * Z) l :
  is_int x.1 ≠ is_int y.1 → insert_sorted x (y :: l) = Raise TypeError.
Proof. intros Hkind. cbn [insert_sorted]. by rewrite py_lt_mixed. Qed.

(** Sorting items whose keys are of one kind. *)
Lemma sorted_same (b : bool) items :
  Forall (λ y, is_int y.1 = b) items →
  ∃ l, sorted items = Ok l ∧ l ≡ₚ items
       ∧ (NoDup items.*1 → StronglySorted item_lt l).
Proof.
  induction 1 as [|x items Hx Hitems IH].
  - exists []. split_and!; [done..|]. intros _. constructor.
  - destruct IH as (l & Hl & Hperm & Hsorted). cbn [sorted]. rewrite Hl. cbn.
    destruct (insert_sorted_same x l) as (l' & -> & Hperm' & Hsorted').
    { rewrite Hperm. eapply Forall_impl; [exact Hitems|]. intros y ->. done. }
    exists l'. split_and!; [done|by rewrite Hperm', Hperm|].
    intros [Hfresh Hnd]%NoDup_cons. apply Hsorted'; [|by apply Hsorted].
    by rewrite Hperm.
Qed.

(** Sorting items with an [int] key and a [str] key among them. *)
Lemma sorted_mixed items x y :
  x ∈ items → y ∈ items → is_int x.1 ≠ is_int y.1 →
  sorted items = Raise TypeError.
Proof.
  revert x y. induction items as [|z items IH]; intros x y Hx Hy Hkind.
  { by apply elem_of_nil in Hx. }
  cbn [sorted].
  destruct (decide (Forall (λ w, is_int w.1 = negb (is_int z.1)) items))
    as [Hother|Hsome].
  - destruct (sorted_same _ items Hother) as (l & -> & Hperm & _). cbn.
    destruct l as [|w l].
    + apply Permutation_nil_l in Hperm. subst items.
      apply list_elem_of_singleton in Hx, Hy. by subst.
    + apply insert_sorted_mixed.
      assert (Hw : w ∈ items) by (rewrite <-Hperm; apply elem_of_cons; by left).
      rewrite Forall_forall in Hother. rewrite (Hother w Hw).
      by destruct (is_int z.1).
  - apply not_Forall_Exists in Hsome; [|apply _].
    apply Exists_exists in Hsome as (w & Hw & Hkind_w).
    unfold compose in Hkind_w.
    assert (Hsame : is_int w.1 = is_int z.1)
      by (destruct (is_int w.1), (is_int z.1); cbn in *; congruence).
    destruct (decide (Forall (λ v, is_int v.1 = is_int z.1) items))
      as [Hall|Hnot].
    + exfalso. rewrite Forall_forall in Hall.
      assert (∀ v, v ∈ z :: items → is_int v.1 = is_int z.1) as Hall'.
      { intros v [->|Hv]%elem_of_cons; [done|by apply Hall]. }
      by rewrite (Hall' x Hx), (Hall' y Hy) in Hkind.
    + apply not_Forall_Exists in Hnot; [|apply _].
      apply Exists_exists in Hnot as (v & Hv & Hkind_v). unfold compose in Hkind_v.
      rewrite (IH w v Hw Hv); [done|]. rewrite Hsame. congruence.
Qed.

End sorting_facts.
(** ** The analyzer: the result of [counter] *)

Import Analyse.

(** The tally by key, from the classes and the counted tokens. *)
Lemma tally_int {G : Glob} path filename classes (fs : filesystem) n :
  tally path filename classes fs !! PyInt n
  = if decide (PyInt n ∈ classes) then Some 0 else None.
Proof. by rewrite tally_tokens, count_tokens_int, init_tally_lookup. Qed.

Lemma tally_str {G : Glob} path filename classes (fs : filesystem) s :
  is_Some (tally path filename classes fs !! PyStr s)
  ↔ PyStr s ∈ classes ∨ s ∈ tokens path filename fs.
Proof.
  rewrite tally_tokens, count_tokens_str, init_tally_lookup.
  destruct (decide (PyStr s ∈ classes)) as [Hs|Hs].
  - split; [by left|by eexists].
  - destruct (decide (s ∈ tokens path filename fs)) as [Ht|Ht].
    + split; [by right|by eexists].
    + split; [by intros [? [=]]|by intros [?|?]].
Qed.

(** X13. [counter] ends in a [TypeError] exactly when the tally has keys
    of both kinds: some class is given as an [int], and there is a class
    given as a [str] or a counted token.  In every other case it returns
    the entries of the tally, each once, by strictly increasing key. *)
Theorem counter_outcome {G : Glob} (path filename : string)
    (classes : list pykey) (fs : filesystem) :
  let mixed := (∃ n, PyInt n ∈ classes)
               ∧ (tokens path filename fs ≠ [] ∨ ∃ s, PyStr s ∈ classes) in
  (mixed → counter path filename classes fs = Raise TypeError)
  ∧ (¬ mixed →
     ∃ l, counter path filename classes fs = Ok l
          ∧ (∀ k v, (k, v) ∈ l ↔ tally path filename classes fs !! k = Some v)
          ∧ StronglySorted item_lt l).
Proof.
  cbn zeta. unfold counter.
  set (cnt := tally path filename classes fs).
  split.
  - intros [[n Hn] Hstr].
    assert (Hint : (PyInt n, 0) ∈ map_to_list cnt).
    { apply elem_of_map_to_list. unfold cnt. by rewrite tally_int, decide_True. }
    assert (∃ s, is_Some (cnt !! PyStr s)) as (s & v & Hs).
    { destruct Hstr as [Htoks|[s Hs]].
      - destruct (tokens path filename fs) as [|s toks] eqn:Htokens; [done|].
        exists s. apply tally_str. right. rewrite Htokens. apply elem_of_cons; by left.
      - exists s. apply tally_str. by left. }
    apply (sorted_mixed _ (PyInt n, 0) (PyStr s, v)); [done| |done].
    by apply elem_of_map_to_list.
  - intros Hpure.
    assert (∃ b, Forall (λ y : pykey * Z, is_int y.1 = b) (map_to_list cnt))
      as [b Hkind].
    { destruct (decide (Exists (λ k, is_int k = true) classes)) as [Hint|Hnone].
      - exists true. apply Forall_forall. intros [[n|s] v] Hin; [done|].
        apply elem_of_map_to_list in Hin. exfalso. apply Hpure. split.
        + apply Exists_exists in Hint as ([n|?] & Hn & ?); [by exists n|done].
        + assert (is_Some (cnt !! PyStr s)) as Hs by (by eexists).
          apply tally_str in Hs as [Hs|Hs]; [right; by exists s|left].
          intros Hnil. rewrite Hnil in Hs. by apply elem_of_nil in Hs.
      - exists false. apply Forall_forall. intros [[n|s] v] Hin; [|done].
        apply elem_of_map_to_list in Hin. unfold cnt in Hin.
        rewrite tally_int in Hin.
        destruct (decide (PyInt n ∈ classes)) as [Hn|]; [|done].
        destruct Hnone. apply Exists_exists. by exists (PyInt n). }
    destruct (sorted_same b _ Hkind) as (l & -> & Hperm & Hsorted).
    exists l. split_and!; [done| |].
    + intros k v. by rewrite Hperm, elem_of_map_to_list.
    + apply Hsorted, NoDup_fst_map_to_list.
Qed.

Lemma counter_outcome_witness :
  let mixed := (∃ n, PyInt n ∈ [PyInt 0; PyInt 1; PyInt 2])
               ∧ (tokens (G:=sample_glob) "data" "*" two_files ≠ []
                  ∨ ∃ s, PyStr s ∈ [PyInt 0; PyInt 1; PyInt 2]) in
  mixed
  ∧ counter (G:=sample_glob) "data" "*" [PyInt 0; PyInt 1; PyInt 2] two_files
    = Raise TypeError.
Proof.
  assert (Hmixed : (∃ n, PyInt n ∈ [PyInt 0; PyInt 1; PyInt 2])
                   ∧ (tokens (G:=sample_glob) "data" "*" two_files ≠ []
                      ∨ ∃ s, PyStr s ∈ [PyInt 0; PyInt 1; PyInt 2])).
  { split; [exists 0; apply elem_of_cons; by left|left]. by vm_compute. }
  split; [done|].
  by apply (counter_outcome (G:=sample_glob) "data" "*"
              [PyInt 0; PyInt 1; PyInt 2] two_files).
Defined.

(** *** Where the count of a file stops *)

Lemma counted_tokens_stop pre rest post :
  counted_tokens (pre ++ String " " rest :: post) = counted_tokens pre.
Proof.
  induction pre as [|line pre IH]; [done|].
  rewrite <-app_comm_cons. cbn [counted_tokens].
  destruct (Py.split_once " " line).1; [done|]. by rewrite IH.
Qed.

Lemma lines_shaped_prefix pre line post :
  lines_shaped (pre ++ line :: post) → lines_shaped pre.
Proof.
  induction pre as [|l pre IH]; [done|].
  rewrite <-app_comm_cons. intros [[Hl Hshape]|[_ Hnil]].
  - left. split; [done|]. by apply IH.
  - by destruct pre.
Qed.

Lemma occurrences_perm s toks toks' :
  toks ≡ₚ toks' → occurrences s toks = occurrences s toks'.
Proof.
  intros Hperm. unfold occurrences. f_equal.
  apply Permutation_length. by apply filter_Permutation.
Qed.

Lemma count_tokens_perm toks toks' (cnt : gmap pykey Z) :
  toks ≡ₚ toks' → foldl count_token cnt toks = foldl count_token cnt toks'.
Proof.
  intros Hperm. apply map_eq. intros [n|s].
  - by rewrite !count_tokens_int.
  - rewrite !count_tokens_str, (occurrences_perm s toks toks' Hperm).
    destruct (cnt !! PyStr s); [done|].
    destruct (decide (s ∈ toks)) as [Hs|Hs].
    + rewrite decide_True; [done|]. by rewrite <-Hperm.
    + rewrite decide_False; [done|]. by rewrite <-Hperm.
Qed.

(** X14. The count of a file ends at the first line that begins with a
    space: [counter] returns what it returns when the file is cut before
    that line, so no record from that line on is counted. *)
Theorem counter_stops_at_space {G : Glob} (path filename : string)
    (classes : list pykey) (fs : filesystem) (f : string)
    (pre : list string) (rest : string) (post : list string) :
  Py.readlines (read_text fs f) = pre ++ String " " rest :: post →
  counter path filename classes fs
  = counter path filename classes (<[f := join pre]> fs).
Proof.
  intros Hlines.
  assert (Hf : is_Some (fs !! f)).
  { unfold read_text in Hlines. destruct (fs !! f); [by eexists|]. by destruct pre. }
  unfold counter. f_equal. f_equal.
  rewrite !tally_tokens. apply count_tokens_perm.
  unfold tokens.
  set (pattern := path +:+ "/" +:+ filename +:+ ".txt").
  assert (Hfiles : glob fs pattern ≡ₚ glob (<[f := join pre]> fs) pattern).
  { apply NoDup_Permutation; [apply NoDup_glob..|].
    intros p. rewrite !elem_of_glob.
    destruct (decide (p = f)) as [->|Hne].
    - rewrite lookup_insert_eq. split; intros [_ ?]; split; by eauto.
    - by rewrite lookup_insert_ne. }
  rewrite <-Hfiles.
  assert (Hsame : ∀ files,
    files ≫= (λ p, counted_tokens (Py.readlines (read_text fs p)))
    = files ≫= (λ p, counted_tokens
                       (Py.readlines (read_text (<[f := join pre]> fs) p)))).
  { induction files as [|p files IH]; [done|].
    change (mbind ?g (p :: files)) with (g p ++ mbind g files).
    rewrite IH. f_equal.
    destruct (decide (p = f)) as [->|Hne].
    - replace (read_text (<[f := join pre]> fs) f) with (join pre)
        by (unfold read_text; by rewrite lookup_insert_eq).
      rewrite Hlines, counted_tokens_stop, readlines_join; [done|].
      apply (lines_shaped_prefix pre (String " " rest) post).
      rewrite <-Hlines. apply readlines_shaped.
    - rewrite read_text_insert_ne; done. }
  by rewrite Hsame.
Qed.

Lemma counter_stops_at_space_witness :
  counter (G:=sample_glob) "data" "*" [PyStr "0"; PyStr "1"]
    {[ "data/a.txt" := "0 a" +:+ nl +:+ " 1 b" +:+ nl +:+ "1 c" +:+ nl ]}
  = counter (G:=sample_glob) "data" "*" [PyStr "0"; PyStr "1"]
      (<["data/a.txt" := join ["0 a" +:+ nl]]>
         {[ "data/a.txt" := "0 a" +:+ nl +:+ " 1 b" +:+ nl +:+ "1 c" +:+ nl ]}).
Proof.
  apply (counter_stops_at_space (G:=sample_glob) "data" "*" [PyStr "0"; PyStr "1"]
           {[ "data/a.txt" := "0 a" +:+ nl +:+ " 1 b" +:+ nl +:+ "1 c" +:+ nl ]}
           "data/a.txt" ["0 a" +:+ nl] ("1 b" +:+ nl) ["1 c" +:+ nl]).
  by vm_compute.
Defined.
(** ** The geometry codec: errors *)

(** X15. [bbox2yolo] raises [ZeroDivisionError] for an image of width 0,
    whatever the other arguments are, and for an image of height 0 when
    the width is a positive integer up to [2^53] (so that [1 / width]
    has been computed). *)
Theorem bbox2yolo_zero_division (width height xmin ymin xmax ymax : Z) :
  width = 0 ∨ (0 < width ≤ 2 ^ 53 ∧ height = 0) →
  Geometry.bbox2yolo width height xmin ymin xmax ymax = Raise ZeroDivisionError.
Proof.
  intros [->|[Hwidth ->]]; [done|].
  unfold Geometry.bbox2yolo.
  destruct (recip_int width Hwidth) as (md & ed & Hdiv & _).
  assert (Hdw : Geometry.int_truediv 1 width = Ok (SF2Prim (pos_float md ed))).
  { unfold Geometry.int_truediv. rewrite decide_False by lia. by rewrite Hdiv. }
  by rewrite Hdw.
Qed.

Lemma bbox2yolo_zero_division_witness :
  Geometry.bbox2yolo 640 0 10 10 50 50 = Raise ZeroDivisionError.
Proof.
  apply (bbox2yolo_zero_division 640 0 10 10 50 50).
  right. split; [|done]. split; [lia|]. by vm_compute.
Defined.

Section not_a_number.
Import Geometry.

Lemma is_number_spec f :
  is_number f = false ↔ (∃ s, Prim2SF f = S754_infinity s) ∨ Prim2SF f = S754_nan.
Proof.
  unfold is_number. destruct (Prim2SF f); split; try done; eauto.
  - intros [[? [=]]|[=]].
  - intros [[? [=]]|[=]].
Qed.

Lemma int_of_float_not_a_number f :
  is_number f = false →
  int_of_float f = Raise OverflowError ∨ int_of_float f = Raise ValueError.
Proof.
  unfold is_number, int_of_float. destruct (Prim2SF f); try done; auto.
Qed.

(** A difference or a sum with an infinity or a NaN is no number. *)
Lemma sub_add_not_a_number (a b : float) :
  is_number a = false ∨ is_number b = false →
  is_number (a - b) = false ∧ is_number (a + b) = false.
Proof.
  intros Hbad. rewrite !is_number_spec in Hbad. unfold is_number.
  rewrite sub_spec, add_spec. unfold SF64sub, SF64add.
  destruct Hbad as [[[s Ha]|Ha]|[[s Hb]|Hb]].
  - rewrite Ha. destruct (Prim2SF b) as [| [] | |]; destruct s; done.
  - rewrite Ha. by destruct (Prim2SF b).
  - rewrite Hb. destruct (Prim2SF a) as [| [] | |]; destruct s; done.
  - rewrite Hb. by destruct (Prim2SF a).
Qed.

Lemma half_not_a_number (a : float) :
  is_number a = false → is_number (a / 2) = false.
Proof.
  intros Hbad. rewrite is_number_spec in Hbad.
  unfold is_number. rewrite div_spec. unfold SF64div.
  change (Prim2SF 2) with (S754_finite false 4503599627370496 (-51)).
  by destruct Hbad as [[s ->]| ->].
Qed.

End not_a_number.

(** X16. [yolo2bbox] returns no box when one of its arguments is an
    infinity or a NaN: it raises [OverflowError] or [ValueError]. *)
Theorem yolo2bbox_not_a_number (x y w h : float) :
  Geometry.is_number x = false ∨ Geometry.is_number y = false
  ∨ Geometry.is_number w = false ∨ Geometry.is_number h = false →
  Geometry.yolo2bbox x y w h = Raise OverflowError
  ∨ Geometry.yolo2bbox x y w h = Raise ValueError.
Proof.
  intros Hbad. unfold Geometry.yolo2bbox.
  assert (Hx : Geometry.is_number x = false ∨ Geometry.is_number w = false →
               Geometry.is_number (x - w / 2) = false).
  { intros [?|?]; apply sub_add_not_a_number;
      [by left|right; by apply half_not_a_number]. }
  assert (Hy : Geometry.is_number y = false ∨ Geometry.is_number h = false →
               Geometry.is_number (y - h / 2) = false).
  { intros [?|?]; apply sub_add_not_a_number;
      [by left|right; by apply half_not_a_number]. }
  destruct (Geometry.is_number (x - w / 2)) eqn:Hxmin.
  - assert (Hyh : Geometry.is_number y = false ∨ Geometry.is_number h = false).
    { destruct Hbad as [Hb|[Hb|[Hb|Hb]]]; [|by left| |by right].
      - by specialize (Hx (or_introl Hb)).
      - by specialize (Hx (or_intror Hb)). }
    destruct (Geometry.int_of_float (x - w / 2)) as [xmin|e] eqn:Hint; cbn.
    + destruct (int_of_float_not_a_number _ (Hy Hyh)) as [-> | ->];
        by auto.
    + unfold Geometry.is_number, Geometry.int_of_float in *.
      destruct (Prim2SF (x - w / 2)); done.
  - destruct (Geometry.int_of_float (x - w / 2)) as [xmin|e] eqn:Hint.
    + unfold Geometry.is_number, Geometry.int_of_float in *.
      destruct (Prim2SF (x - w / 2)); done.
    + unfold Geometry.is_number, Geometry.int_of_float in *.
      destruct (Prim2SF (x - w / 2)); try done; injection Hint as <-; by auto.
Qed.

Lemma yolo2bbox_not_a_number_witness :
  Geometry.yolo2bbox 0.5 nan 0.25 0.25 = Raise OverflowError
  ∨ Geometry.yolo2bbox 0.5 nan 0.25 0.25 = Raise ValueError.
Proof.
  apply (yolo2bbox_not_a_number 0.5 nan 0.25 0.25). right. left. by vm_compute.
Defined.
(** ** [to_remove] as a set *)

Section to_remove_set.
Context (to_remove to_remove' : list Z).
Hypothesis same_elements : ∀ c, c ∈ to_remove ↔ c ∈ to_remove'.

Lemma update_step_set st c :
  TXTAnnotations.update_step to_remove st c
  = TXTAnnotations.update_step to_remove' st c.
Proof.
  unfold TXTAnnotations.update_step. destruct st as [keep shift].
  destruct (decide (c ∈ to_remove)) as [Hc|Hc];
    destruct (decide (c ∈ to_remove')) as [Hc'|Hc']; try done.
  - destruct Hc'. by apply same_elements.
  - destruct Hc. by apply same_elements.
Qed.

Lemma update_classes_set config :
  TXTAnnotations.update_classes config to_remove
  = TXTAnnotations.update_classes config to_remove'.
Proof.
  unfold TXTAnnotations.update_classes. destruct config as [|c0 config]; [done|].
  f_equal. f_equal. unfold TXTAnnotations.update_loop.
  generalize (∅ : gmap Z Z, 0). generalize (c0 :: config). clear c0 config.
  intros config. induction config as [|c config IH]; intros st; [done|].
  cbn [foldl]. by rewrite update_step_set, IH.
Qed.

Lemma rewrite_record_set keep line :
  TXTAnnotations.rewrite_record keep to_remove line
  = TXTAnnotations.rewrite_record keep to_remove' line.
Proof.
  unfold TXTAnnotations.rewrite_record.
  destruct (Py.split_once " " line) as [token [rest|]]; [|done].
  destruct (Py.int_of_str token) as [c|]; [|done]. cbn.
  destruct (decide (c ∈ to_remove)) as [Hc|Hc];
    destruct (decide (c ∈ to_remove')) as [Hc'|Hc']; try done.
  - destruct Hc'. by apply same_elements.
  - destruct Hc. by apply same_elements.
Qed.

Lemma rewrite_file_set keep txt (fs : filesystem) :
  TXTAnnotations.rewrite_file keep to_remove txt fs
  = TXTAnnotations.rewrite_file keep to_remove' txt fs.
Proof.
  unfold TXTAnnotations.rewrite_file.
  assert (Hlines : ∀ lines written,
    TXTAnnotations.rewrite_records keep to_remove lines written
    = TXTAnnotations.rewrite_records keep to_remove' lines written).
  { induction lines as [|line lines IH]; intros written; [done|].
    cbn [TXTAnnotations.rewrite_records]. rewrite rewrite_record_set.
    destruct (TXTAnnotations.rewrite_record keep to_remove' line)
      as [[out|]|e]; by rewrite ?IH. }
  by rewrite Hlines.
Qed.

End to_remove_set.

(** X17. Only the set of classes listed in [to_remove] matters: two
    lists with the same elements, in whatever order and with whatever
    repetitions, give the same remap and the same run of [remove_class].
    In particular [to_remove] need not be sorted. *)
Theorem remove_class_to_remove_set {G : Glob} (classes_config : list Z)
    (txt_path : string) (to_remove to_remove' : list Z) (filename : string)
    (fs : filesystem) :
  (∀ c, c ∈ to_remove ↔ c ∈ to_remove') →
  TXTAnnotations.update_classes classes_config to_remove
  = TXTAnnotations.update_classes classes_config to_remove'
  ∧ TXTAnnotations.remove_class classes_config txt_path to_remove filename fs
    = TXTAnnotations.remove_class classes_config txt_path to_remove' filename fs.
Proof.
  intros Hsame. split; [by apply update_classes_set|].
  unfold TXTAnnotations.remove_class.
  rewrite (update_classes_set to_remove to_remove' Hsame).
  destruct (TXTAnnotations.update_classes classes_config to_remove')
    as [keep|e]; [|done].
  apply for_each_ext. intros txt fs0. by apply rewrite_file_set.
Qed.

Lemma remove_class_to_remove_set_witness :
  TXTAnnotations.update_classes [0; 1; 2] [2; 1; 2]
  = TXTAnnotations.update_classes [0; 1; 2] [1; 2]
  ∧ TXTAnnotations.remove_class (G:=sample_glob) [0; 1; 2] "labels" [2; 1; 2] "*"
      three_classes
    = TXTAnnotations.remove_class (G:=sample_glob) [0; 1; 2] "labels" [1; 2] "*"
        three_classes.
Proof.
  apply (remove_class_to_remove_set (G:=sample_glob) [0; 1; 2] "labels"
           [2; 1; 2] [1; 2] "*" three_classes).
  intros c. rewrite !elem_of_cons, !elem_of_nil. tauto.
Defined.
(** ** The importer: what [json2txt] leaves behind *)

(** X18. When every matched JSON file parses and converts without error
    and no matched JSON file is itself the annotation path of one of
    them, [json2txt] succeeds; the annotation file of a JSON file holds
    the text written for the last matched JSON file with that annotation
    path (JSON files whose names agree up to the first dot share one, and
    the later one overwrites the earlier), and every path that is no such
    annotation path is left as it was. *)
Theorem json2txt_last_writer {G : Glob} {J : JSON2TXT.Json}
    (json_path txt_path filename : string) (fs : filesystem) :
  let files := glob fs (json_path +:+ "/" +:+ filename) in
  (∀ f, f ∈ files →
     ∃ data text, JSON2TXT.json_load (read_text fs f) = Some data
                  ∧ JSON2TXT.write_objects data = (text, Ok tt)) →
  (∀ f g, f ∈ files → g ∈ files → txt_of txt_path f ≠ g) →
  ∃ fs' : filesystem,
    JSON2TXT.json2txt json_path txt_path filename fs = (fs', Ok tt)
    ∧ (∀ pre f post data text,
         files = pre ++ f :: post →
         (∀ g, g ∈ post → txt_of txt_path g ≠ txt_of txt_path f) →
         JSON2TXT.json_load (read_text fs f) = Some data →
         JSON2TXT.write_objects data = (text, Ok tt) →
         fs' !! txt_of txt_path f = Some text)
    ∧ (∀ p, (∀ f, f ∈ files → txt_of txt_path f ≠ p) → fs' !! p = fs !! p).
Proof.
  cbn zeta. unfold JSON2TXT.json2txt.
  generalize (glob fs (json_path +:+ "/" +:+ filename)). intros files.
  revert fs. induction files as [|f files IH]; intros fs Hok Hapart.
  - exists fs. split_and!; [done| |done]. intros [|??] ?????; done.
  - destruct (Hok f) as (data & text & Hload & Hwrite); [by left|].
    assert (Hf : txt_of txt_path f ≠ f) by (apply Hapart; by left).
    cbn [for_each]. unfold JSON2TXT.json2txt_file at 1. fold (txt_of txt_path f).
    rewrite read_text_insert_ne by done. rewrite Hload, Hwrite.
    rewrite insert_insert_eq.
    set (fs1 := <[txt_of txt_path f := text]> fs).
    assert (Hread : ∀ g, g ∈ files → read_text fs1 g = read_text fs g).
    { intros g Hg. unfold fs1. rewrite read_text_insert_ne; [done|].
      apply Hapart; [by left|by right]. }
    destruct (IH fs1) as (fs' & -> & Hlast & Hframe).
    { intros g Hg. rewrite (Hread g Hg). apply Hok. by right. }
    { intros g1 g2 Hg1 Hg2. apply Hapart; by right. }
    exists fs'. split_and!; [done| |].
    + intros [|f0 pre] g post data' text' Hsplit Hpost Hload' Hwrite'.
      * injection Hsplit as <- <-.
        rewrite Hframe by done. unfold fs1. rewrite lookup_insert_eq.
        congruence.
      * injection Hsplit as <- Hfiles.
        apply (Hlast pre g post data' text'); [done..| |done].
        rewrite Hread; [done|]. rewrite Hfiles. apply elem_of_app. right. by left.
    + intros p Hp. rewrite Hframe by (intros g Hg; apply Hp; by right).
      unfold fs1. rewrite lookup_insert_ne; [done|]. apply Hp. by left.
Qed.

Lemma json2txt_last_writer_witness :
  let files := glob (G:=sample_glob) shared_name "json/*" in
  ∃ fs' : filesystem,
    JSON2TXT.json2txt (G:=sample_glob) (J:=copy_json) "json" "labels" "*" shared_name
    = (fs', Ok tt)
    ∧ (∀ pre f post data text,
         files = pre ++ f :: post →
         (∀ g, g ∈ post → txt_of "labels" g ≠ txt_of "labels" f) →
         @JSON2TXT.json_load copy_json (read_text shared_name f) = Some data →
         @JSON2TXT.write_objects copy_json data = (text, Ok tt) →
         fs' !! txt_of "labels" f = Some text)
    ∧ (∀ p, (∀ f, f ∈ files → txt_of "labels" f ≠ p) → fs' !! p = shared_name !! p).
Proof.
  assert (Hfiles : ∀ f, f ∈ glob (G:=sample_glob) shared_name "json/*" →
                        f = "json/a.json" ∨ f = "json/a.v2.json").
  { intros f Hf. apply elem_of_glob in Hf as [[text Hf] _].
    unfold shared_name in Hf.
    apply lookup_insert_Some in Hf as [[<- _]|[_ Hf]]; [by left|].
    apply lookup_singleton_Some in Hf as [<- _]. by right. }
  apply (json2txt_last_writer (G:=sample_glob) (J:=copy_json)
           "json" "labels" "*" shared_name).
  - intros f [-> | ->]%Hfiles; by eexists _, _.
  - intros f g [-> | ->]%Hfiles [-> | ->]%Hfiles; by vm_compute.
Defined.
(** ** A failing [remove_class] *)




